(** * Apple Calendar MCP: the scheduling engine

    A shallow embedding of the scheduling utilities (overlap test, conflict
    search, free-slot sweep, optimal-slot choice, schedule analytics) and of
    the recurrence expansion performed by [listEvents] / [listAllEvents].

    Conventions of the embedding:
    - a JavaScript [Date] is its time value, an integer number of
      milliseconds since the epoch ([Z]); Invalid Date and the TimeClip
      range limit are outside the model, except in the free-slot sweep,
      whose arithmetic can leave the range of time values: there an
      integer outside the range stands for an Invalid Date;
    - the duration given to the sweep is a Number, a binary64 value (the
      [spec_float] of the Standard Library, with its addition); the other
      durations are differences of time values, integers;
    - the host time zone is a parameter [LocalTZA], the offset (in ms) that
      local time adds to a UTC time value;
    - strings are [string]; a character stands for one code unit. *)

From Stdlib Require Import ZArith QArith Qround Lia List Bool String Ascii.
From Stdlib Require Import Permutation Sorted DecimalString Zwf SpecFloat.
From Equations Require Import Equations.
Import ListNotations.

Local Open Scope Z_scope.

(** ** Time constants and the built-in Date accessors *)

Module JSDate.

Definition msPerSecond : Z := 1000.
Definition msPerMinute : Z := 60 * 1000.
Definition msPerHour : Z := 60 * 60 * 1000.
Definition msPerDay : Z := 24 * 60 * 60 * 1000.

(** ECMAScript [HourFromTime]: floor(t / msPerHour) modulo 24. *)
Definition HourFromTime (t : Z) : Z := (t / msPerHour) mod 24.

(** [Date.prototype.getHours]: the hour of the local time. *)
Definition getHours (LocalTZA : Z -> Z) (t : Z) : Z :=
  HourFromTime (t + LocalTZA t).

Definition MinFromTime (t : Z) : Z := (t / msPerMinute) mod 60.
Definition SecFromTime (t : Z) : Z := (t / msPerSecond) mod 60.
Definition msFromTime (t : Z) : Z := t mod msPerSecond.

(** [Day(t)]: the day number of a time value (floor division). *)
Definition Day (t : Z) : Z := t / msPerDay.

(** Proleptic Gregorian date of a day number counted from 1970-01-01,
    as (year, month 1..12, day of month 1..31). *)
Definition civil_from_days (days : Z) : Z * Z * Z :=
  let z := days + 719468 in
  let era := z / 146097 in
  let doe := z - era * 146097 in
  let yoe := (doe - doe / 1460 + doe / 36524 - doe / 146096) / 365 in
  let doy := doe - (365 * yoe + yoe / 4 - yoe / 100) in
  let mp := (5 * doy + 2) / 153 in
  let d := doy - (153 * mp + 2) / 5 + 1 in
  let m := if mp <? 10 then mp + 3 else mp - 9 in
  let y := yoe + era * 400 in
  (if m <=? 2 then y + 1 else y, m, d).

Definition YearFromTime (t : Z) : Z := fst (fst (civil_from_days (Day t))).
Definition MonthFromTime (t : Z) : Z := snd (fst (civil_from_days (Day t))).
Definition DateFromTime (t : Z) : Z := snd (civil_from_days (Day t)).

Definition digits : list ascii :=
  ["0"; "1"; "2"; "3"; "4"; "5"; "6"; "7"; "8"; "9"]%char.

Definition digit (d : Z) : ascii := nth (Z.to_nat d) digits "0"%char.

(** The [n] low decimal digits of [v], most significant first. *)
Fixpoint pad (n : nat) (v : Z) : string :=
  match n with
  | O => EmptyString
  | S n' => (pad n' (v / 10) ++ String (digit (v mod 10)) EmptyString)%string
  end.

(** The year of the ISO format: four digits for 0..9999, otherwise a sign
    and six digits (the expanded year). *)
Definition isoYear (y : Z) : string :=
  if (0 <=? y) && (y <=? 9999) then pad 4 y
  else ((if (y <? 0)%Z then "-" else "+") ++ pad 6 (Z.abs y))%string.

Definition isoDate (t : Z) : string :=
  (isoYear (YearFromTime t) ++ "-" ++ pad 2 (MonthFromTime t)
     ++ "-" ++ pad 2 (DateFromTime t))%string.

Definition isoTime (t : Z) : string :=
  (pad 2 (HourFromTime t) ++ ":" ++ pad 2 (MinFromTime t) ++ ":"
     ++ pad 2 (SecFromTime t) ++ "." ++ pad 3 (msFromTime t) ++ "Z")%string.

(** [Date.prototype.toISOString], always in UTC. *)
Definition toISOString (t : Z) : string :=
  (isoDate t ++ "T" ++ isoTime t)%string.

End JSDate.

(** ** String built-ins used by the code *)

Module JSString.

(** [s.split(c)[0]] for a one-character separator: the part of [s] before
    the first [c], all of [s] when [c] does not occur. *)
Fixpoint before_first (c : ascii) (s : string) : string :=
  match s with
  | EmptyString => EmptyString
  | String a s' => if Ascii.eqb a c then EmptyString else String a (before_first c s')
  end.

(** [s.replace(/[...]/g, '')]: drop every character of the class [p]. *)
Fixpoint remove_chars (p : ascii -> bool) (s : string) : string :=
  match s with
  | EmptyString => EmptyString
  | String a s' => if p a then remove_chars p s' else String a (remove_chars p s')
  end.

(** Whether the character [c] occurs in [s]. *)
Fixpoint occurs (c : ascii) (s : string) : bool :=
  match s with
  | EmptyString => false
  | String a s' => Ascii.eqb a c || occurs c s'
  end.

(** White space and line terminators that [trim] strips, among the code
    units below 256. *)
Definition isWhiteSpace (a : ascii) : bool :=
  existsb (Nat.eqb (nat_of_ascii a)) [9; 10; 11; 12; 13; 32; 160]%nat.

Fixpoint trimStart (s : string) : string :=
  match s with
  | EmptyString => EmptyString
  | String a s' => if isWhiteSpace a then trimStart s' else s
  end.

(** Truthiness of a string: non-empty. *)
Definition truthy (s : string) : bool :=
  match s with EmptyString => false | _ => true end.

(** [s.trim()] is truthy exactly when [s] holds a character that is not
    white space, which is when stripping the front leaves something. *)
Definition trim_truthy (s : string) : bool := truthy (trimStart s).

(** [x || ''] for a possibly undefined string. *)
Definition or_empty (x : option string) : string :=
  match x with Some s => s | None => EmptyString end.

(** [...(x && { x })]: the optional field is present only for a defined,
    non-empty string. *)
Definition optional_field (x : option string) : option string :=
  match x with
  | Some s => if truthy s then Some s else None
  | None => None
  end.

End JSString.

(** ** Numbers, arrays and maps of the host language *)

Module JSNumber.

(** The values a Number takes in the analytics code: exact rationals
    stand for the finite values (rounding to binary64 is not modelled);
    the signed zero, the infinities and NaN are kept, because a division
    by either zero produces them. [Finite q] with [q == 0] is +0. *)
Inductive Number : Type :=
| Finite (q : Q)
| NegZero
| PosInfinity
| NegInfinity
| NaN.

Definition ofZ (z : Z) : Number := Finite (inject_Z z).

Definition isZero (x : Number) : bool :=
  match x with
  | Finite q => Qeq_bool q 0
  | NegZero => true
  | _ => false
  end.

Definition isNegative (x : Number) : bool :=
  match x with
  | Finite q => negb (Qle_bool 0 q)
  | NegZero | NegInfinity => true
  | _ => false
  end.

Definition infinity (negative : bool) : Number :=
  if negative then NegInfinity else PosInfinity.

Definition zero (negative : bool) : Number :=
  if negative then NegZero else Finite 0.

(** The [/] operator (Number::divide). *)
Definition div (x y : Number) : Number :=
  let negative := xorb (isNegative x) (isNegative y) in
  match x, y with
  | NaN, _ | _, NaN => NaN
  | (PosInfinity | NegInfinity), (PosInfinity | NegInfinity) => NaN
  | (PosInfinity | NegInfinity), _ => infinity negative
  | _, (PosInfinity | NegInfinity) => zero negative
  | Finite a, Finite b =>
      if isZero y then (if isZero x then NaN else infinity negative)
      else if isZero x then zero negative
      else Finite (a / b)
  | Finite a, NegZero => if isZero x then NaN else infinity negative
  | NegZero, Finite b => if isZero y then NaN else zero negative
  | NegZero, NegZero => NaN
  end.

(** The rational a Number denotes, when it is finite (-0 denotes 0). *)
Definition toQ (x : Number) : option Q :=
  match x with
  | Finite q => Some q
  | NegZero => Some 0%Q
  | _ => None
  end.

(** [Math.ceil]: the least integer not below the argument; an argument in
    (-1, 0) yields -0. *)
Definition ceil (x : Number) : Number :=
  match x with
  | Finite q =>
      if Qle_bool 0 q || Qle_bool q (-1) then ofZ (Qceiling q) else NegZero
  | _ => x
  end.

End JSNumber.

(** The Numbers of the free-slot sweep are binary64 values: the sum of a
    time value and a duration is rounded, and a Date keeps whole
    milliseconds only. The operations are those of the specification of
    floating-point arithmetic in the Standard Library. *)
Module Double.

(** Binary64: 53 bits of precision, exponents below 1024. *)
Definition prec : Z := 53.
Definition emax : Z := 1024.

(** The Number nearest to an integer; exact below 2^53. *)
Definition ofZ (z : Z) : spec_float := binary_normalize prec emax z 0 false.

(** The [+] and [*] of Numbers (Number::add, Number::multiply). *)
Definition add : spec_float -> spec_float -> spec_float := SFadd prec emax.
Definition mul : spec_float -> spec_float -> spec_float := SFmul prec emax.

(** The exact value of a finite Number; both zeros denote 0. *)
Definition toQ (x : spec_float) : option Q :=
  match x with
  | S754_zero _ => Some 0%Q
  | S754_finite s m (Zneg p) => Some (cond_Zopp s (Zpos m) # 2 ^ p)
  | S754_finite s m e => Some (inject_Z (cond_Zopp s (Zpos m) * 2 ^ e))
  | _ => None
  end.

(** [x <= y]: the comparison of the values, false when either is NaN. *)
Definition leb (x y : spec_float) : bool :=
  match x, y with
  | S754_nan, _ | _, S754_nan => false
  | S754_infinity true, _ | _, S754_infinity false => true
  | S754_infinity false, _ | _, S754_infinity true => false
  | _, _ =>
      match toQ x, toQ y with
      | Some a, Some b => Qle_bool a b
      | _, _ => false
      end
  end.

(** ToIntegerOrInfinity on a finite value: the fraction is dropped. *)
Definition truncate (q : Q) : Z := Z.quot (Qnum q) (Zpos (Qden q)).

(** The representation of the nonzero integer of sign [s] and magnitude
    [p], for [p] below 2^53: the mantissa has 53 bits. *)
Definition normal (s : bool) (p : positive) : spec_float :=
  S754_finite s (Z.to_pos (Zpos p * 2 ^ (53 - Zpos (digits2_pos p))))
    (Zpos (digits2_pos p) - 53).

End Double.

(** Dates as the sweep handles them: through [getTime] and the
    [Date] constructor. *)
Module TimeValue.

(** The time values of valid dates: 8.64e15 ms either side of the epoch. *)
Definition maxTime : Z := 8640000000000000.

Definition isTimeValue (t : Z) : bool := (- maxTime <=? t) && (t <=? maxTime).

(** Every integer outside the range stands for an Invalid Date. The one
    the constructor yields lies below every time value, so that the
    strict comparisons of [hasOverlap] are false of a slot that ends at
    it, as they are in the code. *)
Definition invalidDate : Z := - maxTime - 1.

(** [date.getTime()]: NaN for an Invalid Date. *)
Definition getTime (date : Z) : spec_float :=
  if isTimeValue date then Double.ofZ date else S754_nan.

(** [new Date(value)] for a Number (TimeClip): an Invalid Date unless
    the value is finite and within the range, else the value without its
    fraction. *)
Definition newDate (value : spec_float) : Z :=
  match Double.toQ value with
  | Some q =>
      if Qle_bool (inject_Z (- maxTime)) q && Qle_bool q (inject_Z maxTime)
      then Double.truncate q
      else invalidDate
  | None => invalidDate
  end.

End TimeValue.

Module JSArray.

Section Sort.
Context {A : Type}.
Variable compareFn : A -> A -> Z.

(** Put [x], which preceded every element of the sorted [l] in the
    input, at its place: before the first element it must not follow. *)
Fixpoint insert (x : A) (l : list A) : list A :=
  match l with
  | [] => [x]
  | y :: l' => if compareFn x y <=? 0 then x :: l else y :: insert x l'
  end.

(** [Array.prototype.sort(compareFn)], a stable sort. *)
Definition sort (l : list A) : list A := fold_right insert [] l.
End Sort.

(** [arr.includes(v)] on numbers. *)
Definition includes (arr : list Z) (v : Z) : bool := existsb (Z.eqb v) arr.

End JSArray.

Module JSMap.

(** A [Map] with string keys: the entries in insertion order, every key
    at most once. *)
Definition t (V : Type) : Type := list (string * V).

Definition empty {V : Type} : t V := [].

Fixpoint get {V : Type} (m : t V) (key : string) : option V :=
  match m with
  | [] => None
  | (k, v) :: m' => if String.eqb k key then Some v else get m' key
  end.

(** [set] replaces the value of a present key in place and appends a new
    key at the end. *)
Fixpoint set {V : Type} (m : t V) (key : string) (value : V) : t V :=
  match m with
  | [] => [(key, value)]
  | (k, v) :: m' =>
      if String.eqb k key then (k, value) :: m' else (k, v) :: set m' key value
  end.

Definition keys {V : Type} (m : t V) : list string := map fst m.
Definition values {V : Type} (m : t V) : list V := map snd m.

End JSMap.

(** ** The interval model and the free-slot search *)

Module Scheduling.
Import JSDate TimeValue.

Record TimeSlot : Type := mkSlot { start : Z; end_ : Z }.

Record Event : Type := mkEvent {
  uid : string;
  summary : string;
  startDate : Z;
  endDate : Z;
  location : option string;
  description : option string;
  calendar : option string
}.

Definition hasOverlap (slot1 slot2 : TimeSlot) : bool :=
  ((start slot1 <? end_ slot2) && (end_ slot1 >? start slot2))
  || ((start slot2 <? end_ slot1) && (end_ slot2 >? start slot1)).

Definition eventSlot (event : Event) : TimeSlot :=
  {| start := startDate event; end_ := endDate event |}.

Definition findConflicts (timeSlot : TimeSlot) (events : list Event) : list Event :=
  filter (fun event => hasOverlap timeSlot (eventSlot event)) events.

Definition isFree (timeSlot : TimeSlot) (events : list Event) : bool :=
  (List.length (findConflicts timeSlot events) =? 0)%nat.

(** Check every 30 minutes. *)
Definition step : Z := 30 * 60 * 1000.

(** The candidate grid anchored at [t0]: its [k]-th slot starts [k] steps
    after [t0] and lasts [duration]. *)
Definition gridSlot (t0 duration : Z) (k : nat) : TimeSlot :=
  {| start := t0 + Z.of_nat k * step;
     end_ := t0 + Z.of_nat k * step + duration |}.

Definition gridSlots (t0 duration : Z) (n : nat) : list TimeSlot :=
  map (gridSlot t0 duration) (seq 0 n).

(** The sweep ends: the candidate times increase and stay time values.
    The proof of accessibility is wrapped so that it is never unfolded
    when the sweep is evaluated. *)
Definition Zwf_wf : well_founded (Zwf 0) :=
  Acc_intro_generator 64 (Zwf_well_founded 0).

#[local] Instance Zwf_WellFounded : WellFounded (Zwf 0) := Zwf_wf.

Section WithTimeZone.
Variable LocalTZA : Z -> Z.

Opaque Zwf_wf maxTime step.

(** The [while] loop of [findFreeSlots]: the state is the pair of the
    mutable [currentTime] and the [freeSlots] array built so far. The
    duration is a Number: the loop test compares the binary64 sum of the
    time value and the duration with the time value of the end, and the
    end of a slot is the Date built from that sum. The next candidate
    time, 30 minutes on, is an exact sum; past the last time value it is an
    Invalid Date, and the loop test fails on its NaN. *)
Equations? findFreeSlots_loop (endDate_ : Z) (duration : spec_float)
    (events : list Event) (businessHoursOnly : bool)
    (currentTime : Z) (freeSlots : list TimeSlot)
    : list TimeSlot
    by wf (maxTime - currentTime) (Zwf 0) :=
  findFreeSlots_loop endDate_ duration events businessHoursOnly currentTime freeSlots
    with bool_dec
           (Double.leb (Double.add (getTime currentTime) duration) (getTime endDate_))
           true => {
    | right _ := freeSlots
    | left _ :=
        if businessHoursOnly
           && ((getHours LocalTZA currentTime <? 9)
               || (getHours LocalTZA currentTime >=? 17))
        then findFreeSlots_loop endDate_ duration events businessHoursOnly
               (currentTime + step) freeSlots
        else
          let slot := {| start := currentTime;
                         end_ := newDate (Double.add (getTime currentTime) duration) |} in
          findFreeSlots_loop endDate_ duration events businessHoursOnly
            (currentTime + step)
            (if isFree slot events then freeSlots ++ [slot] else freeSlots) }.
Proof.
  all: assert (Hvalid : isTimeValue currentTime = true)
         by (destruct (isTimeValue currentTime) eqn:Hv; [reflexivity|];
             unfold getTime in e; rewrite Hv in e;
             unfold Double.add, SFadd, Double.leb in e; discriminate).
  all: unfold isTimeValue in Hvalid; apply andb_true_iff in Hvalid;
       destruct Hvalid as [_ Hmax]; apply Z.leb_le in Hmax.
  all: assert (Hstep : 0 < step) by reflexivity.
  all: unfold Zwf; lia.
Qed.
Transparent Zwf_wf maxTime step.

Definition findFreeSlots (startDate_ endDate_ : Z) (duration : spec_float)
    (events : list Event) (businessHoursOnly : bool) : list TimeSlot :=
  findFreeSlots_loop endDate_ duration events businessHoursOnly startDate_ [].

(** The score of one free slot under the preferred hours. *)
Definition score (preferences : list Z) (slot : TimeSlot) : Z :=
  let hour := getHours LocalTZA (start slot) in
  if JSArray.includes preferences hour then 1 else 0.

(** [preferences] is [None] when the optional argument is absent. The
    result is [None] for [null]. *)
Definition findOptimalSlot (candidates : list TimeSlot) (events : list Event)
    (preferences : option (list Z)) : option TimeSlot :=
  let freeSlots := filter (fun slot => isFree slot events) candidates in
  if (List.length freeSlots =? 0)%nat then None
  else if (List.length freeSlots =? 1)%nat then nth_error freeSlots 0
  else
    match preferences with
    | Some preferences_ =>
        if (0 <? List.length preferences_)%nat then
          let scoredSlots :=
            map (fun slot => (slot, score preferences_ slot)) freeSlots in
          let sorted :=
            JSArray.sort (fun a b => snd b - snd a) scoredSlots in
          option_map fst (nth_error sorted 0)
        else nth_error freeSlots 0
    | None => nth_error freeSlots 0
    end.

End WithTimeZone.

(** *** Analytics *)

Definition days_between (startDate_ endDate_ : Z) : JSNumber.Number :=
  JSNumber.ceil
    (JSNumber.div (JSNumber.ofZ (endDate_ - startDate_)) (JSNumber.ofZ msPerDay)).

Definition calculateMeetingDensity (events : list Event) (startDate_ endDate_ : Z)
    : JSNumber.Number :=
  let days := days_between startDate_ endDate_ in
  JSNumber.div (JSNumber.ofZ (Z.of_nat (List.length events))) days.

Definition calculateTotalDuration (events : list Event) : Z :=
  fold_left (fun total event => total + (endDate event - startDate event)) events 0.

(** The key of an event: the part of the ISO string of its start before
    the first "T". *)
Definition dateKeyOf (event : Event) : string :=
  JSString.before_first "T" (toISOString (startDate event)).

(** One iteration of the loop of [groupEventsByDay]. *)
Definition groupEventsByDay_step (grouped : JSMap.t (list Event)) (event : Event)
    : JSMap.t (list Event) :=
  let dateKey := dateKeyOf event in
  if negb (JSString.truthy dateKey) then grouped
  else
    let dayEvents :=
      match JSMap.get grouped dateKey with
      | Some arr => arr
      | None => []
      end in
    JSMap.set grouped dateKey (dayEvents ++ [event]).

Definition groupEventsByDay (events : list Event) : JSMap.t (list Event) :=
  fold_left groupEventsByDay_step events JSMap.empty.

(** *** Notions used to state the properties *)

(** The comparator of the selector: higher scores first. *)
Definition byScoreDesc {A : Type} (a b : A * Z) : Z := snd b - snd a.

(** The earliest entry among those of the highest score. *)
Fixpoint best {A : Type} (l : list (A * Z)) : option (A * Z) :=
  match l with
  | [] => None
  | x :: l' =>
      match best l' with
      | None => Some x
      | Some h => if snd h <=? snd x then Some x else Some h
      end
  end.

Definition sameKey (k : string) (event : Event) : bool :=
  String.eqb (dateKeyOf event) k.

Definition nonempty {A : Type} (l : list A) : option (list A) :=
  match l with [] => None | _ => Some l end.

(** [grouped] files the events [seen] so far: no key twice, under each
    key the events of that key in the order seen, and no event elsewhere. *)
Definition grouping_of (grouped : JSMap.t (list Event)) (seen : list Event) : Prop :=
  NoDup (JSMap.keys grouped)
  /\ (forall k, JSMap.get grouped k = nonempty (filter (sameKey k) seen))
  /\ Permutation (List.concat (JSMap.values grouped)) seen.

End Scheduling.

(** ** Recurrence expansion in [listEvents] and [listAllEvents] *)

Module EventOps.
Import JSDate JSString Scheduling.

(** Completion of a computation: a value, or a thrown error. *)
Inductive Completion (A : Type) : Type :=
| Normal (a : A)
| Throw (error : string).
Arguments Normal {A} a.
Arguments Throw {A} error.

(** What the loop over the lines acts on: the [events] array it fills
    and the diagnostics written with [console.error], each the rule and
    the error it was rejected with. *)
Record State : Type := mkState {
  events : list Event;
  stderr : list (string * string)
}.

(** Code that acts on the state and may throw; the state keeps what was
    done before a throw. *)
Definition M (A : Type) : Type := State -> Completion A * State.

Definition ret {A : Type} (a : A) : M A := fun st => (Normal a, st).

Definition bind {A B : Type} (m : M A) (k : A -> M B) : M B :=
  fun st =>
    match m st with
    | (Normal a, st') => k a st'
    | (Throw e, st') => (Throw e, st')
    end.

Definition lift {A : Type} (c : Completion A) : M A := fun st => (c, st).

(** [events.push(event)] *)
Definition push (event : Event) : M unit :=
  fun st => (Normal tt, {| events := events st ++ [event]; stderr := stderr st |}).

(** [console.error('Failed to parse recurrence rule:', recurrence, error)] *)
Definition console_error (recurrence error : string) : M unit :=
  fun st =>
    (Normal tt,
     {| events := events st; stderr := stderr st ++ [(recurrence, error)] |}).

Definition try_catch {A : Type} (body : M A) (handler : string -> M A) : M A :=
  fun st =>
    match body st with
    | (Normal a, st') => (Normal a, st')
    | (Throw e, st') => handler e st'
    end.

Fixpoint for_of {A : Type} (items : list A) (body : A -> M unit) : M unit :=
  match items with
  | [] => ret tt
  | x :: rest => bind (body x) (fun _ => for_of rest body)
  end.

Declare Scope js_scope.
Delimit Scope js_scope with js.
Notation "x <- m ;; k" := (bind m (fun x => k))
  (at level 61, m at next level, right associativity) : js_scope.
Notation "m ;;; k" := (bind m (fun _ => k))
  (at level 61, right associativity) : js_scope.

(** One line of the script output after [split('|')] and the two
    [new Date(...)] calls. A field is [None] when the line has too few
    separators for it ([undefined]). *)
Record Row : Type := mkRow {
  row_calendar : option string;
  row_uid : option string;
  row_summary : option string;
  row_startDate : Z;
  row_endDate : Z;
  row_location : option string;
  row_description : option string;
  row_recurrence : option string
}.

(** [recurrence && recurrence.trim()] as a condition. *)
Definition hasRecurrence (recurrence : option string) : bool :=
  match recurrence with
  | Some r => truthy r && trim_truthy r
  | None => false
  end.

Definition newline : string := String (ascii_of_nat 10) EmptyString.

(** The text handed to [rrulestr]. *)
Definition ruleText (startDate_ : Z) (recurrence : string) : string :=
  ("DTSTART:"
     ++ before_first "."
          (remove_chars (fun a => Ascii.eqb a "-" || Ascii.eqb a ":")
             (toISOString startDate_))
     ++ "Z" ++ newline ++ "RRULE:" ++ recurrence)%string.

Definition makeEvent (calendar_ : string) (row : Row) (startDate_ endDate_ : Z)
    : Event :=
  {| uid := or_empty (row_uid row);
     summary := or_empty (row_summary row);
     startDate := startDate_;
     endDate := endDate_;
     location := optional_field (row_location row);
     description := optional_field (row_description row);
     calendar := Some calendar_ |}.

Section WithRRule.
(** The recurrence library: [rrulestr] parses a rule text or throws;
    [between rule after before inc] lists the occurrence starts of a
    rule between two dates, or throws. *)
Variable RRule : Type.
Variable rrulestr : string -> Completion RRule.
Variable between : RRule -> Z -> Z -> bool -> Completion (list Z).

Local Open Scope js_scope.

(** The body of the loop over the lines; [calendar_] is the calendar
    name the events are filed under. *)
Definition processRow (calendar_ : string) (queryStartDate queryEndDate : Z)
    (row : Row) : M unit :=
  let startDate_ := row_startDate row in
  let endDate_ := row_endDate row in
  let duration := endDate_ - startDate_ in
  if hasRecurrence (row_recurrence row) then
    try_catch
      (rule <- lift (rrulestr (ruleText startDate_ (or_empty (row_recurrence row)))) ;;
       occurrences <- lift (between rule queryStartDate queryEndDate true) ;;
       for_of occurrences (fun occurrence =>
         let occurrenceEnd := occurrence + duration in
         push (makeEvent calendar_ row occurrence occurrenceEnd)))
      (fun error =>
         console_error (or_empty (row_recurrence row)) error ;;;
         push (makeEvent calendar_ row startDate_ endDate_))
  else
    if (startDate_ >=? queryStartDate) && (startDate_ <=? queryEndDate)
    then push (makeEvent calendar_ row startDate_ endDate_)
    else ret tt.

(** What the function returns for the loop [body] run from an empty
    [events] array: the array, unless the loop threw. *)
Definition returning (body : M unit) : Completion (list Event) :=
  match body {| events := []; stderr := [] |} with
  | (Normal _, st) => Normal (events st)
  | (Throw e, _) => Throw e
  end.

(** [listEvents], from the parsed lines on. *)
Definition listEvents (calendar_ : string) (queryStartDate queryEndDate : Z)
    (rows : list Row) : Completion (list Event) :=
  returning (for_of rows (processRow calendar_ queryStartDate queryEndDate)).

(** [listAllEvents], from the parsed lines on: the calendar name is the
    first field of each line. *)
Definition listAllEvents (queryStartDate queryEndDate : Z) (rows : list Row)
    : Completion (list Event) :=
  returning (for_of rows (fun row =>
    processRow (or_empty (row_calendar row)) queryStartDate queryEndDate row)).

(** The occurrences one definition contributes. *)
Definition expand (calendar_ : string) (queryStartDate queryEndDate : Z)
    (row : Row) : Completion (list Event) :=
  returning (processRow calendar_ queryStartDate queryEndDate row).

(** Parsing or expanding the rule of [row] fails: [rrulestr] throws on
    its text, or [between] throws on the parsed rule. *)
Definition ruleFails (queryStartDate queryEndDate : Z) (row : Row) : Prop :=
  match rrulestr (ruleText (row_startDate row) (or_empty (row_recurrence row))) with
  | Throw _ => True
  | Normal rule =>
      match between rule queryStartDate queryEndDate true with
      | Throw _ => True
      | Normal _ => False
      end
  end.

End WithRRule.

(** *** Stand-ins for the recurrence library, for the examples *)

(** A library that rejects every rule text. *)
Definition rejecting_rrulestr : string -> Completion (list Z) :=
  fun _ => Throw "Unsupported RFC prop".

(** A library whose rule is an explicit series of occurrence starts. *)
Definition series_rrulestr (series : list Z) : string -> Completion (list Z) :=
  fun _ => Normal series.

Definition series_between (rule : list Z) (after before : Z) (inc : bool)
    : Completion (list Z) :=
  Normal (filter (fun d =>
    if inc then (after <=? d) && (d <=? before)
    else (after <? d) && (d <? before)) rule).

End EventOps.

(** ** Sample data for the examples *)

Module Examples.
Import JSDate Scheduling EventOps.
Local Open Scope string_scope.

(** The time zone of the examples: UTC. *)
Definition utc : Z -> Z := fun _ => 0.

(** 2024-02-29T00:00:00Z *)
Definition midnight : Z := 1709164800000.

(** The instant [h]:[m] UTC on 2024-02-29 (hours past 24 run into the
    following day). *)
Definition at_ (h m : Z) : Z := midnight + h * msPerHour + m * msPerMinute.

Definition slotAt (h m : Z) (duration : Z) : TimeSlot :=
  {| start := at_ h m; end_ := at_ h m + duration |}.

Definition meeting : Event :=
  mkEvent "E1" "Review" (at_ 10 0) (at_ 11 0) None None (Some "Work").

Definition overnight : Event :=
  mkEvent "E2" "Deploy" (at_ 23 30) (at_ 24 30) None None (Some "Work").

Definition breakfast : Event :=
  mkEvent "E3" "Breakfast" (at_ 32 0) (at_ 33 0) (Some "Cafe") None (Some "Home").

Definition lunch : Event :=
  mkEvent "E4" "Lunch" (at_ 12 0) (at_ 13 0) None None (Some "Home").

(** A weekly definition starting a week before the window. *)
Definition weeklyRow : Row :=
  mkRow (Some "Work") (Some "R1") (Some "Sync")
    (at_ (- 168 + 9) 0) (at_ (- 168 + 9) 45)
    (Some "Room 2") (Some "") (Some "FREQ=WEEKLY").

Definition weeklyStarts : list Z :=
  [at_ (- 168 + 9) 0; at_ 9 0; at_ (168 + 9) 0; at_ (336 + 9) 0; at_ (504 + 9) 0].

(** A definition with a rule no library accepts, starting before the
    window. *)
Definition brokenRow : Row :=
  mkRow (Some "Home") (Some "R2") (Some "Gym")
    (at_ (- 48) 0) (at_ (- 47) 0) None None (Some "FREQ=SOMETIMES").

(** A definition without a rule. *)
Definition plainRow : Row :=
  mkRow (Some "Home") (Some "R3") (Some "Dentist")
    (at_ 15 0) (at_ 16 0) None None (Some "").

End Examples.

(** ** Notions used to state further properties of the sweep *)

Module SweepSpec.
Import JSDate TimeValue Scheduling.

(** The hour test of the sweep: passed when business hours are not asked
    for, or the local hour of [t] is in [9, 17). *)
Definition hourAllowed (LocalTZA : Z -> Z) (businessHoursOnly : bool) (t : Z) : bool :=
  negb (businessHoursOnly
        && ((getHours LocalTZA t <? 9) || (getHours LocalTZA t >=? 17))).

(** A candidate the sweep keeps. *)
Definition accepted (LocalTZA : Z -> Z) (events : list Event) (businessHoursOnly : bool)
    (slot : TimeSlot) : bool :=
  hourAllowed LocalTZA businessHoursOnly (start slot) && isFree slot events.

(** The number of candidates the sweep visits. *)
Definition candidateCount (startDate_ endDate_ duration : Z) : nat :=
  Z.to_nat ((endDate_ - startDate_ - duration) / step + 1).

Definition startsBefore (a b : TimeSlot) : Prop := start a < start b.

(** The loop test at the candidate time [t]. *)
Definition fits (endDate_ : Z) (duration : spec_float) (t : Z) : bool :=
  Double.leb (Double.add (getTime t) duration) (getTime endDate_).

(** The slot the loop builds at the candidate time [t]. *)
Definition candidate (duration : spec_float) (t : Z) : TimeSlot :=
  {| start := t; end_ := newDate (Double.add (getTime t) duration) |}.

(** A window between two valid dates and a duration of [d] whole
    milliseconds, with [d] and the first sum below 2^53, where the
    integers are Numbers and their sums exact. *)
Definition wholeMs (startDate_ endDate_ d : Z) : Prop :=
  isTimeValue startDate_ = true /\ isTimeValue endDate_ = true
  /\ 0 <= d < 2 ^ 53 /\ startDate_ + d < 2 ^ 53.

End SweepSpec.

(** ** Date parsing: [parseDateTime] and [parseDateRange] *)

Module DateParser.
Import JSString EventOps.

Definition quote : string := String (ascii_of_nat 34) EmptyString.

Section WithChrono.
(** [chrono.parseDate(input, referenceDate)]: a date, or [null]. *)
Variable parseDate : string -> option Z -> option Z.

Definition parseDateTime (input : string) (referenceDate : option Z) : Completion Z :=
  match parseDate input referenceDate with
  | Some parsed => Normal parsed
  | None => Throw ("Could not parse date: " ++ quote ++ input ++ quote)%string
  end.

(** [endInput] and [defaultDuration] are [None] when the optional argument
    is absent; the default duration is then one hour. *)
Definition parseDateRange (startInput : string) (endInput : option string)
    (defaultDuration : option Z) : Completion (Z * Z) :=
  let defaultDuration_ :=
    match defaultDuration with Some d => d | None => 60 * 60 * 1000 end in
  match parseDateTime startInput None with
  | Throw e => Throw e
  | Normal start_ =>
      let parsedEnd :=
        match endInput with
        | Some text =>
            if truthy text then parseDateTime text (Some start_)
            else Normal (start_ + defaultDuration_)
        | None => Normal (start_ + defaultDuration_)
        end in
      match parsedEnd with
      | Throw e => Throw e
      | Normal end__ =>
          if end__ <=? start_ then Throw "End date must be after start date"
          else Normal (start_, end__)
      end
  end.
End WithChrono.

End DateParser.

(** ** The AppleScript bridge: escaping and date formatting *)

Module Bridge.
Import JSDate.

Definition backslash : ascii := ascii_of_nat 92.
Definition dquote : ascii := ascii_of_nat 34.

(** [s.replace(/c/g, r)] for a one-character pattern [c]. *)
Fixpoint replaceAll (c : ascii) (r : string) (s : string) : string :=
  match s with
  | EmptyString => EmptyString
  | String a s' =>
      if Ascii.eqb a c then (r ++ replaceAll c r s')%string
      else String a (replaceAll c r s')
  end.

Definition escapeAppleScriptString (str : string) : string :=
  replaceAll dquote (String backslash (String dquote EmptyString))
    (replaceAll backslash (String backslash (String backslash EmptyString)) str).

(** The character an escape sequence of an AppleScript literal stands
    for. *)
Definition escaped (a : ascii) : ascii :=
  if Ascii.eqb a "n" then ascii_of_nat 10
  else if Ascii.eqb a "r" then ascii_of_nat 13
  else if Ascii.eqb a "t" then ascii_of_nat 9
  else a.

(** How the inside of a double-quoted AppleScript literal is read: up to
    the first quote that no backslash escapes. The result is the text read
    and what follows the closing quote, or [None] for an unterminated
    literal. *)
Fixpoint readLiteral (s : string) : option (string * string) :=
  match s with
  | EmptyString => None
  | String a s' =>
      if Ascii.eqb a dquote then Some (EmptyString, s')
      else if Ascii.eqb a backslash then
        match s' with
        | EmptyString => None
        | String b s'' =>
            match readLiteral s'' with
            | Some (text, rest) => Some (String (escaped b) text, rest)
            | None => None
            end
        end
      else
        match readLiteral s' with
        | Some (text, rest) => Some (String a text, rest)
        | None => None
        end
  end.

(** ECMAScript [WeekDay]: 0 is Sunday; the epoch was a Thursday. *)
Definition WeekDay (t : Z) : Z := (Day t + 4) mod 7.

Local Open Scope string_scope.

(** [String(n)] for an integer. *)
Definition numberToString (n : Z) : string := NilZero.string_of_int (Z.to_int n).

Fixpoint repeatChar (n : nat) (c : ascii) : string :=
  match n with O => EmptyString | S n' => String c (repeatChar n' c) end.

(** [s.padStart(targetLength, c)] for a one-character filler. *)
Definition padStart (targetLength : nat) (c : ascii) (s : string) : string :=
  repeatChar (targetLength - String.length s) c ++ s.

(** [arr[i]] inside a template literal: an index out of range prints as
    "undefined". *)
Definition element (arr : list string) (i : Z) : string :=
  if (i <? 0)%Z then "undefined"
  else match nth_error arr (Z.to_nat i) with
       | Some x => x
       | None => "undefined"
       end.

Definition months : list string :=
  ["January"; "February"; "March"; "April"; "May"; "June";
   "July"; "August"; "September"; "October"; "November"; "December"].

Definition days : list string :=
  ["Sunday"; "Monday"; "Tuesday"; "Wednesday"; "Thursday"; "Friday"; "Saturday"].

(** [hours % 12 || 12] *)
Definition displayHours (hours : Z) : Z :=
  if (Z.rem hours 12 =? 0)%Z then 12 else Z.rem hours 12.

Definition ampm (hours : Z) : string := if (hours >=? 12)%Z then "PM" else "AM".

Section Local.
Variable LocalTZA : Z -> Z.

(** The getters of [Date] read the local time. *)
Definition LocalTime (t : Z) : Z := (t + LocalTZA t)%Z.
Definition getDay (t : Z) : Z := WeekDay (LocalTime t).
(** [getMonth] counts from 0. *)
Definition getMonth (t : Z) : Z := (MonthFromTime (LocalTime t) - 1)%Z.
Definition getDate (t : Z) : Z := DateFromTime (LocalTime t).
Definition getFullYear (t : Z) : Z := YearFromTime (LocalTime t).
Definition getMinutes (t : Z) : Z := MinFromTime (LocalTime t).
Definition getSeconds (t : Z) : Z := SecFromTime (LocalTime t).

Definition formatDateForAppleScript (date : Z) : string :=
  let dayName := element days (getDay date) in
  let monthName := element months (getMonth date) in
  let day := getDate date in
  let year := getFullYear date in
  let hours := getHours LocalTZA date in
  let minutes := padStart 2 "0" (numberToString (getMinutes date)) in
  let seconds := padStart 2 "0" (numberToString (getSeconds date)) in
  dayName ++ ", " ++ monthName ++ " " ++ numberToString day ++ ", "
    ++ numberToString year ++ " at " ++ numberToString (displayHours hours)
    ++ ":" ++ minutes ++ ":" ++ seconds ++ " " ++ ampm hours.
End Local.

End Bridge.

(** ** Formatting helpers *)

Module Formatters.
Import Bridge.
Local Open Scope string_scope.

(** [n !== 1 ? 's' : ''] *)
Definition plural (n : Z) : string := if (n =? 1)%Z then "" else "s".

(** [Math.floor(milliseconds / (60 * 60 * 1000))] *)
Definition durationHours (milliseconds : Z) : Z :=
  (milliseconds / (60 * 60 * 1000))%Z.

(** [Math.floor((milliseconds % (60 * 60 * 1000)) / (60 * 1000))]; [%] takes
    the sign of the dividend. *)
Definition durationMinutes (milliseconds : Z) : Z :=
  (Z.rem milliseconds (60 * 60 * 1000) / (60 * 1000))%Z.

Definition formatDuration (milliseconds : Z) : string :=
  let hours := durationHours milliseconds in
  let minutes := durationMinutes milliseconds in
  if (hours =? 0)%Z then
    numberToString minutes ++ " minute" ++ plural minutes
  else if (minutes =? 0)%Z then
    numberToString hours ++ " hour" ++ plural hours
  else
    numberToString hours ++ " hour" ++ plural hours ++ " "
      ++ numberToString minutes ++ " minute" ++ plural minutes.

End Formatters.

(** ** Keyword search over the events *)

Module EventSearch.
Import Scheduling EventOps.

(** [toLowerCase] on one code unit below 256: the letters A-Z and the
    accented capitals 192-222 other than the multiplication sign. *)
Definition toLowerCaseChar (a : ascii) : ascii :=
  let n := nat_of_ascii a in
  if ((65 <=? n) && (n <=? 90)
      || (192 <=? n) && (n <=? 222) && negb (n =? 215))%nat
  then ascii_of_nat (n + 32) else a.

Fixpoint toLowerCase (s : string) : string :=
  match s with
  | EmptyString => EmptyString
  | String a s' => String (toLowerCaseChar a) (toLowerCase s')
  end.

(** [s.includes(searchString)] *)
Fixpoint includes (s searchString : string) : bool :=
  String.prefix searchString s
  || match s with
     | EmptyString => false
     | String _ s' => includes s' searchString
     end.

(** The filter of [searchEvents], for the lowered search term. *)
Definition matchesTerm (searchTerm : string) (event : Event) : bool :=
  let summary_ := toLowerCase (summary event) in
  let location_ :=
    match location event with Some l => toLowerCase l | None => EmptyString end in
  let description_ :=
    match description event with Some d => toLowerCase d | None => EmptyString end in
  includes summary_ searchTerm
  || includes location_ searchTerm
  || includes description_ searchTerm.

Section WithRRule.
Variable RRule : Type.
Variable rrulestr : string -> Completion RRule.
Variable between : RRule -> Z -> Z -> bool -> Completion (list Z).

(** [searchEvents], from the parsed lines of [listAllEvents] on. *)
Definition searchEvents (startDate_ endDate_ : Z) (keyword : string) (rows : list Row)
    : Completion (list Event) :=
  match listAllEvents RRule rrulestr between startDate_ endDate_ rows with
  | Throw e => Throw e
  | Normal allEvents =>
      let searchTerm := toLowerCase keyword in
      Normal (filter (matchesTerm searchTerm) allEvents)
  end.
End WithRRule.

End EventSearch.

(** ** Script output, as [listEvents] and [listCalendars] read it *)

Module ScriptOutput.
Import JSString EventOps.
Local Open Scope string_scope.

(** Put [a] in front of the first piece. *)
Definition consHead (a : ascii) (pieces : list string) : list string :=
  match pieces with
  | piece :: rest => String a piece :: rest
  | [] => [String a EmptyString]
  end.

(** [s.split(c)] for a one-character separator. *)
Fixpoint splitOn (c : ascii) (s : string) : list string :=
  match s with
  | EmptyString => [EmptyString]
  | String a s' =>
      if Ascii.eqb a c then EmptyString :: splitOn c s'
      else consHead a (splitOn c s')
  end.

(** [s.split(sep)] for the two-character separator [c1 c2]. *)
Fixpoint splitOn2 (c1 c2 : ascii) (s : string) : list string :=
  match s with
  | EmptyString => [EmptyString]
  | String a s' =>
      match s' with
      | EmptyString => [String a EmptyString]
      | String b s'' =>
          if Ascii.eqb a c1 && Ascii.eqb b c2 then EmptyString :: splitOn2 c1 c2 s''
          else consHead a (splitOn2 c1 c2 s')
      end
  end.

(** Whether [c1 c2] occurs in [s]. *)
Fixpoint occurs2 (c1 c2 : ascii) (s : string) : bool :=
  match s with
  | EmptyString => false
  | String a s' =>
      match s' with
      | EmptyString => false
      | String b _ => (Ascii.eqb a c1 && Ascii.eqb b c2) || occurs2 c1 c2 s'
      end
  end.

(** [pieces.join(sep)] *)
Fixpoint join (sep : string) (pieces : list string) : string :=
  match pieces with
  | [] => EmptyString
  | [piece] => piece
  | piece :: rest => piece ++ sep ++ join sep rest
  end.

Fixpoint trimEnd (s : string) : string :=
  match s with
  | EmptyString => EmptyString
  | String a s' =>
      match trimEnd s' with
      | EmptyString => if isWhiteSpace a then EmptyString else String a EmptyString
      | r => String a r
      end
  end.

(** [s.trim()] *)
Definition trim (s : string) : string := trimEnd (trimStart s).

(** The line the script of [listEvents] appends for one event, without
    the final line feed: the fields joined by "|", an absent location or
    description and an empty recurrence leaving their field empty. *)
Definition scriptLine (uid_ summary_ startISO endISO : string)
    (location_ description_ : option string) (recurrence : string) : string :=
  uid_ ++ "|" ++ summary_ ++ "|" ++ startISO ++ "|" ++ endISO
    ++ "|" ++ or_empty location_ ++ "|" ++ or_empty description_
    ++ "|" ++ recurrence.

(** The line the script of [listAllEvents] appends: the calendar name
    comes first. *)
Definition scriptLineAll (calName uid_ summary_ startISO endISO : string)
    (location_ description_ : option string) (recurrence : string) : string :=
  calName ++ "|"
    ++ scriptLine uid_ summary_ startISO endISO location_ description_ recurrence.

(** [result.split('\n').filter(Boolean)] *)
Definition outputLines (result : string) : list string :=
  filter truthy (splitOn (ascii_of_nat 10) result).

(** [const [uid, summary, ...] = line.split('|')]: the field at position
    [i], [None] for [undefined]. *)
Definition field (line : string) (i : nat) : option string :=
  nth_error (splitOn "|" line) i.

Record Calendar : Type := mkCalendar { name : string; cal_uid : string }.

(** [listCalendars], from the output of the script on. *)
Definition listCalendars (result : string) : list Calendar :=
  if negb (truthy result) then []
  else
    let names := map trim (splitOn2 "," " " result) in
    map (fun n => {| name := n; cal_uid := n |}) names.

(** [calendarExists], from the output of the script on. *)
Definition calendarExists (result : string) (name_ : string) : bool :=
  existsb (fun cal => String.eqb (name cal) name_) (listCalendars result).
End ScriptOutput.

(** ** The tool handlers: the duration handed to the sweep *)

Module Server.

(** [duration_minutes * 60 * 1000], in [find_free_time] and
    [suggest_optimal_time]: the minutes are any Number the schema lets
    through. *)
Definition durationMs (durationMinutes : spec_float) : spec_float :=
  Double.mul (Double.mul durationMinutes (Double.ofZ 60)) (Double.ofZ 1000).

End Server.

(** ** More sample data *)

Module MoreExamples.
Import JSDate Scheduling EventOps Examples.
Local Open Scope string_scope.

Definition minutes_1_0000000001 : spec_float :=
  S754_finite false 4503599627820856 (-52).
Definition minutes_30_00000000001 : spec_float :=
  S754_finite false 8444249301322495 (-48).

(** A date parser that knows two phrases. *)
Definition sampleParseDate (input : string) (referenceDate : option Z) : option Z :=
  if String.eqb input "today 9am" then Some (at_ 9 0)
  else if String.eqb input "today 5pm" then Some (at_ 17 0)
  else None.

Definition plainRowEarly : Row :=
  mkRow (Some "Home") (Some "R4") (Some "Run")
    (at_ (- 3) 0) (at_ (- 2) 0) None None None.

Definition teamMeeting : Event :=
  mkEvent "E5" "Team MEETING" (at_ 14 0) (at_ 15 0) (Some "Room 2") None (Some "Work").

Definition teamRow : Row :=
  mkRow (Some "Work") (Some "E5") (Some "Team MEETING")
    (at_ 14 0) (at_ 15 0) (Some "Room 2") None None.

End MoreExamples.

(** * Properties *)

(** ** The date model on known instants *)

Module JSDateFacts.
Import JSDate JSString Examples.
Local Open Scope string_scope.

Example toISOString_epoch : toISOString 0 = "1970-01-01T00:00:00.000Z".
Proof. reflexivity. Qed.

Example toISOString_leap_day :
  toISOString 1709210096789 = "2024-02-29T12:34:56.789Z".
Proof. vm_compute. reflexivity. Qed.

Example toISOString_before_epoch :
  toISOString (-1) = "1969-12-31T23:59:59.999Z".
Proof. vm_compute. reflexivity. Qed.

Example toISOString_expanded_year :
  toISOString 253402300800000 = "+010000-01-01T00:00:00.000Z".
Proof. vm_compute. reflexivity. Qed.

Example toISOString_year_zero :
  toISOString (-62167219200000) = "0000-01-01T00:00:00.000Z".
Proof. vm_compute. reflexivity. Qed.

Example toISOString_negative_year :
  toISOString (-62167219200001) = "-000001-12-31T23:59:59.999Z".
Proof. vm_compute. reflexivity. Qed.

Example getHours_utc : getHours utc 1709210096789 = 12.
Proof. reflexivity. Qed.

Example getHours_offset :
  getHours (fun _ => -5 * msPerHour) 1709210096789 = 7.
Proof. reflexivity. Qed.

End JSDateFacts.

(** ** Binary64 sums of integers, and dates built from Numbers *)

Module DoubleFacts.
Import Double TimeValue.

Lemma digits2_bounds (m : positive) :
  2 ^ (Zpos (digits2_pos m) - 1) <= Zpos m < 2 ^ Zpos (digits2_pos m).
Proof.
  induction m as [m IH|m IH|]; simpl digits2_pos.
  - rewrite Pos2Z.inj_succ.
    replace (Z.succ (Zpos (digits2_pos m)) - 1) with (Z.succ (Zpos (digits2_pos m) - 1)) by lia.
    rewrite !Z.pow_succ_r by lia. lia.
  - rewrite Pos2Z.inj_succ.
    replace (Z.succ (Zpos (digits2_pos m)) - 1) with (Z.succ (Zpos (digits2_pos m) - 1)) by lia.
    rewrite !Z.pow_succ_r by lia. lia.
  - simpl. lia.
Qed.

Lemma digits2_unique (m : positive) (k : Z) :
  2 ^ (k - 1) <= Zpos m < 2 ^ k -> Zpos (digits2_pos m) = k.
Proof.
  intros [Hlo Hhi].
  destruct (digits2_bounds m) as [Dlo Dhi].
  assert (Hk : 0 < k).
  { destruct (Z.ltb_spec 0 k) as [|Hk]; [assumption|].
    destruct (Z.eqb_spec k 0) as [->|Hk0]; [simpl in Hhi; lia|].
    rewrite Z.pow_neg_r in Hhi by lia. lia. }
  assert (H1 : Zpos (digits2_pos m) - 1 < k).
  { apply (Z.pow_lt_mono_r_iff 2); lia. }
  assert (H2 : k - 1 < Zpos (digits2_pos m)).
  { apply (Z.pow_lt_mono_r_iff 2); lia. }
  lia.
Qed.

Lemma digits2_shift (m : positive) (j : Z) :
  0 <= j ->
  Zpos (digits2_pos (Z.to_pos (Zpos m * 2 ^ j))) = Zpos (digits2_pos m) + j.
Proof.
  intros Hj. apply digits2_unique.
  assert (Hp : 0 < 2 ^ j) by (apply Z.pow_pos_nonneg; lia).
  rewrite Z2Pos.id by lia.
  destruct (digits2_bounds m) as [Dlo Dhi].
  replace (Zpos (digits2_pos m) + j - 1) with (Zpos (digits2_pos m) - 1 + j) by lia.
  rewrite !Z.pow_add_r by lia. nia.
Qed.

Lemma iter_xO (m d : positive) :
  Pos.iter xO m d = Z.to_pos (Zpos m * 2 ^ Zpos d).
Proof.
  induction d as [|d IH] using Pos.peano_ind.
  - change (2 ^ 1) with 2. change (Pos.iter xO m 1) with (xO m).
    apply Pos2Z.inj. rewrite Z2Pos.id by lia. lia.
  - rewrite Pos.iter_succ, IH, Pos2Z.inj_succ, Z.pow_succ_r by lia.
    assert (Hp : 0 < 2 ^ Zpos d) by (apply Z.pow_pos_nonneg; lia).
    apply Pos2Z.inj. rewrite Pos2Z.inj_xO, !Z2Pos.id by nia. lia.
Qed.

Lemma iter_pos_nat {A : Type} (f : A -> A) (n : positive) (x : A) :
  iter_pos f n x = Nat.iter (Pos.to_nat n) f x.
Proof.
  revert x. induction n as [n IH|n IH|]; intros x; simpl iter_pos.
  - rewrite !IH, Pos2Nat.inj_xI.
    replace (S (2 * Pos.to_nat n)) with (Pos.to_nat n + (Pos.to_nat n + 1))%nat by lia.
    rewrite !Nat.iter_add. simpl. reflexivity.
  - rewrite !IH, Pos2Nat.inj_xO.
    replace (2 * Pos.to_nat n)%nat with (Pos.to_nat n + Pos.to_nat n)%nat by lia.
    rewrite Nat.iter_add. reflexivity.
  - reflexivity.
Qed.

Lemma shr_1_spec (m : Z) (r s : bool) :
  0 <= m ->
  shr_1 {| shr_m := m; shr_r := r; shr_s := s |}
  = {| shr_m := m / 2; shr_r := Z.odd m; shr_s := r || s |}.
Proof.
  intros Hm. destruct m as [|p|p]; [reflexivity| |lia].
  destruct p as [p|p|]; simpl shr_1.
  - f_equal. rewrite Pos2Z.inj_xI. symmetry.
    rewrite Z.add_comm, Z.mul_comm, Z.div_add by lia. reflexivity.
  - f_equal. rewrite Pos2Z.inj_xO. symmetry.
    rewrite Z.mul_comm, Z.div_mul by lia. reflexivity.
  - reflexivity.
Qed.

(** Shifting out [k] bits that are all zero is exact. *)
Lemma shr_exact (k : nat) (m : Z) :
  0 <= m ->
  Nat.iter k shr_1 {| shr_m := m * 2 ^ Z.of_nat k; shr_r := false; shr_s := false |}
  = {| shr_m := m; shr_r := false; shr_s := false |}.
Proof.
  revert m. induction k as [|k IH]; intros m Hm.
  - simpl. rewrite Z.mul_1_r. reflexivity.
  - rewrite Nat.iter_succ_r.
    assert (Hp : 0 < 2 ^ Z.of_nat k) by (apply Z.pow_pos_nonneg; lia).
    rewrite shr_1_spec by (rewrite Nat2Z.inj_succ, Z.pow_succ_r by lia; nia).
    rewrite Nat2Z.inj_succ, Z.pow_succ_r by lia.
    replace (m * (2 * 2 ^ Z.of_nat k)) with (m * 2 ^ Z.of_nat k * 2) by lia.
    rewrite Z.div_mul by lia.
    rewrite Z.odd_mul. simpl Z.odd. rewrite andb_false_r. simpl orb.
    apply IH. exact Hm.
Qed.

Lemma fexp_small (d : Z) : 1 <= d <= 53 -> fexp prec emax d = d - 53.
Proof. intros Hd. unfold fexp, emin, prec, emax. lia. Qed.

(** No rounding when the mantissa already sits at its exponent. *)
Lemma binary_round_aux_fits (s : bool) (m : positive) (e : Z) :
  fexp prec emax (Zpos (digits2_pos m) + e) = e ->
  e <= emax - prec ->
  binary_round_aux prec emax s (Zpos m) e loc_Exact = S754_finite s m e.
Proof.
  intros Hf He. unfold binary_round_aux, shr_fexp.
  cbn [Zdigits2]. rewrite Hf, Z.sub_diag.
  cbn [shr shr_record_of_loc]. cbv beta iota zeta.
  cbn [shr_m shr_r shr_s loc_of_shr_record round_nearest_even Zdigits2].
  rewrite Hf, Z.sub_diag. cbn [shr]. cbv beta iota zeta. cbn [shr_m].
  apply Z.leb_le in He. rewrite He. reflexivity.
Qed.

(** Shifting out bits that are all zero leaves nothing to round. *)
Lemma binary_round_aux_shift (s : bool) (m : positive) (e : Z) (n : positive) :
  fexp prec emax (Zpos (digits2_pos m) + (e + Zpos n)) = e + Zpos n ->
  e + Zpos n <= emax - prec ->
  binary_round_aux prec emax s (Zpos (Z.to_pos (Zpos m * 2 ^ Zpos n))) e loc_Exact
  = S754_finite s m (e + Zpos n).
Proof.
  intros Hf He.
  assert (Hp : 0 < 2 ^ Zpos n) by (apply Z.pow_pos_nonneg; lia).
  unfold binary_round_aux, shr_fexp at 1.
  cbn [Zdigits2]. rewrite digits2_shift by lia.
  replace (Zpos (digits2_pos m) + Zpos n + e) with (Zpos (digits2_pos m) + (e + Zpos n)) by lia.
  rewrite Hf. replace (e + Zpos n - e) with (Zpos n) by lia.
  cbn [shr shr_record_of_loc].
  rewrite iter_pos_nat, Z2Pos.id by nia.
  assert (Hit : Nat.iter (Pos.to_nat n) shr_1
                  {| shr_m := Zpos m * 2 ^ Zpos n; shr_r := false; shr_s := false |}
                = {| shr_m := Zpos m; shr_r := false; shr_s := false |}).
  { rewrite <- (positive_nat_Z n). apply shr_exact. lia. }
  rewrite Hit. cbv beta iota zeta.
  cbn [shr_m shr_r shr_s loc_of_shr_record round_nearest_even].
  unfold shr_fexp. cbn [Zdigits2]. rewrite Hf, Z.sub_diag.
  cbn [shr shr_record_of_loc]. cbv beta iota zeta. cbn [shr_m].
  apply Z.leb_le in He. rewrite He. reflexivity.
Qed.

(** Rounding an integer below 2^53, given with [k] trailing zero bits. *)
Lemma binary_round_int (s : bool) (p : positive) (k : Z) :
  0 <= k -> Zpos p < 2 ^ 53 ->
  binary_round prec emax s (Z.to_pos (Zpos p * 2 ^ k)) (- k) = normal s p.
Proof.
  intros Hk Hp.
  assert (Hk2 : 0 < 2 ^ k) by (apply Z.pow_pos_nonneg; lia).
  destruct (digits2_bounds p) as [Dlo Dhi].
  set (d := Zpos (digits2_pos p)) in *.
  assert (Hd : 1 <= d <= 53).
  { split; [unfold d; lia|].
    destruct (Z.leb_spec d 53) as [|Hgt]; [assumption|].
    assert (2 ^ 53 <= 2 ^ (d - 1)) by (apply Z.pow_le_mono_r; lia). lia. }
  unfold binary_round, normal. fold d.
  rewrite digits2_shift by lia. fold d.
  replace (d + k + - k) with d by lia. rewrite fexp_small by exact Hd.
  unfold shl_align.
  destruct (d - 53 - - k) as [|n|n] eqn:Hn.
  - (* the exponent is the right one already *)
    replace (53 - d) with k by lia. replace (- k) with (d - 53) by lia.
    apply binary_round_aux_fits.
    + rewrite digits2_shift by lia. fold d.
      rewrite <- (fexp_small d Hd) at 2. f_equal. lia.
    + unfold emax, prec. lia.
  - (* bits to shift out *)
    replace (Zpos p * 2 ^ k) with (Zpos (Z.to_pos (Zpos p * 2 ^ (53 - d))) * 2 ^ Zpos n).
    2:{ assert (0 < 2 ^ (53 - d)) by (apply Z.pow_pos_nonneg; lia).
        rewrite Z2Pos.id by nia. rewrite <- Z.mul_assoc, <- Z.pow_add_r by lia.
        f_equal. f_equal. lia. }
    replace (d - 53) with (- k + Zpos n) by lia.
    apply binary_round_aux_shift.
    + rewrite digits2_shift by lia. fold d.
      replace (d + (53 - d) + (- k + Zpos n)) with d by lia.
      rewrite fexp_small by exact Hd. lia.
    + unfold emax, prec. lia.
  - (* bits to make room for *)
    rewrite iter_xO.
    assert (0 < 2 ^ Zpos n) by (apply Z.pow_pos_nonneg; lia).
    rewrite (Z2Pos.id (Zpos p * 2 ^ k)) by nia.
    replace (Zpos p * 2 ^ k * 2 ^ Zpos n) with (Zpos p * 2 ^ (53 - d)).
    2:{ rewrite <- Z.mul_assoc, <- Z.pow_add_r by lia. f_equal. f_equal. lia. }
    apply binary_round_aux_fits.
    + rewrite digits2_shift by lia. fold d.
      rewrite <- (fexp_small d Hd) at 2. f_equal. lia.
    + unfold emax, prec. lia.
Qed.

Lemma ofZ_pos (p : positive) : Zpos p < 2 ^ 53 -> ofZ (Zpos p) = normal false p.
Proof.
  intros Hp. pose proof (binary_round_int false p 0 (Z.le_refl 0) Hp) as H.
  rewrite Z.pow_0_r, Z.mul_1_r in H. exact H.
Qed.

Lemma ofZ_neg (p : positive) : Zpos p < 2 ^ 53 -> ofZ (Zneg p) = normal true p.
Proof.
  intros Hp. pose proof (binary_round_int true p 0 (Z.le_refl 0) Hp) as H.
  rewrite Z.pow_0_r, Z.mul_1_r in H. exact H.
Qed.

Lemma toQ_normal (s : bool) (p : positive) :
  Zpos p < 2 ^ 53 ->
  exists q, toQ (normal s p) = Some q /\ (q == inject_Z (cond_Zopp s (Zpos p)))%Q.
Proof.
  intros Hp. destruct (digits2_bounds p) as [Dlo Dhi].
  set (d := Zpos (digits2_pos p)) in *.
  assert (Hd : 1 <= d <= 53).
  { split; [unfold d; lia|].
    destruct (Z.leb_spec d 53) as [|Hgt]; [assumption|].
    assert (2 ^ 53 <= 2 ^ (d - 1)) by (apply Z.pow_le_mono_r; lia). lia. }
  assert (Hpow : 0 < 2 ^ (53 - d)) by (apply Z.pow_pos_nonneg; lia).
  unfold normal. fold d. unfold toQ.
  destruct (d - 53) as [|e|e] eqn:He; [| lia |].
  - eexists. split; [reflexivity|].
    replace (53 - d) with 0 by lia. rewrite Z.pow_0_r, !Z.mul_1_r. reflexivity.
  - eexists. split; [reflexivity|].
    unfold Qeq. cbn [Qnum Qden inject_Z].
    rewrite Pos2Z.inj_pow. replace (53 - d) with (Zpos e) in * by lia.
    destruct s; unfold cond_Zopp; rewrite Z2Pos.id by nia; lia.
Qed.

Lemma toQ_ofZ (z : Z) :
  Z.abs z < 2 ^ 53 -> exists q, toQ (ofZ z) = Some q /\ (q == inject_Z z)%Q.
Proof.
  intros Hz. destruct z as [|p|p].
  - exists 0%Q. split; reflexivity.
  - rewrite ofZ_pos by exact Hz. exact (toQ_normal false p Hz).
  - rewrite ofZ_neg by exact Hz. exact (toQ_normal true p Hz).
Qed.

Lemma shl_align_fst (mx : positive) (ex ez : Z) :
  ez <= ex -> Zpos (fst (shl_align mx ex ez)) = Zpos mx * 2 ^ (ex - ez).
Proof.
  intros Hle. unfold shl_align.
  destruct (ez - ex) as [|d|d] eqn:Hd; [| lia |]; cbn [fst].
  - replace (ex - ez) with 0 by lia. lia.
  - rewrite iter_xO. replace (ex - ez) with (Zpos d) by lia.
    assert (0 < 2 ^ Zpos d) by (apply Z.pow_pos_nonneg; lia).
    rewrite Z2Pos.id by nia. reflexivity.
Qed.

(** The aligned mantissa of a normal integer is the integer itself,
    scaled. *)
Lemma normal_aligned (s : bool) (p : positive) (k : Z) :
  Zpos p < 2 ^ 53 -> 53 - Zpos (digits2_pos p) <= k ->
  cond_Zopp s
    (Zpos (fst (shl_align (Z.to_pos (Zpos p * 2 ^ (53 - Zpos (digits2_pos p))))
                  (Zpos (digits2_pos p) - 53) (- k))))
  = cond_Zopp s (Zpos p) * 2 ^ k.
Proof.
  intros Hp Hk. destruct (digits2_bounds p) as [Dlo Dhi].
  set (d := Zpos (digits2_pos p)) in *.
  assert (Hd : 1 <= d <= 53).
  { split; [unfold d; lia|].
    destruct (Z.leb_spec d 53) as [|Hgt]; [assumption|].
    assert (2 ^ 53 <= 2 ^ (d - 1)) by (apply Z.pow_le_mono_r; lia). lia. }
  assert (Hpow : 0 < 2 ^ (53 - d)) by (apply Z.pow_pos_nonneg; lia).
  rewrite shl_align_fst by lia. rewrite Z2Pos.id by nia.
  rewrite <- Z.mul_assoc, <- Z.pow_add_r by lia.
  replace (53 - d + (d - 53 - - k)) with k by lia.
  destruct s; cbn [cond_Zopp]; lia.
Qed.

Lemma binary_normalize_int (z k : Z) :
  0 <= k -> Z.abs z < 2 ^ 53 ->
  binary_normalize prec emax (z * 2 ^ k) (- k) false = ofZ z.
Proof.
  intros Hk Hz.
  assert (Hp : 0 < 2 ^ k) by (apply Z.pow_pos_nonneg; lia).
  destruct z as [|p|p].
  - reflexivity.
  - rewrite ofZ_pos by exact Hz.
    rewrite <- (Z2Pos.id (Zpos p * 2 ^ k)) by nia.
    apply binary_round_int; assumption.
  - rewrite ofZ_neg by exact Hz.
    replace (Zneg p * 2 ^ k) with (Zneg (Z.to_pos (Zpos p * 2 ^ k)))
      by (rewrite <- Pos2Z.opp_pos, Z2Pos.id by nia; lia).
    apply binary_round_int; assumption.
Qed.

(** The sum of two integers is exact as long as it stays below 2^53. *)
Lemma add_ofZ (a b : Z) :
  Z.abs a < 2 ^ 53 -> Z.abs b < 2 ^ 53 -> Z.abs (a + b) < 2 ^ 53 ->
  add (ofZ a) (ofZ b) = ofZ (a + b).
Proof.
  intros Ha Hb Hab.
  assert (Hnormal : forall s p q,
            Zpos p < 2 ^ 53 -> Zpos q < 2 ^ 53 ->
            forall t u,
            Z.abs (cond_Zopp s (Zpos p) + cond_Zopp t (Zpos q)) < 2 ^ 53 ->
            u = cond_Zopp s (Zpos p) + cond_Zopp t (Zpos q) ->
            add (normal s p) (normal t q) = ofZ u).
  { intros s p q Hp Hq t u Hsum ->.
    unfold add, normal, SFadd.
    destruct (digits2_bounds p) as [Plo Phi], (digits2_bounds q) as [Qlo Qhi].
    set (dp := Zpos (digits2_pos p)) in *. set (dq := Zpos (digits2_pos q)) in *.
    assert (Hdp : 1 <= dp <= 53).
    { split; [unfold dp; lia|].
      destruct (Z.leb_spec dp 53) as [|Hgt]; [assumption|].
      assert (2 ^ 53 <= 2 ^ (dp - 1)) by (apply Z.pow_le_mono_r; lia). lia. }
    assert (Hdq : 1 <= dq <= 53).
    { split; [unfold dq; lia|].
      destruct (Z.leb_spec dq 53) as [|Hgt]; [assumption|].
      assert (2 ^ 53 <= 2 ^ (dq - 1)) by (apply Z.pow_le_mono_r; lia). lia. }
    set (k := - Z.min (dp - 53) (dq - 53)).
    replace (Z.min (dp - 53) (dq - 53)) with (- k) by (unfold k; lia).
    unfold dp, dq. rewrite !normal_aligned by (fold dp dq; unfold k; lia).
    rewrite <- Z.mul_add_distr_r.
    apply binary_normalize_int; [unfold k; lia | exact Hsum]. }
  destruct (Z.eq_dec a 0) as [->|Ha0].
  { rewrite Z.add_0_l. destruct b as [|q|q];
      rewrite ?ofZ_pos, ?ofZ_neg by assumption; reflexivity. }
  destruct (Z.eq_dec b 0) as [->|Hb0].
  { rewrite Z.add_0_r. destruct a as [|p|p];
      rewrite ?ofZ_pos, ?ofZ_neg by assumption; reflexivity. }
  destruct a as [|p|p], b as [|q|q]; try contradiction.
  - rewrite (ofZ_pos p), (ofZ_pos q) by assumption.
    apply Hnormal; [assumption | assumption | exact Hab | reflexivity].
  - rewrite (ofZ_pos p), (ofZ_neg q) by assumption.
    apply Hnormal; [assumption | assumption | exact Hab | reflexivity].
  - rewrite (ofZ_neg p), (ofZ_pos q) by assumption.
    apply Hnormal; [assumption | assumption | exact Hab | reflexivity].
  - rewrite (ofZ_neg p), (ofZ_neg q) by assumption.
    apply Hnormal; [assumption | assumption | exact Hab | reflexivity].
Qed.

Lemma leb_values (x y : spec_float) (a b : Q) :
  toQ x = Some a -> toQ y = Some b -> leb x y = Qle_bool a b.
Proof.
  intros Hx Hy. unfold leb.
  destruct x; try discriminate; destruct y; try discriminate;
    rewrite Hx, Hy; reflexivity.
Qed.

Lemma leb_ofZ (a b : Z) :
  Z.abs a < 2 ^ 53 -> Z.abs b < 2 ^ 53 -> leb (ofZ a) (ofZ b) = (a <=? b).
Proof.
  intros Ha Hb.
  destruct (toQ_ofZ a Ha) as [qa [Hqa Ea]], (toQ_ofZ b Hb) as [qb [Hqb Eb]].
  rewrite (leb_values _ _ _ _ Hqa Hqb).
  apply eq_true_iff_eq. rewrite Qle_bool_iff, Ea, Eb, Z.leb_le, <- Zle_Qle.
  reflexivity.
Qed.

Lemma truncate_Z (q : Q) (z : Z) : (q == inject_Z z)%Q -> truncate q = z.
Proof.
  unfold Qeq, truncate. cbn [Qnum Qden inject_Z]. intros H.
  rewrite Z.mul_1_r in H. rewrite H. apply Z.quot_mul. lia.
Qed.

(** Dropping the fraction of a value that is at most an integer does not
    take it above that integer. *)
Lemma truncate_le (q : Q) (z : Z) : (q <= inject_Z z)%Q -> truncate q <= z.
Proof.
  unfold Qle, truncate. cbn [Qnum Qden inject_Z]. intros H.
  rewrite Z.mul_1_r in H.
  pose proof (Pos2Z.is_pos (Qden q)) as Hd.
  Z.to_euclidean_division_equations. nia.
Qed.

Lemma truncate_ge (q : Q) (z : Z) : (inject_Z z <= q)%Q -> z <= truncate q.
Proof.
  unfold Qle, truncate. cbn [Qnum Qden inject_Z]. intros H.
  rewrite Z.mul_1_r in H.
  pose proof (Pos2Z.is_pos (Qden q)) as Hd.
  Z.to_euclidean_division_equations. nia.
Qed.

Lemma isTimeValue_bound (t : Z) : isTimeValue t = true -> Z.abs t < 2 ^ 53.
Proof.
  unfold isTimeValue, maxTime. intros H.
  apply andb_true_iff in H. destruct H as [H1 H2].
  apply Z.leb_le in H1, H2.
  assert (8640000000000000 < 2 ^ 53) by reflexivity. lia.
Qed.

Lemma newDate_ofZ (t : Z) : isTimeValue t = true -> newDate (ofZ t) = t.
Proof.
  intros Ht. destruct (toQ_ofZ t (isTimeValue_bound t Ht)) as [q [Hq Eq]].
  unfold newDate. rewrite Hq.
  unfold isTimeValue in Ht. apply andb_true_iff in Ht. destruct Ht as [H1 H2].
  apply Z.leb_le in H1, H2.
  assert (Hin : Qle_bool (inject_Z (- maxTime)) q && Qle_bool q (inject_Z maxTime) = true).
  { apply andb_true_iff. split; apply Qle_bool_iff; rewrite Eq, <- Zle_Qle; assumption. }
  rewrite Hin. apply truncate_Z. exact Eq.
Qed.

(** A date built by [newDate] that is valid is the value, cut down. *)
Lemma newDate_valid (x : spec_float) :
  isTimeValue (newDate x) = true ->
  exists q, toQ x = Some q /\ newDate x = truncate q.
Proof.
  unfold newDate. destruct (toQ x) as [q|]; [|discriminate].
  destruct (_ && _); [|discriminate]. intros _. exists q. split; reflexivity.
Qed.

(** What the loop test gives for the date that is then built. *)
Lemma newDate_le (x : spec_float) (endDate_ : Z) :
  leb x (getTime endDate_) = true ->
  isTimeValue (newDate x) = true ->
  newDate x <= endDate_.
Proof.
  intros Hle Hv. destruct (newDate_valid x Hv) as [q [Hq ->]].
  unfold getTime in Hle. destruct (isTimeValue endDate_) eqn:He.
  - destruct (toQ_ofZ endDate_ (isTimeValue_bound _ He)) as [qe [Hqe Ee]].
    rewrite (leb_values _ _ _ _ Hq Hqe) in Hle.
    apply Qle_bool_iff in Hle. rewrite Ee in Hle. apply truncate_le. exact Hle.
  - unfold leb in Hle. destruct x as [| [|] | |]; discriminate.
Qed.

Lemma leb_getTime_valid (x : spec_float) (d endDate_ : Z) :
  leb (add (getTime d) x) (getTime endDate_) = true ->
  isTimeValue d = true /\ isTimeValue endDate_ = true.
Proof.
  unfold getTime. intros H. split.
  - destruct (isTimeValue d); [reflexivity|].
    unfold add, SFadd, leb in H. discriminate.
  - destruct (isTimeValue endDate_); [reflexivity|].
    unfold leb in H. destruct (add _ x) as [| [|] | |]; discriminate.
Qed.

(** The next candidate time of the sweep: the sum of a time value and
    the step is exact, and the Date built from it is that sum, or an
    Invalid Date past the last time value. *)
Lemma next_candidate_time (t : Z) :
  isTimeValue t = true ->
  add (getTime t) (ofZ Scheduling.step) = ofZ (t + Scheduling.step)
  /\ (isTimeValue (t + Scheduling.step) = true ->
      newDate (add (getTime t) (ofZ Scheduling.step)) = t + Scheduling.step)
  /\ (isTimeValue (t + Scheduling.step) = false ->
      isTimeValue (newDate (add (getTime t) (ofZ Scheduling.step))) = false).
Proof.
  intros Ht. pose proof (isTimeValue_bound t Ht) as Hb.
  assert (Hs : Scheduling.step = 1800000) by reflexivity.
  assert (Hsum : Z.abs (t + Scheduling.step) < 2 ^ 53).
  { unfold isTimeValue, maxTime in Ht. apply andb_true_iff in Ht.
    destruct Ht as [H1 H2]. apply Z.leb_le in H1, H2.
    assert (8640000000000000 + 1800000 < 2 ^ 53) by reflexivity. lia. }
  assert (Hadd : add (getTime t) (ofZ Scheduling.step) = ofZ (t + Scheduling.step)).
  { unfold getTime. rewrite Ht.
    apply add_ofZ; [exact Hb | rewrite Hs; reflexivity | exact Hsum]. }
  split; [exact Hadd|]. rewrite Hadd. split.
  - apply newDate_ofZ.
  - intros Hinv. destruct (toQ_ofZ _ Hsum) as [q [Hq Eq]].
    unfold newDate. rewrite Hq.
    destruct (Qle_bool (inject_Z (- maxTime)) q && Qle_bool q (inject_Z maxTime)) eqn:Hin;
      [|reflexivity].
    apply andb_true_iff in Hin. destruct Hin as [H1 H2].
    apply Qle_bool_iff in H1, H2. rewrite Eq, <- Zle_Qle in H1, H2.
    unfold isTimeValue in Hinv. apply andb_false_iff in Hinv.
    destruct Hinv as [Hinv|Hinv]; apply Z.leb_gt in Hinv; lia.
Qed.

(** Some sums and products, as the language computes them: 0.1 + 0.2,
    2^53 + 1, and 8.2 * 60 * 1000, which is 491999.99999999994. *)
Example add_samples :
  add (S754_finite false 7205759403792794 (-56)) (S754_finite false 7205759403792794 (-55))
  = S754_finite false 5404319552844596 (-54)
  /\ add (ofZ (2 ^ 53)) (ofZ 1) = ofZ (2 ^ 53)
  /\ mul (mul (S754_finite false 4616189618054758 (-49)) (ofZ 60)) (ofZ 1000)
     = S754_finite false 8452495638527999 (-34)
  /\ toQ (S754_finite false 8452495638527999 (-34))
     = Some (8452495638527999 # 17179869184).
Proof. repeat split; vm_compute; reflexivity. Qed.

(** On these values the comparison is that of the Standard Library. *)
Example leb_samples :
  let values := [ofZ 0; S754_zero true; ofZ 1; ofZ (-1); ofZ 1709197200000;
                 S754_finite false 8246337209144634 (-37);
                 S754_finite true 8246337209144634 (-37);
                 S754_infinity false; S754_infinity true; S754_nan] in
  forallb (fun x => forallb (fun y => Bool.eqb (leb x y) (SFleb x y)) values) values
  = true.
Proof. vm_compute. reflexivity. Qed.

End DoubleFacts.

(** ** The interval model *)

Module SchedulingFacts.
Import JSDate TimeValue Scheduling SweepSpec DoubleFacts.

Lemma hasOverlap_spec (a b : TimeSlot) :
  hasOverlap a b = (start a <? end_ b) && (start b <? end_ a).
Proof.
  unfold hasOverlap.
  rewrite !Z.gtb_ltb.
  rewrite (andb_comm (start b <? end_ a) (start a <? end_ b)).
  apply orb_diag.
Qed.

Lemma hasOverlap_true_iff (a b : TimeSlot) :
  hasOverlap a b = true <-> start a < end_ b /\ start b < end_ a.
Proof.
  rewrite hasOverlap_spec, andb_true_iff, !Z.ltb_lt. reflexivity.
Qed.

(** C5 as stated fails: a zero-length slot strictly inside another slot
    overlaps it. *)
Lemma C5_zero_length_overlaps :
  start (mkSlot 5 5) = end_ (mkSlot 5 5)
  /\ hasOverlap (mkSlot 5 5) (mkSlot 0 10) = true.
Proof. split; reflexivity. Qed.

(** C5, amended: [hasOverlap a b] holds iff [a.start < b.end] and
    [b.start < a.end]; it is symmetric; touching slots do not overlap; a
    zero-length slot at [t] does not overlap itself, and overlaps [b]
    exactly when [t] lies strictly inside [b]. *)
Theorem C5_hasOverlap_characterisation :
  (forall a b, hasOverlap a b = true <-> start a < end_ b /\ start b < end_ a)
  /\ (forall a b, hasOverlap a b = hasOverlap b a)
  /\ (forall s e1 e2, hasOverlap (mkSlot s e1) (mkSlot e1 e2) = false)
  /\ (forall t, hasOverlap (mkSlot t t) (mkSlot t t) = false)
  /\ (forall t b, hasOverlap (mkSlot t t) b = true <-> start b < t < end_ b).
Proof.
  split; [exact hasOverlap_true_iff|].
  split; [intros a b; rewrite !hasOverlap_spec; apply andb_comm|].
  split; [intros s e1 e2; rewrite hasOverlap_spec; simpl;
          rewrite Z.ltb_irrefl; apply andb_false_r|].
  split; [intros t; rewrite hasOverlap_spec; simpl;
          rewrite Z.ltb_irrefl; reflexivity|].
  intros t b. rewrite hasOverlap_true_iff. simpl. lia.
Qed.

(** *** Conflict detection *)

Lemma isFree_true_iff (slot : TimeSlot) (events : list Event) :
  isFree slot events = true
  <-> forall event, In event events -> hasOverlap slot (eventSlot event) = false.
Proof.
  unfold isFree, findConflicts. rewrite Nat.eqb_eq, length_zero_iff_nil.
  induction events as [|e events IH]; simpl.
  - split; [intros _ ? []|reflexivity].
  - destruct (hasOverlap slot (eventSlot e)) eqn:He.
    + split; [discriminate|].
      intros H. specialize (H e (or_introl eq_refl)). congruence.
    + rewrite IH. split.
      * intros H ev [<-|Hin]; auto.
      * intros H ev Hin. apply H. now right.
Qed.

Lemma isFree_nil (slot : TimeSlot) : isFree slot [] = true.
Proof. reflexivity. Qed.

(** *** The free-slot sweep *)

Section Sweep.
Variable LocalTZA : Z -> Z.
Variables (endDate_ : Z) (duration : spec_float).
Variables (events : list Event) (businessHoursOnly : bool).

Let loop := findFreeSlots_loop LocalTZA endDate_ duration events businessHoursOnly.

(** One turn of the loop, as an equation. *)
Lemma loop_unfold (currentTime : Z) (freeSlots : list TimeSlot) :
  loop currentTime freeSlots =
  if fits endDate_ duration currentTime then
    if businessHoursOnly
       && ((getHours LocalTZA currentTime <? 9)
           || (getHours LocalTZA currentTime >=? 17))
    then loop (currentTime + step) freeSlots
    else
      loop (currentTime + step)
        (if isFree (candidate duration currentTime) events
         then freeSlots ++ [candidate duration currentTime]
         else freeSlots)
  else freeSlots.
Proof.
  unfold loop, fits, candidate. rewrite findFreeSlots_loop_equation_1.
  destruct (bool_dec _ true) as [Hfit|Hfit]; cbn.
  - rewrite Hfit. reflexivity.
  - apply not_true_is_false in Hfit. rewrite Hfit. reflexivity.
Qed.

(** Loop invariant: [Inv] holds of every candidate time the loop visits
    and [P] of every slot it pushes. *)
Lemma loop_invariant (Inv : Z -> Prop) (P : TimeSlot -> Prop) :
  (forall t, Inv t -> fits endDate_ duration t = true -> Inv (t + step)) ->
  (forall t, Inv t -> fits endDate_ duration t = true ->
     (businessHoursOnly = true -> 9 <= getHours LocalTZA t < 17) ->
     isFree (candidate duration t) events = true ->
     P (candidate duration t)) ->
  forall currentTime freeSlots,
    Inv currentTime -> Forall P freeSlots ->
    Forall P (loop currentTime freeSlots).
Proof.
  intros Hstep Hpush currentTime freeSlots.
  unfold loop.
  funelim (findFreeSlots_loop LocalTZA endDate_ duration events
             businessHoursOnly currentTime freeSlots);
    intros Hinv Hacc.
  - destruct (businessHoursOnly
       && ((getHours LocalTZA currentTime <? 9)
           || (getHours LocalTZA currentTime >=? 17))) eqn:Hskip.
    + apply (H Inv P); auto.
    + apply (H0 Inv P); auto.
      destruct (isFree _ events) eqn:Hfree; auto.
      apply Forall_app. split; auto.
      constructor; [|constructor].
      apply (Hpush currentTime); auto.
      intros ->. simpl in Hskip.
      apply orb_false_iff in Hskip. destruct Hskip as [H9 H17]. lia.
  - assumption.
Qed.

(** The loop pushes, of the next [n] candidates, those that pass the
    hour test and are free, when the loop test holds of these [n] and
    fails on the one after. *)
Lemma loop_closed_form (n : nat) :
  forall currentTime freeSlots,
    (forall k, (k < n)%nat ->
       fits endDate_ duration (currentTime + Z.of_nat k * step) = true) ->
    fits endDate_ duration (currentTime + Z.of_nat n * step) = false ->
    loop currentTime freeSlots
    = freeSlots
      ++ filter (accepted LocalTZA events businessHoursOnly)
           (map (fun k => candidate duration (currentTime + Z.of_nat k * step))
              (seq 0 n)).
Proof.
  induction n as [|n IH]; intros currentTime freeSlots Hfit Hend;
    rewrite loop_unfold.
  - simpl in Hend. rewrite Z.add_0_r in Hend. rewrite Hend.
    simpl. now rewrite app_nil_r.
  - pose proof (Hfit O (Nat.lt_0_succ n)) as H0.
    simpl in H0. rewrite Z.add_0_r in H0. rewrite H0.
    assert (Hfit' : forall k, (k < n)%nat ->
              fits endDate_ duration (currentTime + step + Z.of_nat k * step) = true).
    { intros k Hk. specialize (Hfit (S k) (proj1 (Nat.succ_lt_mono k n) Hk)).
      rewrite Nat2Z.inj_succ in Hfit.
      replace (currentTime + step + Z.of_nat k * step)
        with (currentTime + Z.succ (Z.of_nat k) * step) by lia.
      exact Hfit. }
    assert (Hend' : fits endDate_ duration (currentTime + step + Z.of_nat n * step) = false).
    { rewrite Nat2Z.inj_succ in Hend.
      replace (currentTime + step + Z.of_nat n * step)
        with (currentTime + Z.succ (Z.of_nat n) * step) by lia.
      exact Hend. }
    assert (Hmap : map (fun k => candidate duration (currentTime + Z.of_nat k * step))
                     (seq 0 (S n))
                   = candidate duration currentTime
                     :: map (fun k => candidate duration
                                        (currentTime + step + Z.of_nat k * step))
                          (seq 0 n)).
    { simpl. rewrite Z.add_0_r. f_equal.
      rewrite <- seq_shift, map_map. apply map_ext. intros k.
      f_equal. lia. }
    rewrite Hmap. simpl filter.
    unfold accepted at 1, hourAllowed. simpl start.
    destruct (businessHoursOnly && _) eqn:Hskip; cbn [negb andb].
    + apply IH; assumption.
    + rewrite (IH _ _ Hfit' Hend').
      destruct (isFree _ events); [|reflexivity].
      now rewrite <- app_assoc.
Qed.

End Sweep.

Lemma gridSlots_succ (t0 duration : Z) (n : nat) :
  gridSlots t0 duration (S n)
  = gridSlot t0 duration 0 :: gridSlots (t0 + step) duration n.
Proof.
  unfold gridSlots. simpl. f_equal.
  rewrite <- seq_shift, map_map.
  apply map_ext. intros k. unfold gridSlot. f_equal; lia.
Qed.

Lemma filter_all {A : Type} (p : A -> bool) (l : list A) :
  (forall x, In x l -> p x = true) -> filter p l = l.
Proof.
  induction l as [|x l IH]; intros H; simpl; [reflexivity|].
  rewrite (H x (or_introl eq_refl)), IH; [reflexivity|].
  intros y Hy. apply H. now right.
Qed.

(** **** Durations of whole milliseconds: the sums are exact *)

Lemma maxTime_bound : maxTime + step < 2 ^ 53.
Proof. reflexivity. Qed.

Lemma isTimeValue_iff (t : Z) : isTimeValue t = true <-> - maxTime <= t <= maxTime.
Proof.
  unfold isTimeValue. rewrite andb_true_iff, !Z.leb_le. reflexivity.
Qed.

(** For a duration of [d] whole milliseconds the loop test is the test
    on the integers. *)
Lemma fits_whole_ms (endDate_ d t : Z) :
  isTimeValue endDate_ = true -> 0 <= d < 2 ^ 53 ->
  - maxTime <= t -> t + d < 2 ^ 53 ->
  fits endDate_ (Double.ofZ d) t = (t + d <=? endDate_).
Proof.
  intros He Hd Hlo Hhi. unfold fits, getTime. rewrite He.
  pose proof maxTime_bound as Hmax. assert (Hs : 0 < step) by reflexivity.
  apply isTimeValue_iff in He.
  destruct (isTimeValue t) eqn:Ht.
  - apply isTimeValue_iff in Ht.
    rewrite add_ofZ, leb_ofZ by lia. reflexivity.
  - assert (maxTime < t).
    { unfold isTimeValue in Ht. apply andb_false_iff in Ht.
      destruct Ht as [Ht|Ht]; apply Z.leb_gt in Ht; lia. }
    symmetry. apply Z.leb_gt. lia.
Qed.

(** And the slot built lasts [d]. *)
Lemma candidate_whole_ms (d t : Z) :
  isTimeValue t = true -> 0 <= d < 2 ^ 53 -> isTimeValue (t + d) = true ->
  candidate (Double.ofZ d) t = {| start := t; end_ := t + d |}.
Proof.
  intros Ht Hd Htd. unfold candidate, getTime. rewrite Ht.
  pose proof (isTimeValue_bound _ Ht). pose proof (isTimeValue_bound _ Htd).
  rewrite add_ofZ by lia. now rewrite newDate_ofZ.
Qed.

Lemma candidateCount_bounds (startDate_ endDate_ duration : Z) :
  let n := candidateCount startDate_ endDate_ duration in
  endDate_ - duration - startDate_ < Z.of_nat n * step
  /\ (n <> O -> (Z.of_nat n - 1) * step <= endDate_ - duration - startDate_).
Proof.
  intros n. unfold n, candidateCount.
  assert (Hs : 0 < step) by (unfold step; lia).
  pose proof (Z.mul_div_le (endDate_ - startDate_ - duration) step Hs) as Hlo.
  pose proof (Z.mul_succ_div_gt (endDate_ - startDate_ - duration) step Hs) as Hhi.
  destruct (Z_lt_le_dec ((endDate_ - startDate_ - duration) / step + 1) 1) as [Hneg|Hpos].
  - assert (Hd : (endDate_ - startDate_ - duration) / step < 0) by lia.
    assert (endDate_ - startDate_ - duration < 0).
    { destruct (Z_lt_le_dec (endDate_ - startDate_ - duration) 0); [assumption|].
      assert (0 <= (endDate_ - startDate_ - duration) / step) by (apply Z.div_pos; lia).
      lia. }
    replace (Z.to_nat ((endDate_ - startDate_ - duration) / step + 1)) with O by lia.
    split; [simpl; lia | congruence].
  - rewrite Z2Nat.id by lia. split; [nia | intros _; nia].
Qed.

(** For a duration of whole milliseconds the sweep is the grid of the
    candidates that fit, filtered by the hour test and the events. *)
Lemma findFreeSlots_filter_grid (LocalTZA : Z -> Z) (startDate_ endDate_ d : Z)
    (events : list Event) (businessHoursOnly : bool) :
  wholeMs startDate_ endDate_ d ->
  findFreeSlots LocalTZA startDate_ endDate_ (Double.ofZ d) events businessHoursOnly
  = filter (accepted LocalTZA events businessHoursOnly)
      (gridSlots startDate_ d (candidateCount startDate_ endDate_ d)).
Proof.
  intros (Hs & He & Hd & Hsum).
  pose proof maxTime_bound as Hmax. assert (Hstep : 0 < step) by reflexivity.
  pose proof (proj1 (isTimeValue_iff _) Hs) as Hs'.
  pose proof (proj1 (isTimeValue_iff _) He) as He'.
  destruct (candidateCount_bounds startDate_ endDate_ d) as [H1 H2].
  set (n := candidateCount startDate_ endDate_ d) in *.
  assert (Hin : forall k, (k < n)%nat ->
            startDate_ + Z.of_nat k * step + d <= endDate_).
  { intros k Hk. assert (Hn : n <> O) by lia. specialize (H2 Hn). nia. }
  unfold findFreeSlots.
  rewrite (loop_closed_form LocalTZA endDate_ (Double.ofZ d) events businessHoursOnly n).
  - simpl app. f_equal. unfold gridSlots. apply map_ext_in.
    intros k Hk. apply in_seq in Hk. specialize (Hin k (proj2 Hk)).
    unfold gridSlot.
    apply candidate_whole_ms; [apply isTimeValue_iff; nia | exact Hd
                              | apply isTimeValue_iff; nia].
  - intros k Hk. specialize (Hin k Hk).
    rewrite fits_whole_ms by (assumption || nia).
    apply Z.leb_le. exact Hin.
  - rewrite fits_whole_ms; [apply Z.leb_gt; nia | assumption | exact Hd | nia |].
    destruct n as [|n']; [simpl; lia|].
    specialize (Hin n' (Nat.lt_succ_diag_r n')).
    rewrite Nat2Z.inj_succ. nia.
Qed.

(** **** Every slot of the result *)

(** What holds of every slot returned, whatever the duration. *)
Lemma findFreeSlots_sound (LocalTZA : Z -> Z) (startDate_ endDate_ : Z)
    (duration : spec_float) (events : list Event) (businessHoursOnly : bool)
    (slot : TimeSlot) :
  In slot (findFreeSlots LocalTZA startDate_ endDate_ duration events businessHoursOnly) ->
  isFree slot events = true
  /\ startDate_ <= start slot
  /\ fits endDate_ duration (start slot) = true
  /\ slot = candidate duration (start slot)
  /\ (businessHoursOnly = true -> 9 <= getHours LocalTZA (start slot) < 17).
Proof.
  revert slot. apply Forall_forall. unfold findFreeSlots.
  apply (loop_invariant LocalTZA endDate_ duration events businessHoursOnly
           (fun t => startDate_ <= t)).
  - intros t Ht _. assert (0 < step) by reflexivity. lia.
  - intros t Ht Hfit Hbh Hfree. simpl. repeat split; auto; apply Hbh; assumption.
  - lia.
  - constructor.
Qed.

(** A slot built for a duration of whole milliseconds, not negative,
    lasts that duration and ends within the window. *)
Lemma candidate_fits_whole_ms (endDate_ d t : Z) :
  0 <= d -> maxTime + d < 2 ^ 53 ->
  fits endDate_ (Double.ofZ d) t = true ->
  t + d <= endDate_ /\ candidate (Double.ofZ d) t = {| start := t; end_ := t + d |}.
Proof.
  intros Hd Hsafe Hfit.
  destruct (leb_getTime_valid _ _ _ Hfit) as [Ht He].
  pose proof (proj1 (isTimeValue_iff _) Ht) as Ht'.
  pose proof (proj1 (isTimeValue_iff _) He) as He'.
  assert (0 < maxTime) by reflexivity.
  rewrite fits_whole_ms in Hfit by (assumption || lia). apply Z.leb_le in Hfit.
  split; [exact Hfit|].
  apply candidate_whole_ms; [exact Ht | lia | apply isTimeValue_iff; lia].
Qed.



(** C10: every slot returned by [findFreeSlots] starts a whole number
    [k >= 0] of 30-minute steps after the start of the window, with or
    without the business-hours filter. *)
Theorem C10_findFreeSlots_grid_aligned (LocalTZA : Z -> Z)
    (startDate_ endDate_ : Z) (duration : spec_float) (events : list Event)
    (businessHoursOnly : bool) (slot : TimeSlot) :
  In slot (findFreeSlots LocalTZA startDate_ endDate_ duration events businessHoursOnly) ->
  exists k : Z, 0 <= k /\ start slot = startDate_ + k * (30 * msPerMinute).
Proof.
  revert slot. apply Forall_forall. unfold findFreeSlots.
  apply (loop_invariant LocalTZA endDate_ duration events businessHoursOnly
           (fun t => exists k : Z, 0 <= k /\ t = startDate_ + k * (30 * msPerMinute))).
  - intros t [k [Hk ->]] _. exists (k + 1). split; [lia|].
    unfold step, msPerMinute. lia.
  - intros t Hinv _ _ _. exact Hinv.
  - exists 0. split; lia.
  - constructor.
Qed.

(** The duration 1.0000000001 * 60 * 1000 is the Number 60000.000006
    (and a little); over a window of 31 minutes the formula of the
    count gives 1, but the candidate 30 minutes in passes the loop test,
    its sum being rounded to the end of the window: two slots are
    returned. *)
Lemma C7_rounded_test_admits_a_slot :
  let duration := Server.durationMs MoreExamples.minutes_1_0000000001 in
  let q := (8246337209144634 # 137438953472)%Q in
  let startDate_ := Examples.at_ 9 0 in
  let endDate_ := Examples.at_ 9 31 in
  Double.toQ duration = Some q
  /\ (0 < q)%Q /\ (q <= inject_Z (endDate_ - startDate_))%Q
  /\ Qfloor ((inject_Z (endDate_ - startDate_) - q) / inject_Z (30 * msPerMinute)) + 1 = 1
  /\ List.length (findFreeSlots Examples.utc startDate_ endDate_ duration [] false)
     = 2%nat.
Proof.
  repeat split; vm_compute; try reflexivity; discriminate.
Qed.

(** C7: with no events and no business-hours filter, a window between
    two valid dates that can hold a duration of [d] whole milliseconds
    yields floor((end - start - d) / 30min) + 1 slots, in chronological
    order, the [k]-th starting [k] steps after the start of the window and
    lasting [d]; adjacent slots are not merged. *)
Theorem C7_findFreeSlots_complete (LocalTZA : Z -> Z) (startDate_ endDate_ d : Z) :
  isTimeValue startDate_ = true -> isTimeValue endDate_ = true ->
  0 < d <= endDate_ - startDate_ -> d < 2 ^ 53 ->
  let n := Z.to_nat ((endDate_ - startDate_ - d) / (30 * msPerMinute) + 1) in
  let slots := findFreeSlots LocalTZA startDate_ endDate_ (Double.ofZ d) [] false in
  List.length slots = n
  /\ slots = gridSlots startDate_ d n
  /\ (forall k, (k < n)%nat ->
        nth_error slots k
        = Some {| start := startDate_ + Z.of_nat k * (30 * msPerMinute);
                  end_ := startDate_ + Z.of_nat k * (30 * msPerMinute) + d |}).
Proof.
  intros Hs He Hfit Hd n slots.
  assert (Hstep : 30 * msPerMinute = step) by reflexivity.
  assert (Hmax : maxTime < 2 ^ 53) by reflexivity.
  pose proof (proj1 (isTimeValue_iff _) He) as He'.
  assert (Heq : slots = gridSlots startDate_ d n).
  { unfold slots. rewrite findFreeSlots_filter_grid
      by (repeat split; try assumption; lia).
    apply filter_all. intros slot _. reflexivity. }
  split; [|split]; [|exact Heq|].
  - rewrite Heq. unfold gridSlots. now rewrite length_map, length_seq.
  - intros k Hk. rewrite Heq. unfold gridSlots.
    rewrite nth_error_map, nth_error_seq.
    destruct (Nat.ltb_spec k n) as [_|Hge]; [|lia].
    rewrite Hstep. reflexivity.
Qed.

(** *** The built-in sort, as used by the selector *)

Section SortByScore.
Context {A : Type}.

Lemma sort_permutation (l : list (A * Z)) :
  Permutation (JSArray.sort byScoreDesc l) l.
Proof.
  induction l as [|x l IH]; simpl; [constructor|].
  transitivity (x :: JSArray.sort byScoreDesc l); [|now constructor].
  clear IH. induction (JSArray.sort byScoreDesc l) as [|y m IHm]; simpl.
  - reflexivity.
  - destruct (byScoreDesc x y <=? 0); [reflexivity|].
    rewrite IHm. apply perm_swap.
Qed.

Lemma sort_head (l : list (A * Z)) :
  hd_error (JSArray.sort byScoreDesc l) = best l.
Proof.
  induction l as [|x l IH]; simpl; [reflexivity|].
  rewrite <- IH.
  destruct (JSArray.sort byScoreDesc l) as [|h m]; simpl; [reflexivity|].
  unfold byScoreDesc.
  destruct (snd h - snd x <=? 0) eqn:E1, (snd h <=? snd x) eqn:E2;
    try reflexivity; lia.
Qed.

Lemma best_none (l : list (A * Z)) : best l = None -> l = [].
Proof.
  destruct l as [|x l]; simpl; [reflexivity|].
  destruct (best l) as [h|]; [destruct (snd h <=? snd x)|]; discriminate.
Qed.

Lemma best_spec (l : list (A * Z)) (s : A * Z) :
  best l = Some s ->
  exists i,
    nth_error l i = Some s
    /\ (forall t, In t l -> snd t <= snd s)
    /\ (forall j t, (j < i)%nat -> nth_error l j = Some t -> snd t < snd s).
Proof.
  revert s. induction l as [|x l IH]; simpl; intros s Hs; [discriminate|].
  destruct (best l) as [h|] eqn:Hb.
  - destruct (IH h eq_refl) as [i [Hi [Hmax Hbefore]]].
    destruct (snd h <=? snd x) eqn:Hcmp; injection Hs as <-.
    + exists O. split; [reflexivity|]. split.
      * intros t [<-|Hin]; [lia|]. specialize (Hmax t Hin). lia.
      * intros j t Hj. lia.
    + exists (S i). split; [exact Hi|]. split.
      * intros t [<-|Hin]; [lia|]. now apply Hmax.
      * intros [|j] t Hj Ht; simpl in Ht.
        -- injection Ht as <-. lia.
        -- apply (Hbefore j); [lia|assumption].
  - apply best_none in Hb. subst l. injection Hs as <-.
    exists O. split; [reflexivity|]. split.
    + intros t [<-|[]]. lia.
    + intros j t Hj. lia.
Qed.

(** On scores 0 and 1 the sort is the stable partition: the entries of
    score 1 in their order, then those of score 0 in theirs. *)
Lemma insert_scored_zero (x : A * Z) (ones zeros : list (A * Z)) :
  snd x = 0 ->
  (forall y, In y ones -> snd y = 1) ->
  (forall y, In y zeros -> snd y = 0) ->
  JSArray.insert byScoreDesc x (ones ++ zeros) = ones ++ x :: zeros.
Proof.
  intros Hx Hones Hzeros. induction ones as [|y ones IH]; simpl.
  - destruct zeros as [|z zeros]; simpl; [reflexivity|].
    unfold byScoreDesc. rewrite Hx, (Hzeros z (or_introl eq_refl)). reflexivity.
  - unfold byScoreDesc at 1. rewrite Hx, (Hones y (or_introl eq_refl)). simpl.
    rewrite IH; [reflexivity|]. intros y' Hin. apply Hones. now right.
Qed.

Lemma sort_two_valued (l : list (A * Z)) :
  (forall x, In x l -> snd x = 0 \/ snd x = 1) ->
  JSArray.sort byScoreDesc l
  = filter (fun x => snd x =? 1) l ++ filter (fun x => snd x =? 0) l.
Proof.
  induction l as [|x l IH]; intros Hl; simpl; [reflexivity|].
  rewrite IH by (intros y Hin; apply Hl; now right).
  destruct (Hl x (or_introl eq_refl)) as [Hx|Hx]; rewrite Hx; simpl.
  - apply insert_scored_zero; [assumption| |];
      intros y Hin; apply filter_In in Hin; destruct Hin as [_ Hy];
      now apply Z.eqb_eq in Hy.
  - destruct (filter (fun x => snd x =? 1) l ++ filter (fun x => snd x =? 0) l)
      as [|y m] eqn:Hm; [reflexivity|].
    simpl. unfold byScoreDesc. rewrite Hx.
    assert (Hy : snd y = 0 \/ snd y = 1).
    { assert (Hin : In y (filter (fun x => snd x =? 1) l ++ filter (fun x => snd x =? 0) l))
        by (rewrite Hm; now left).
      apply in_app_or in Hin.
      destruct Hin as [Hin|Hin]; apply filter_In in Hin; destruct Hin as [_ Hin];
        apply Z.eqb_eq in Hin; auto. }
    destruct Hy as [-> | ->]; reflexivity.
Qed.

End SortByScore.

(** *** The optimal-slot selector *)

Section Selector.
Variable LocalTZA : Z -> Z.
Variable events : list Event.

Let freeOf (candidates : list TimeSlot) : list TimeSlot :=
  filter (fun slot => isFree slot events) candidates.

Lemma nth_error_0 {A : Type} (l : list A) : nth_error l 0 = hd_error l.
Proof. destruct l; reflexivity. Qed.

(** The selector in closed form. *)
Lemma findOptimalSlot_eq (candidates : list TimeSlot) (preferences : option (list Z)) :
  findOptimalSlot LocalTZA candidates events preferences =
  match preferences with
  | Some (h :: p) =>
      option_map fst
        (best (map (fun slot => (slot, score LocalTZA (h :: p) slot))
                 (freeOf candidates)))
  | _ => hd_error (freeOf candidates)
  end.
Proof.
  unfold findOptimalSlot, freeOf.
  set (free := filter (fun slot => isFree slot events) candidates).
  destruct free as [|s [|s' free']].
  - destruct preferences as [[|h p]|]; reflexivity.
  - destruct preferences as [[|h p]|]; reflexivity.
  - destruct preferences as [[|h p]|]; try reflexivity.
    cbv zeta. cbn [List.length Nat.eqb Nat.ltb Nat.leb].
    rewrite nth_error_0.
    change (fun a b : TimeSlot * Z => snd b - snd a) with (@byScoreDesc TimeSlot).
    now rewrite sort_head.
Qed.

Lemma score_values (preferences : list Z) (slot : TimeSlot) :
  (score LocalTZA preferences slot = 1
     <-> In (getHours LocalTZA (start slot)) preferences)
  /\ (score LocalTZA preferences slot = 0
     <-> ~ In (getHours LocalTZA (start slot)) preferences).
Proof.
  unfold score, JSArray.includes.
  destruct (existsb _ preferences) eqn:E.
  - apply existsb_exists in E. destruct E as [x [Hin Hx]].
    apply Z.eqb_eq in Hx. subst x.
    split; split; auto; try discriminate. intros H. now elim H.
  - assert (Hn : ~ In (getHours LocalTZA (start slot)) preferences).
    { intros Hin.
      assert (Hex : existsb (Z.eqb (getHours LocalTZA (start slot))) preferences = true)
        by (apply existsb_exists; eexists; split; [exact Hin|apply Z.eqb_refl]).
      congruence. }
    split; split; auto; try discriminate. intros H. now elim Hn.
Qed.

Lemma freeOf_nil_iff (candidates : list TimeSlot) :
  freeOf candidates = []
  <-> forall slot, In slot candidates -> isFree slot events = false.
Proof.
  unfold freeOf. induction candidates as [|c cs IH]; simpl.
  - split; [intros _ ? []|reflexivity].
  - destruct (isFree c events) eqn:Hc.
    + split; [discriminate|]. intros H.
      specialize (H c (or_introl eq_refl)). congruence.
    + rewrite IH. split.
      * intros H slot [<-|Hin]; auto.
      * intros H slot Hin. apply H. now right.
Qed.

End Selector.

(** C2: [findOptimalSlot] returns none exactly when no candidate is free.
    Without preferences (absent or empty) it returns the first free
    candidate in the original order. With preferences a free candidate
    scores 1 when the local hour of its start is a preferred hour and 0
    otherwise, and the result is the earliest free candidate among those
    of the top score; so for candidates [a; b], both free, starting at
    local hours 9 and 14, and preferred hours [9; 14], it returns [a]. *)
Theorem C2_findOptimalSlot_spec (LocalTZA : Z -> Z) (candidates : list TimeSlot)
    (events : list Event) (preferences : option (list Z)) :
  let free := filter (fun slot => isFree slot events) candidates in
  let result := findOptimalSlot LocalTZA candidates events preferences in
  (result = None <-> forall slot, In slot candidates -> isFree slot events = false)
  /\ (preferences = None \/ preferences = Some [] -> result = hd_error free)
  /\ (forall p, preferences = Some p -> p <> [] -> free <> [] ->
        exists i s,
          result = Some s
          /\ nth_error free i = Some s
          /\ (forall t, In t free -> score LocalTZA p t <= score LocalTZA p s)
          /\ (forall j t, (j < i)%nat -> nth_error free j = Some t ->
                 score LocalTZA p t < score LocalTZA p s))
  /\ (forall p slot,
        (score LocalTZA p slot = 1 <-> In (getHours LocalTZA (start slot)) p)
        /\ (score LocalTZA p slot = 0 <-> ~ In (getHours LocalTZA (start slot)) p))
  /\ (forall a b,
        candidates = [a; b] -> preferences = Some [9; 14] ->
        isFree a events = true -> isFree b events = true ->
        getHours LocalTZA (start a) = 9 -> getHours LocalTZA (start b) = 14 ->
        result = Some a).
Proof.
  intros free result.
  assert (Hres : result =
    match preferences with
    | Some (h :: p) =>
        option_map fst
          (best (map (fun slot => (slot, score LocalTZA (h :: p) slot)) free))
    | _ => hd_error free
    end) by apply findOptimalSlot_eq.
  split; [|split; [|split; [|split]]].
  - rewrite <- (freeOf_nil_iff events). fold free. rewrite Hres.
    destruct preferences as [[|h p]|];
      try (destruct free; simpl; split; congruence).
    destruct (best _) as [sc|] eqn:Hb; simpl.
    + split; [discriminate|]. intros ->. discriminate.
    + apply best_none in Hb. apply map_eq_nil in Hb.
      split; auto.
  - rewrite Hres. intros [->| ->]; reflexivity.
  - intros p -> Hp Hfree. rewrite Hres.
    destruct p as [|h p]; [congruence|].
    set (f := fun slot => (slot, score LocalTZA (h :: p) slot)).
    destruct (best (map f free)) as [sc|] eqn:Hb.
    + destruct (best_spec _ _ Hb) as [i [Hi [Hmax Hbefore]]].
      rewrite nth_error_map in Hi.
      destruct (nth_error free i) as [s|] eqn:Hs; [|discriminate].
      injection Hi as <-. exists i, s. simpl.
      split; [reflexivity|]. split; [exact Hs|]. split.
      * intros t Hin. apply (Hmax (f t)). now apply in_map.
      * intros j t Hj Ht. apply (Hbefore j (f t)); [assumption|].
        now rewrite nth_error_map, Ht.
    + apply best_none in Hb. apply map_eq_nil in Hb. congruence.
  - intros p slot. apply score_values.
  - intros a b Hc Hp Ha Hb H9 H14.
    rewrite Hres. unfold free. rewrite Hc, Hp. simpl. rewrite Ha, Hb. simpl.
    unfold score. rewrite H9, H14. reflexivity.
Qed.

(** *** Analytics: meeting density *)

Lemma isZero_ofZ (z : Z) : JSNumber.isZero (JSNumber.ofZ z) = (z =? 0).
Proof.
  unfold JSNumber.isZero, JSNumber.ofZ, Qeq_bool, inject_Z. simpl.
  rewrite Z.mul_1_r. destruct z; reflexivity.
Qed.

Lemma isNegative_ofZ (z : Z) : JSNumber.isNegative (JSNumber.ofZ z) = (z <? 0).
Proof.
  unfold JSNumber.isNegative, JSNumber.ofZ, Qle_bool, inject_Z. simpl.
  rewrite Z.mul_1_r. destruct z; reflexivity.
Qed.

Lemma Qceiling_per_day (x : Z) :
  Qceiling (inject_Z x / inject_Z msPerDay) = - ((- x) / msPerDay).
Proof.
  unfold Qceiling, Qfloor, Qdiv, Qmult, Qinv, Qopp, inject_Z. simpl.
  now rewrite Z.mul_1_r.
Qed.

(** The number of days as computed: the ceiling of the quotient, which is
    -0 for a period that runs backwards by less than a day. *)
Lemma days_between_cases (s e : Z) :
  days_between s e =
  if (e - s <? 0) && (- msPerDay <? e - s) then JSNumber.NegZero
  else JSNumber.ofZ (- ((s - e) / msPerDay)).
Proof.
  unfold days_between, JSNumber.div.
  replace (s - e) with (- (e - s)) by lia.
  generalize (e - s). intros x.
  unfold JSNumber.ofZ at 1 2.
  fold (JSNumber.ofZ x). fold (JSNumber.ofZ msPerDay).
  rewrite !isZero_ofZ.
  change (msPerDay =? 0) with false. cbv iota.
  destruct (Z.eqb_spec x 0) as [Hx|Hx].
  - subst x. reflexivity.
  - unfold JSNumber.ceil. rewrite Qceiling_per_day.
    assert (H0 : Qle_bool 0 (inject_Z x / inject_Z msPerDay) = (0 <=? x)).
    { unfold Qle_bool, Qdiv, Qmult, Qinv, inject_Z. simpl.
      now rewrite !Z.mul_1_r. }
    assert (H1 : Qle_bool (inject_Z x / inject_Z msPerDay) (-1) = (x <=? - msPerDay)).
    { unfold Qle_bool, Qdiv, Qmult, Qinv, inject_Z. simpl.
      now rewrite !Z.mul_1_r. }
    rewrite H0, H1.
    destruct (Z.leb_spec 0 x), (Z.leb_spec x (- msPerDay)),
      (Z.ltb_spec x 0), (Z.ltb_spec (- msPerDay) x);
      simpl; try reflexivity; unfold msPerDay in *; lia.
Qed.

(** C8: with [days] the ceiling of (end - start) / one day,
    [calculateMeetingDensity] is the quotient of the number of events by
    [days] whenever [days] is not zero. A zero [days] is not guarded: the
    division is carried out all the same and yields NaN for no events and
    an infinity otherwise, without raising. *)
Theorem C8_calculateMeetingDensity_spec (events : list Event) (startDate_ endDate_ : Z) :
  let count := Z.of_nat (List.length events) in
  let days := - ((startDate_ - endDate_) / msPerDay) in
  let density := calculateMeetingDensity events startDate_ endDate_ in
  msPerDay * (days - 1) < endDate_ - startDate_ <= msPerDay * days
  /\ (days <> 0 ->
        days_between startDate_ endDate_ = JSNumber.ofZ days
        /\ exists q, JSNumber.toQ density = Some q
                     /\ (q == inject_Z count / inject_Z days)%Q)
  /\ (days = 0 ->
        density =
        if count =? 0 then JSNumber.NaN
        else if endDate_ - startDate_ <? 0 then JSNumber.NegInfinity
             else JSNumber.PosInfinity).
Proof.
  intros count days density.
  assert (Hm : 0 < msPerDay) by reflexivity.
  pose proof (Z.mul_div_le (startDate_ - endDate_) msPerDay Hm) as Hlo.
  pose proof (Z.mul_succ_div_gt (startDate_ - endDate_) msPerDay Hm) as Hhi.
  assert (Hdays : msPerDay * (days - 1) < endDate_ - startDate_ <= msPerDay * days)
    by (unfold days; lia).
  assert (Hcount : 0 <= count) by (unfold count; lia).
  pose proof (days_between_cases startDate_ endDate_) as Hcases.
  fold days in Hcases.
  split; [exact Hdays|]. split.
  - intros Hnz.
    assert (Hnegzero : (endDate_ - startDate_ <? 0) && (- msPerDay <? endDate_ - startDate_) = false).
    { apply andb_false_iff.
      destruct (Z.ltb_spec (endDate_ - startDate_) 0); [right|now left].
      apply Z.ltb_ge. nia. }
    rewrite Hnegzero in Hcases. split; [exact Hcases|].
    unfold density, calculateMeetingDensity. rewrite Hcases. fold count.
    unfold JSNumber.div.
    unfold JSNumber.ofZ at 3 4.
    fold (JSNumber.ofZ count). fold (JSNumber.ofZ days).
    rewrite !isZero_ofZ.
    destruct (Z.eqb_spec days 0) as [|_]; [contradiction|].
    destruct (Z.eqb_spec count 0) as [Hc|Hc].
    + exists 0%Q. split.
      * unfold JSNumber.zero. destruct (xorb _ _); reflexivity.
      * rewrite Hc. unfold Qdiv. now rewrite Qmult_0_l.
    + eexists. split; reflexivity.
  - intros Hz.
    unfold density, calculateMeetingDensity. rewrite Hcases. fold count.
    rewrite Hz in *.
    destruct (Z.ltb_spec (endDate_ - startDate_) 0) as [Hneg|Hpos].
    + assert (Hgt : (- msPerDay <? endDate_ - startDate_) = true)
        by (apply Z.ltb_lt; lia).
      rewrite Hgt. simpl andb. cbv iota.
      unfold JSNumber.div.
      unfold JSNumber.ofZ at 1. fold (JSNumber.ofZ count).
      rewrite isZero_ofZ, isNegative_ofZ.
      destruct (Z.eqb_spec count 0); [reflexivity|].
      destruct (Z.ltb_spec count 0); [lia|reflexivity].
    + simpl andb. cbv iota.
      unfold JSNumber.div.
      unfold JSNumber.ofZ at 1 2.
      fold (JSNumber.ofZ count). fold (JSNumber.ofZ 0).
      rewrite !isZero_ofZ, !isNegative_ofZ.
      destruct (Z.eqb_spec count 0); [reflexivity|].
      destruct (Z.ltb_spec count 0); [lia|reflexivity].
Qed.

End SchedulingFacts.

(** ** Maps and the per-day grouping *)

Module JSMapFacts.
Import JSMap.

Section Facts.
Context {V : Type}.
Implicit Types (m : JSMap.t V) (k : string) (v : V).

Lemma get_set_eq m k v : get (set m k v) k = Some v.
Proof.
  induction m as [|[k' v'] m IH]; simpl.
  - now rewrite String.eqb_refl.
  - destruct (String.eqb k' k) eqn:E; simpl; rewrite E; auto.
Qed.

Lemma get_set_ne m k k' v : k <> k' -> get (set m k v) k' = get m k'.
Proof.
  intros Hne. induction m as [|[k0 v0] m IH]; simpl.
  - apply String.eqb_neq in Hne. now rewrite Hne.
  - destruct (String.eqb k0 k) eqn:E; simpl.
    + apply String.eqb_eq in E. subst k0.
      apply String.eqb_neq in Hne. now rewrite Hne.
    + now rewrite IH.
Qed.

Lemma get_None_iff m k : get m k = None <-> ~ In k (keys m).
Proof.
  induction m as [|[k0 v0] m IH]; simpl.
  - tauto.
  - destruct (String.eqb k0 k) eqn:E.
    + apply String.eqb_eq in E. split; [discriminate|]. tauto.
    + apply String.eqb_neq in E. rewrite IH. tauto.
Qed.

Lemma keys_set m k v :
  keys (set m k v) = match get m k with Some _ => keys m | None => keys m ++ [k] end.
Proof.
  induction m as [|[k0 v0] m IH]; simpl; [reflexivity|].
  destruct (String.eqb k0 k) eqn:E; simpl; [reflexivity|].
  rewrite IH. now destruct (get m k).
Qed.

Lemma NoDup_keys_set m k v : NoDup (keys m) -> NoDup (keys (set m k v)).
Proof.
  intros Hnd. rewrite keys_set.
  destruct (get m k) eqn:E; [assumption|].
  apply get_None_iff in E.
  apply NoDup_rev in Hnd. rewrite <- (rev_involutive (keys m ++ [k])).
  apply NoDup_rev. rewrite rev_app_distr. simpl.
  constructor; [now rewrite <- in_rev|assumption].
Qed.

Lemma In_get m k v : NoDup (keys m) -> In (k, v) m -> get m k = Some v.
Proof.
  induction m as [|[k0 v0] m IH]; simpl; [tauto|].
  intros Hnd [Heq|Hin].
  - injection Heq as -> ->. now rewrite String.eqb_refl.
  - inversion Hnd as [|? ? Hnotin Hnd']; subst.
    destruct (String.eqb k0 k) eqn:E; [|auto].
    apply String.eqb_eq in E. subst k0.
    elim Hnotin. change k with (fst (k, v)). now apply in_map.
Qed.
End Facts.

Lemma concat_values_set_new {A : Type} (m : JSMap.t (list A)) k (x : list A) :
  get m k = None ->
  List.concat (values (set m k x)) = List.concat (values m) ++ x.
Proof.
  induction m as [|[k0 v0] m IH]; simpl; intros Hget.
  - now rewrite app_nil_r.
  - destruct (String.eqb k0 k); [discriminate|]. simpl.
    now rewrite IH, app_assoc.
Qed.

Lemma concat_values_set_old {A : Type} (m : JSMap.t (list A)) k (a x : list A) :
  get m k = Some a ->
  Permutation (List.concat (values (set m k (a ++ x)))) (List.concat (values m) ++ x).
Proof.
  induction m as [|[k0 v0] m IH]; simpl; intros Hget; [discriminate|].
  destruct (String.eqb k0 k); simpl.
  - injection Hget as ->. rewrite <- !app_assoc.
    apply Permutation_app_head, Permutation_app_comm.
  - rewrite <- app_assoc. apply Permutation_app_head. now apply IH.
Qed.
End JSMapFacts.

Module KeyFacts.
Import JSDate JSString Scheduling.

Lemma occurs_app c s1 s2 :
  occurs c (s1 ++ s2) = occurs c s1 || occurs c s2.
Proof.
  induction s1 as [|a s1 IH]; simpl; [reflexivity|].
  now rewrite IH, orb_assoc.
Qed.

Lemma before_first_app c s r :
  occurs c s = false -> before_first c (s ++ String c r) = s.
Proof.
  induction s as [|a s IH]; simpl.
  - now rewrite Ascii.eqb_refl.
  - intros H. apply orb_false_iff in H. destruct H as [Ha Hs].
    rewrite Ha. now rewrite IH.
Qed.

Lemma digit_in (d : Z) : In (digit d) digits.
Proof.
  unfold digit. destruct (nth_in_or_default (Z.to_nat d) digits "0"%char) as [H|H].
  - exact H.
  - rewrite H. simpl. auto.
Qed.

Lemma digit_not (c : ascii) (d : Z) :
  forallb (fun a => negb (Ascii.eqb a c)) digits = true ->
  Ascii.eqb (digit d) c = false.
Proof.
  intros H. rewrite forallb_forall in H.
  apply negb_true_iff, H, digit_in.
Qed.

Lemma occurs_pad (c : ascii) (n : nat) (v : Z) :
  forallb (fun a => negb (Ascii.eqb a c)) digits = true ->
  occurs c (pad n v) = false.
Proof.
  intros H. revert v. induction n as [|n IH]; intros v; simpl; [reflexivity|].
  rewrite occurs_app, IH. simpl. now rewrite digit_not.
Qed.

Lemma occurs_isoDate (t : Z) : occurs "T" (isoDate t) = false.
Proof.
  unfold isoDate, isoYear.
  rewrite !occurs_app, !occurs_pad by reflexivity.
  destruct (_ && _); [now rewrite occurs_pad|].
  rewrite occurs_app, occurs_pad by reflexivity.
  destruct (_ <? 0); reflexivity.
Qed.

Lemma dateKeyOf_isoDate (event : Event) :
  dateKeyOf event = isoDate (startDate event).
Proof.
  unfold dateKeyOf, toISOString. simpl.
  apply before_first_app, occurs_isoDate.
Qed.

Lemma truthy_app_r (s r : string) : truthy r = true -> truthy (s ++ r) = true.
Proof. destruct s; simpl; auto. Qed.

Lemma dateKeyOf_truthy (event : Event) : truthy (dateKeyOf event) = true.
Proof.
  rewrite dateKeyOf_isoDate. unfold isoDate. now apply truthy_app_r.
Qed.
End KeyFacts.

Module GroupFacts.
Import JSDate JSString Scheduling JSMap JSMapFacts KeyFacts.

Lemma length_append (s r : string) :
  String.length (s ++ r) = (String.length s + String.length r)%nat.
Proof. induction s; simpl; auto. Qed.

Lemma length_pad (n : nat) (v : Z) : String.length (pad n v) = n.
Proof.
  revert v. induction n as [|n IH]; intros v; simpl; [reflexivity|].
  rewrite length_append, IH. simpl. lia.
Qed.

Lemma substring_0_length_app (s r : string) :
  substring 0 (String.length s) (s ++ r) = s.
Proof.
  induction s as [|a s IH]; simpl.
  - destruct r; reflexivity.
  - now rewrite IH.
Qed.

Lemma dateKeyOf_four_digit_year (event : Event) :
  0 <= YearFromTime (startDate event) <= 9999 ->
  String.length (dateKeyOf event) = 10%nat
  /\ dateKeyOf event = substring 0 10 (toISOString (startDate event)).
Proof.
  intros Hy. rewrite dateKeyOf_isoDate.
  assert (Hlen : String.length (isoDate (startDate event)) = 10%nat).
  { unfold isoDate, isoYear.
    replace ((0 <=? YearFromTime (startDate event))
             && (YearFromTime (startDate event) <=? 9999)) with true
      by (symmetry; apply andb_true_iff; split; apply Z.leb_le; lia).
    rewrite !length_append, !length_pad. reflexivity. }
  split; [exact Hlen|].
  unfold toISOString. rewrite <- Hlen. now rewrite substring_0_length_app.
Qed.

Lemma grouping_step grouped seen event :
  grouping_of grouped seen ->
  grouping_of (groupEventsByDay_step grouped event) (seen ++ [event]).
Proof.
  intros [Hnd [Hget Hperm]].
  unfold groupEventsByDay_step. rewrite dateKeyOf_truthy. simpl negb. cbv iota.
  set (k0 := dateKeyOf event).
  assert (Harr : match get grouped k0 with Some arr => arr | None => [] end
                 = filter (sameKey k0) seen).
  { rewrite Hget. now destruct (filter (sameKey k0) seen). }
  rewrite Harr.
  split; [now apply NoDup_keys_set|]. split.
  - intros k. rewrite filter_app. simpl.
    destruct (String.eqb_spec k0 k) as [<-|Hne].
    + rewrite get_set_eq.
      replace (sameKey k0 event) with true
        by (unfold sameKey, k0; now rewrite String.eqb_refl).
      now destruct (filter (sameKey k0) seen).
    + rewrite get_set_ne by assumption. rewrite Hget.
      replace (sameKey k event) with false
        by (unfold sameKey; fold k0; symmetry; now apply String.eqb_neq).
      now rewrite app_nil_r.
  - destruct (get grouped k0) as [arr|] eqn:Hk.
    + assert (arr = filter (sameKey k0) seen) by (now rewrite <- Harr).
      subst arr. rewrite concat_values_set_old by assumption.
      now apply Permutation_app_tail.
    + rewrite <- Harr. rewrite concat_values_set_new by assumption.
      now apply Permutation_app_tail.
Qed.

Lemma grouping_fold events :
  forall grouped seen,
    grouping_of grouped seen ->
    grouping_of (fold_left groupEventsByDay_step events grouped) (seen ++ events).
Proof.
  induction events as [|event events IH]; intros grouped seen H; simpl.
  - now rewrite app_nil_r.
  - replace (seen ++ event :: events) with ((seen ++ [event]) ++ events)
      by (now rewrite <- app_assoc).
    apply IH, grouping_step, H.
Qed.

(** C9: [groupEventsByDay] partitions its input. No key occurs twice;
    the group under a key is exactly the list of the input events whose
    start falls on that UTC date, in input order, and there is no group
    for a date without events; the groups together hold every input event
    once (their concatenation is a permutation of the input). The key of
    an event is the date part of the ISO string of its start (its first
    ten characters, YYYY-MM-DD, for a four-digit year); the end of the
    event plays no part, so an event spanning midnight is filed under
    its start date only. *)
Theorem C9_groupEventsByDay_partition (events : list Event) :
  let grouped := groupEventsByDay events in
  NoDup (JSMap.keys grouped)
  /\ (forall k, JSMap.get grouped k
                = match filter (fun event => String.eqb (dateKeyOf event) k) events with
                  | [] => None
                  | g => Some g
                  end)
  /\ (forall k g, In (k, g) grouped -> JSMap.get grouped k = Some g)
  /\ Permutation (List.concat (JSMap.values grouped)) events
  /\ (forall event, dateKeyOf event = isoDate (startDate event))
  /\ (forall event, 0 <= YearFromTime (startDate event) <= 9999 ->
        dateKeyOf event = substring 0 10 (toISOString (startDate event))).
Proof.
  intros grouped.
  assert (H : grouping_of grouped ([] ++ events)).
  { apply grouping_fold. repeat split; [constructor|constructor]. }
  simpl in H. destruct H as [Hnd [Hget Hperm]].
  split; [exact Hnd|]. split.
  { intros k. rewrite Hget. unfold nonempty.
    change (sameKey k) with (fun event => String.eqb (dateKeyOf event) k).
    now destruct (filter _ events). }
  split; [intros k g; now apply In_get|].
  split; [exact Hperm|].
  split; [exact dateKeyOf_isoDate|].
  intros event Hy. now apply dateKeyOf_four_digit_year.
Qed.
End GroupFacts.

(** ** Recurrence expansion *)

Module EventOpsFacts.
Import JSDate JSString Scheduling EventOps.

Lemma for_of_push {A : Type} (f : A -> Event) (items : list A) (st : State) :
  for_of items (fun x => push (f x)) st
  = (Normal tt, {| events := events st ++ map f items; stderr := stderr st |}).
Proof.
  revert st. induction items as [|x items IH]; intros [evs log]; simpl.
  - unfold ret. now rewrite app_nil_r.
  - unfold bind, push. simpl. rewrite IH. simpl.
    now rewrite <- app_assoc.
Qed.

Lemma app_singleton_neq {A : Type} (l : list A) (x : A) : l ++ [x] <> l.
Proof.
  intros H. apply (f_equal (@List.length A)) in H.
  rewrite length_app in H. simpl in H. lia.
Qed.

Section Expansion.
Variable RRule : Type.
Variable rrulestr : string -> Completion RRule.
Variable between : RRule -> Z -> Z -> bool -> Completion (list Z).
Variables (calendar_ : string) (queryStartDate queryEndDate : Z).

Let processRow := processRow RRule rrulestr between calendar_ queryStartDate queryEndDate.
Let ruleFails := ruleFails RRule rrulestr between queryStartDate queryEndDate.

Let base (row : Row) : Event :=
  makeEvent calendar_ row (row_startDate row) (row_endDate row).

(** A definition without a rule: kept when its start is in the window. *)
Lemma processRow_plain (row : Row) (st : State) :
  hasRecurrence (row_recurrence row) = false ->
  processRow row st =
  (Normal tt,
   if (row_startDate row >=? queryStartDate) && (row_startDate row <=? queryEndDate)
   then {| events := events st ++ [base row]; stderr := stderr st |}
   else st).
Proof.
  intros Hrec. unfold processRow, EventOps.processRow. rewrite Hrec.
  destruct (_ && _); reflexivity.
Qed.

(** A rule the library accepts: one event per occurrence start. *)
Lemma processRow_expanded (row : Row) (st : State) (rule : RRule) (starts : list Z) :
  hasRecurrence (row_recurrence row) = true ->
  rrulestr (ruleText (row_startDate row) (or_empty (row_recurrence row))) = Normal rule ->
  between rule queryStartDate queryEndDate true = Normal starts ->
  processRow row st =
  (Normal tt,
   {| events :=
        events st
        ++ map (fun t => makeEvent calendar_ row t
                           (t + (row_endDate row - row_startDate row))) starts;
      stderr := stderr st |}).
Proof.
  intros Hrec Hparse Hbetween. unfold processRow, EventOps.processRow.
  rewrite Hrec. unfold try_catch, bind, lift. rewrite Hparse, Hbetween.
  now rewrite for_of_push.
Qed.

(** A rule the library rejects: the failure is reported and the base
    event is pushed. *)
Lemma processRow_fallback (row : Row) (st : State) :
  hasRecurrence (row_recurrence row) = true ->
  ruleFails row ->
  exists error,
    processRow row st =
    (Normal tt,
     {| events := events st ++ [base row];
        stderr := stderr st ++ [(or_empty (row_recurrence row), error)] |}).
Proof.
  intros Hrec Hfail. unfold processRow, EventOps.processRow.
  unfold ruleFails, EventOps.ruleFails in Hfail.
  rewrite Hrec. unfold try_catch, bind, lift, console_error, push.
  destruct (rrulestr _) as [rule|e].
  - destruct (between rule queryStartDate queryEndDate true) as [starts|e];
      [contradiction|].
    exists e. reflexivity.
  - exists e. reflexivity.
Qed.

(** Processing a line never throws. *)
Lemma processRow_normal (row : Row) (st : State) :
  fst (processRow row st) = Normal tt.
Proof.
  destruct (hasRecurrence (row_recurrence row)) eqn:Hrec.
  - destruct (rrulestr (ruleText (row_startDate row) (or_empty (row_recurrence row))))
      as [rule|e] eqn:Hparse.
    + destruct (between rule queryStartDate queryEndDate true) as [starts|e] eqn:Hb.
      * now rewrite (processRow_expanded row st rule starts).
      * destruct (processRow_fallback row st Hrec) as [e' ->]; [|reflexivity].
        unfold ruleFails, EventOps.ruleFails. now rewrite Hparse, Hb.
    + destruct (processRow_fallback row st Hrec) as [e' ->]; [|reflexivity].
      unfold ruleFails, EventOps.ruleFails. now rewrite Hparse.
  - now rewrite processRow_plain.
Qed.

(** A diagnostic is written exactly when the line has a rule whose
    parsing or expansion fails. *)
Lemma processRow_reports (row : Row) (st : State) :
  stderr (snd (processRow row st)) <> stderr st
  <-> hasRecurrence (row_recurrence row) = true /\ ruleFails row.
Proof.
  split.
  - intros Hlog.
    destruct (hasRecurrence (row_recurrence row)) eqn:Hrec.
    + split; [reflexivity|].
      unfold ruleFails, EventOps.ruleFails.
      destruct (rrulestr _) as [rule|e] eqn:Hparse; [|exact I].
      destruct (between rule queryStartDate queryEndDate true) as [starts|e] eqn:Hb;
        [|exact I].
      rewrite (processRow_expanded row st rule starts) in Hlog by assumption.
      now elim Hlog.
    + rewrite processRow_plain in Hlog by assumption.
      simpl in Hlog. destruct (_ && _); now elim Hlog.
  - intros [Hrec Hfail].
    destruct (processRow_fallback row st Hrec Hfail) as [e ->]. simpl.
    apply app_singleton_neq.
Qed.

Lemma expand_eq (row : Row) :
  expand RRule rrulestr between calendar_ queryStartDate queryEndDate row
  = Normal (events (snd (processRow row {| events := []; stderr := [] |}))).
Proof.
  unfold expand, returning. fold processRow.
  pose proof (processRow_normal row {| events := []; stderr := [] |}) as Hn.
  destruct (processRow row _) as [[[]|e] st]; simpl in *; congruence.
Qed.

Lemma listEvents_single (row : Row) :
  listEvents RRule rrulestr between calendar_ queryStartDate queryEndDate [row]
  = expand RRule rrulestr between calendar_ queryStartDate queryEndDate row.
Proof.
  unfold listEvents, expand, returning. simpl. unfold bind, ret.
  destruct (EventOps.processRow _ _ _ _ _ _ row _) as [[[]|e] st]; reflexivity.
Qed.

Lemma listAllEvents_single (row : Row) :
  listAllEvents RRule rrulestr between queryStartDate queryEndDate [row]
  = expand RRule rrulestr between (or_empty (row_calendar row))
      queryStartDate queryEndDate row.
Proof.
  unfold listAllEvents, expand, returning. simpl. unfold bind, ret.
  destruct (EventOps.processRow _ _ _ _ _ _ row _) as [[[]|e] st]; reflexivity.
Qed.

(** Processing a line only appends: what it adds does not depend on
    what the state already holds. *)
Lemma processRow_appends (row : Row) (st : State) :
  events (snd (processRow row st))
  = events st ++ events (snd (processRow row {| events := []; stderr := [] |})).
Proof.
  set (st0 := {| events := []; stderr := [] |}).
  destruct (hasRecurrence (row_recurrence row)) eqn:Hrec.
  - destruct (rrulestr (ruleText (row_startDate row) (or_empty (row_recurrence row))))
      as [rule|e] eqn:Hparse.
    + destruct (between rule queryStartDate queryEndDate true) as [starts|e] eqn:Hb.
      * now rewrite !(processRow_expanded row _ rule starts).
      * assert (Hfail : ruleFails row)
          by (unfold ruleFails, EventOps.ruleFails; now rewrite Hparse, Hb).
        destruct (processRow_fallback row st Hrec Hfail) as [e1 ->].
        destruct (processRow_fallback row st0 Hrec Hfail) as [e2 ->].
        reflexivity.
    + assert (Hfail : ruleFails row)
        by (unfold ruleFails, EventOps.ruleFails; now rewrite Hparse).
      destruct (processRow_fallback row st Hrec Hfail) as [e1 ->].
      destruct (processRow_fallback row st0 Hrec Hfail) as [e2 ->].
      reflexivity.
  - rewrite !processRow_plain by assumption. simpl.
    destruct (_ && _); simpl; [reflexivity|now rewrite app_nil_r].
Qed.

(** The loop over the lines never throws and collects, line by line,
    what each definition contributes. *)
Lemma for_of_rows (rows : list Row) (st : State) :
  fst (for_of rows processRow st) = Normal tt
  /\ events (snd (for_of rows processRow st))
     = events st
       ++ flat_map (fun row =>
            events (snd (processRow row {| events := []; stderr := [] |}))) rows.
Proof.
  revert st. induction rows as [|row rows IH]; intros st; simpl.
  - split; [reflexivity|now rewrite app_nil_r].
  - unfold bind.
    pose proof (processRow_normal row st) as Hn.
    pose proof (processRow_appends row st) as Ha.
    destruct (processRow row st) as [[[]|e] st']; simpl in *; [|discriminate].
    destruct (IH st') as [IH1 IH2].
    split; [exact IH1|]. now rewrite IH2, Ha, <- app_assoc.
Qed.

Lemma listEvents_flat_map (rows : list Row) :
  listEvents RRule rrulestr between calendar_ queryStartDate queryEndDate rows
  = Normal (flat_map (fun row =>
      events (snd (processRow row {| events := []; stderr := [] |}))) rows).
Proof.
  unfold listEvents, returning. fold processRow.
  destruct (for_of_rows rows {| events := []; stderr := [] |}) as [H1 H2].
  destruct (for_of rows processRow _) as [[[]|e] st]; simpl in *;
    [now rewrite H2 | discriminate].
Qed.

End Expansion.

Section Claims.
Variable RRule : Type.
Variable rrulestr : string -> Completion RRule.
Variable between : RRule -> Z -> Z -> bool -> Completion (list Z).
Variables (calendar_ : string) (queryStartDate queryEndDate : Z).

Let processRow := processRow RRule rrulestr between calendar_ queryStartDate queryEndDate.
Let ruleFails := ruleFails RRule rrulestr between queryStartDate queryEndDate.

Let base (row : Row) : Event :=
  makeEvent calendar_ row (row_startDate row) (row_endDate row).

Local Abbreviation at_calendar lemma :=
  (lemma RRule rrulestr between calendar_ queryStartDate queryEndDate)
  (only parsing).

(** C3: when a definition has a rule (non-empty once trimmed) and
    parsing or expanding it fails, processing the definition pushes
    exactly one event, carrying the base start and end of the
    definition, whatever the query window; the failure is written to
    the diagnostics and not thrown, so [listEvents] returns normally.
    A diagnostic is written in this case and no other. *)
Theorem C3_rule_failure_falls_back (row : Row) (st : State) :
  (stderr (snd (processRow row st)) <> stderr st
     <-> hasRecurrence (row_recurrence row) = true /\ ruleFails row)
  /\ (hasRecurrence (row_recurrence row) = true -> ruleFails row ->
        fst (processRow row st) = Normal tt
        /\ events (snd (processRow row st)) = events st ++ [base row]
        /\ startDate (base row) = row_startDate row
        /\ endDate (base row) = row_endDate row
        /\ expand RRule rrulestr between calendar_ queryStartDate queryEndDate row
             = Normal [base row]
        /\ listEvents RRule rrulestr between calendar_ queryStartDate queryEndDate [row]
             = Normal [base row]
        /\ listAllEvents RRule rrulestr between queryStartDate queryEndDate [row]
             = Normal [makeEvent (or_empty (row_calendar row)) row
                         (row_startDate row) (row_endDate row)]).
Proof.
  split; [apply (at_calendar processRow_reports)|].
  intros Hrec Hfail.
  split; [apply (at_calendar processRow_normal)|].
  destruct (processRow_fallback RRule rrulestr between calendar_
              queryStartDate queryEndDate row st Hrec Hfail) as [e He].
  split; [unfold processRow; now rewrite He|].
  split; [reflexivity|]. split; [reflexivity|].
  assert (Hexp : forall cal,
    expand RRule rrulestr between cal queryStartDate queryEndDate row
    = Normal [makeEvent cal row (row_startDate row) (row_endDate row)]).
  { intros cal. rewrite expand_eq.
    destruct (processRow_fallback RRule rrulestr between cal
                queryStartDate queryEndDate row
                {| events := []; stderr := [] |} Hrec Hfail) as [e' ->].
    reflexivity. }
  split; [apply Hexp|].
  split; [rewrite listEvents_single; apply Hexp|].
  rewrite listAllEvents_single. apply Hexp.
Qed.

(** C4: every event produced from a definition lasts as long as the
    definition itself, end - start of the base; for a rule the library
    expands, the events are the base event moved to each occurrence
    start, so the rule only moves the start. *)
Theorem C4_duration_preserved (row : Row) :
  exists occurrences,
    expand RRule rrulestr between calendar_ queryStartDate queryEndDate row
    = Normal occurrences
    /\ (forall occurrence, In occurrence occurrences ->
          endDate occurrence - startDate occurrence
          = row_endDate row - row_startDate row)
    /\ (forall rule starts,
          hasRecurrence (row_recurrence row) = true ->
          rrulestr (ruleText (row_startDate row) (or_empty (row_recurrence row)))
          = Normal rule ->
          between rule queryStartDate queryEndDate true = Normal starts ->
          occurrences
          = map (fun t => makeEvent calendar_ row t
                            (t + (row_endDate row - row_startDate row))) starts).
Proof.
  rewrite expand_eq. eexists. split; [reflexivity|].
  set (st0 := {| events := []; stderr := [] |}).
  destruct (hasRecurrence (row_recurrence row)) eqn:Hrec.
  - destruct (rrulestr (ruleText (row_startDate row) (or_empty (row_recurrence row))))
      as [rule|e] eqn:Hparse.
    + destruct (between rule queryStartDate queryEndDate true) as [starts|e] eqn:Hb.
      * rewrite (at_calendar processRow_expanded row st0 rule starts) by assumption.
        simpl. split.
        -- intros occ Hin. apply in_map_iff in Hin.
           destruct Hin as [t [<- _]]. simpl. lia.
        -- intros rule' starts' _ Hr Hs.
           injection Hr as <-. rewrite Hb in Hs. now injection Hs as <-.
      * destruct (at_calendar processRow_fallback row st0 Hrec) as [e' ->].
        { unfold ruleFails, EventOps.ruleFails. now rewrite Hparse, Hb. }
        simpl. split.
        -- intros occ [<-|[]]. reflexivity.
        -- intros rule' starts' _ Hr Hs. injection Hr as <-. congruence.
    + destruct (at_calendar processRow_fallback row st0 Hrec) as [e' ->].
      { unfold ruleFails, EventOps.ruleFails. now rewrite Hparse. }
      simpl. split.
      * intros occ [<-|[]]. reflexivity.
      * intros rule' starts' _ Hr. congruence.
  - rewrite (at_calendar processRow_plain) by assumption. simpl. split.
    + destruct (_ && _); simpl; [intros occ [<-|[]]; reflexivity | intros occ []].
    + intros rule' starts' Habs. congruence.
Qed.

(** C6: a definition whose rule is absent or empty yields exactly one
    event, with the base start and end unchanged, when its base start
    lies in [queryStart, queryEnd], both ends included, and no event
    otherwise. *)
Theorem C6_plain_definition_window (row : Row) :
  row_recurrence row = None \/ row_recurrence row = Some EmptyString ->
  let result :=
    expand RRule rrulestr between calendar_ queryStartDate queryEndDate row in
  (result = Normal [base row]
     <-> queryStartDate <= row_startDate row <= queryEndDate)
  /\ (result = Normal []
     <-> ~ (queryStartDate <= row_startDate row <= queryEndDate))
  /\ startDate (base row) = row_startDate row
  /\ endDate (base row) = row_endDate row.
Proof.
  intros Hrule result.
  assert (Hrec : hasRecurrence (row_recurrence row) = false)
    by (destruct Hrule as [-> | ->]; reflexivity).
  assert (Hres : result =
    Normal (if (row_startDate row >=? queryStartDate)
               && (row_startDate row <=? queryEndDate)
            then [base row] else [])).
  { unfold result. rewrite expand_eq, (at_calendar processRow_plain) by assumption.
    simpl. now destruct (_ && _). }
  rewrite Hres.
  destruct (Z.geb_spec (row_startDate row) queryStartDate),
           (Z.leb_spec (row_startDate row) queryEndDate); simpl;
    (split; [|split; [|split; reflexivity]]);
    split; intros Hx; try lia; try discriminate; try reflexivity.
Qed.

End Claims.

End EventOpsFacts.

(** ** The properties on the sample data *)

Module Instances.
Import JSDate JSString Scheduling EventOps Examples.
Import SchedulingFacts GroupFacts EventOpsFacts.
Local Open Scope string_scope.

(** The sweep of one day around one meeting from 10:00 to 11:00, for
    one-hour slots: 09:00 is accepted, 09:30, 10:00 and 10:30 are not,
    11:00 is accepted again. *)
Example sweep_around_meeting :
  let slots :=
    findFreeSlots utc (at_ 0 0) (at_ 24 0) (Double.ofZ msPerHour) [meeting] false in
  List.length slots = 44%nat
  /\ firstn 3 (skipn 17 slots)
     = [slotAt 8 30 msPerHour; slotAt 9 0 msPerHour; slotAt 11 0 msPerHour].
Proof. vm_compute. split; reflexivity. Qed.

(** Only the start hour is tested: with business hours a one-hour slot
    starting at 16:30 is kept although it ends at 17:30. *)
Example business_hours_test_start_only :
  let slots := findFreeSlots utc (at_ 0 0) (at_ 24 0) (Double.ofZ msPerHour) [] true in
  hd_error slots = Some (slotAt 9 0 msPerHour)
  /\ last slots (slotAt 0 0 0) = slotAt 16 30 msPerHour
  /\ List.length slots = 16%nat.
Proof. vm_compute. repeat split; reflexivity. Qed.


Lemma C10_findFreeSlots_grid_aligned_witness :
  exists k : Z,
    0 <= k /\ start (slotAt 11 20 msPerHour) = at_ 0 20 + k * (30 * msPerMinute).
Proof.
  apply (C10_findFreeSlots_grid_aligned utc (at_ 0 20) (at_ 24 0) (Double.ofZ msPerHour)
           [meeting] true).
  vm_compute. left. reflexivity.
Defined.

Lemma C7_findFreeSlots_complete_witness :
  List.length (findFreeSlots utc (at_ 9 0) (at_ 12 10) (Double.ofZ msPerHour) [] false)
  = 5%nat
  /\ findFreeSlots utc (at_ 9 0) (at_ 12 10) (Double.ofZ msPerHour) [] false
     = gridSlots (at_ 9 0) msPerHour 5.
Proof.
  assert (Hfit : 0 < msPerHour <= at_ 12 10 - at_ 9 0)
    by (split; [reflexivity | vm_compute; discriminate]).
  assert (Hrep : msPerHour < 2 ^ 53) by reflexivity.
  destruct (C7_findFreeSlots_complete utc (at_ 9 0) (at_ 12 10) msPerHour
              eq_refl eq_refl Hfit Hrep)
    as [Hlen [Hgrid _]].
  split; [exact Hlen | exact Hgrid].
Defined.

Lemma C2_findOptimalSlot_spec_witness :
  findOptimalSlot utc [slotAt 9 0 msPerHour; slotAt 14 0 msPerHour] [meeting]
    (Some [9; 14])
  = Some (slotAt 9 0 msPerHour).
Proof.
  destruct (C2_findOptimalSlot_spec utc
              [slotAt 9 0 msPerHour; slotAt 14 0 msPerHour] [meeting] (Some [9; 14]))
    as (_ & _ & _ & _ & Htie).
  apply (Htie (slotAt 9 0 msPerHour) (slotAt 14 0 msPerHour)); reflexivity.
Defined.

(** A preferred hour beats an earlier start; without preferences the
    earliest free candidate wins; a candidate that is not free is never
    returned. *)
Example findOptimalSlot_samples :
  findOptimalSlot utc [slotAt 9 0 msPerHour; slotAt 14 0 msPerHour] [meeting]
    (Some [14]) = Some (slotAt 14 0 msPerHour)
  /\ findOptimalSlot utc [slotAt 9 0 msPerHour; slotAt 14 0 msPerHour] [meeting]
       (Some []) = Some (slotAt 9 0 msPerHour)
  /\ findOptimalSlot utc [slotAt 9 0 msPerHour; slotAt 14 0 msPerHour] [meeting]
       None = Some (slotAt 9 0 msPerHour)
  /\ findOptimalSlot utc
       [slotAt 10 30 msPerHour; slotAt 8 0 msPerHour; slotAt 14 0 msPerHour]
       [meeting] (Some [10; 7]) = Some (slotAt 8 0 msPerHour)
  /\ findOptimalSlot utc [slotAt 10 30 msPerHour] [meeting] (Some [10]) = None.
Proof. vm_compute. repeat split; reflexivity. Qed.

Lemma C8_calculateMeetingDensity_spec_witness :
  exists q,
    JSNumber.toQ (calculateMeetingDensity [meeting; lunch; overnight] (at_ 0 0) (at_ 47 0))
    = Some q
    /\ (q == inject_Z 3 / inject_Z 2)%Q.
Proof.
  destruct (C8_calculateMeetingDensity_spec [meeting; lunch; overnight] (at_ 0 0) (at_ 47 0))
    as (_ & Hfinite & _).
  apply Hfinite. vm_compute. discriminate.
Defined.

(** A period of no length, or one running backwards by less than a day,
    divides by a zero. *)
Example calculateMeetingDensity_zero_days :
  calculateMeetingDensity [meeting] (at_ 9 0) (at_ 9 0) = JSNumber.PosInfinity
  /\ calculateMeetingDensity [] (at_ 9 0) (at_ 9 0) = JSNumber.NaN
  /\ calculateMeetingDensity [meeting] (at_ 9 0) (at_ 8 0) = JSNumber.NegInfinity.
Proof. vm_compute. repeat split; reflexivity. Qed.

(** Four events over two days, one of them spanning midnight. *)
Example groupEventsByDay_sample :
  groupEventsByDay [meeting; overnight; breakfast; lunch]
  = [ ("2024-02-29", [meeting; overnight; lunch]); ("2024-03-01", [breakfast]) ].
Proof. vm_compute. reflexivity. Qed.

Lemma C9_groupEventsByDay_partition_witness :
  JSMap.get (groupEventsByDay [meeting; overnight; breakfast; lunch]) "2024-02-29"
  = Some [meeting; overnight; lunch].
Proof.
  destruct (C9_groupEventsByDay_partition [meeting; overnight; breakfast; lunch])
    as (_ & _ & Hin & _).
  apply Hin. vm_compute. left. reflexivity.
Defined.

(** The text handed to the recurrence library. *)
Example ruleText_sample :
  ruleText (at_ 9 0) "FREQ=WEEKLY"
  = "DTSTART:20240229T090000Z" ++ newline ++ "RRULE:FREQ=WEEKLY".
Proof. vm_compute. reflexivity. Qed.

Lemma C3_rule_failure_falls_back_witness :
  listAllEvents (list Z) rejecting_rrulestr series_between
    (at_ 0 0) (at_ 24 0) [brokenRow]
  = Normal [mkEvent "R2" "Gym" (at_ (- 48) 0) (at_ (- 47) 0) None None (Some "Home")].
Proof.
  destruct (C3_rule_failure_falls_back (list Z) rejecting_rrulestr series_between
              "Home" (at_ 0 0) (at_ 24 0) brokenRow (mkState [] []))
    as [_ Hfallback].
  destruct (Hfallback eq_refl I) as (_ & _ & _ & _ & _ & _ & Hall).
  exact Hall.
Defined.

Lemma C4_duration_preserved_witness :
  exists occurrences,
    expand (list Z) (series_rrulestr weeklyStarts) series_between
      "Work" (at_ 0 0) (at_ (3 * 168) 0) weeklyRow
    = Normal occurrences
    /\ map startDate occurrences = [at_ 9 0; at_ (168 + 9) 0; at_ (336 + 9) 0]
    /\ Forall (fun occurrence =>
                 endDate occurrence - startDate occurrence = 45 * msPerMinute)
         occurrences.
Proof.
  destruct (C4_duration_preserved (list Z) (series_rrulestr weeklyStarts)
              series_between "Work" (at_ 0 0) (at_ (3 * 168) 0)
              weeklyRow)
    as [occurrences [Hexpand [Hduration Hstarts]]].
  exists occurrences. split; [exact Hexpand|]. split.
  - rewrite (Hstarts weeklyStarts [at_ 9 0; at_ (168 + 9) 0; at_ (336 + 9) 0]
               eq_refl eq_refl eq_refl).
    reflexivity.
  - apply Forall_forall. intros occurrence Hin.
    rewrite (Hduration occurrence Hin). reflexivity.
Defined.

Lemma C6_plain_definition_window_witness :
  expand (list Z) rejecting_rrulestr series_between "Home"
    (at_ 0 0) (at_ 24 0) plainRow
  = Normal [mkEvent "R3" "Dentist" (at_ 15 0) (at_ 16 0) None None (Some "Home")]
  /\ expand (list Z) rejecting_rrulestr series_between "Home"
       (at_ 16 0) (at_ 24 0) plainRow
     = Normal [].
Proof.
  split.
  - apply (C6_plain_definition_window (list Z) rejecting_rrulestr series_between
             "Home" (at_ 0 0) (at_ 24 0) plainRow (or_intror eq_refl)).
    vm_compute. split; discriminate.
  - apply (C6_plain_definition_window (list Z) rejecting_rrulestr series_between
             "Home" (at_ 16 0) (at_ 24 0) plainRow (or_intror eq_refl)).
    vm_compute. intros [H _]. apply H. reflexivity.
Defined.

(** A rule of white space only is no rule: the definition is filtered by
    the window like one without a rule, and the library is not asked. *)
Example blank_rule_is_plain :
  hasRecurrence (Some "  ") = false
  /\ hasRecurrence (Some "FREQ=DAILY") = true
  /\ hasRecurrence (Some "") = false
  /\ hasRecurrence None = false.
Proof. repeat split; reflexivity. Qed.

End Instances.

(** * Further properties *)

(** ** The sweep in closed form *)

Module SweepFacts.
Import JSDate TimeValue Scheduling SchedulingFacts SweepSpec DoubleFacts.

Lemma In_gridSlots (t0 duration : Z) (n : nat) (slot : TimeSlot) :
  In slot (gridSlots t0 duration n)
  <-> exists k : Z, 0 <= k < Z.of_nat n
        /\ slot = {| start := t0 + k * step; end_ := t0 + k * step + duration |}.
Proof.
  unfold gridSlots. rewrite in_map_iff. split.
  - intros [k [<- Hk]]. apply in_seq in Hk. exists (Z.of_nat k). split; [lia|reflexivity].
  - intros [k [Hk ->]]. exists (Z.to_nat k). split.
    + unfold gridSlot. now rewrite Z2Nat.id by lia.
    + apply in_seq. lia.
Qed.

Lemma findFreeSlots_In (LocalTZA : Z -> Z) (startDate_ endDate_ d : Z)
    (events : list Event) (businessHoursOnly : bool) (slot : TimeSlot) :
  wholeMs startDate_ endDate_ d ->
  In slot (findFreeSlots LocalTZA startDate_ endDate_ (Double.ofZ d) events
             businessHoursOnly)
  <-> exists k : Z,
        0 <= k
        /\ slot = {| start := startDate_ + k * step;
                     end_ := startDate_ + k * step + d |}
        /\ end_ slot <= endDate_
        /\ isFree slot events = true
        /\ (businessHoursOnly = true -> 9 <= getHours LocalTZA (start slot) < 17).
Proof.
  intros Hwhole.
  rewrite findFreeSlots_filter_grid by exact Hwhole. rewrite filter_In, In_gridSlots.
  assert (Hs : 0 < step) by (unfold step; lia).
  destruct (candidateCount_bounds startDate_ endDate_ d) as [H1 H2].
  set (n := candidateCount startDate_ endDate_ d) in *.
  unfold accepted, hourAllowed.
  split.
  - intros [[k [Hk ->]] Hacc]. simpl in *.
    apply andb_true_iff in Hacc. destruct Hacc as [Hhour Hfree].
    exists k. split; [lia|]. split; [reflexivity|].
    split; [assert (Hn : n <> O) by lia; specialize (H2 Hn); nia|].
    split; [exact Hfree|].
    intros ->. simpl in Hhour. apply negb_true_iff, orb_false_iff in Hhour. lia.
  - intros [k [Hk [-> [Hfit [Hfree Hhour]]]]]. simpl in *. split.
    + exists k. split; [|reflexivity]. split; [lia|]. nia.
    + apply andb_true_iff. split; [|exact Hfree].
      destruct businessHoursOnly; [|reflexivity].
      specialize (Hhour eq_refl). simpl.
      apply negb_true_iff, orb_false_iff. lia.
Qed.

(** X1: for a duration of whole milliseconds, over a window between two
    valid dates, [findFreeSlots] returns exactly the candidates of the
    30-minute grid anchored at the start of the window that fit before its
    end, are free and, when business hours are asked for, start at a local
    hour in [9, 17): it is the grid, filtered. A slot is returned if and
    only if it is such a candidate, so no free candidate is left out. *)
Theorem X1_findFreeSlots_characterised (LocalTZA : Z -> Z)
    (startDate_ endDate_ d : Z) (events : list Event) (businessHoursOnly : bool) :
  wholeMs startDate_ endDate_ d ->
  findFreeSlots LocalTZA startDate_ endDate_ (Double.ofZ d) events businessHoursOnly
  = filter (accepted LocalTZA events businessHoursOnly)
      (gridSlots startDate_ d (candidateCount startDate_ endDate_ d))
  /\ forall slot,
       In slot (findFreeSlots LocalTZA startDate_ endDate_ (Double.ofZ d) events
                  businessHoursOnly)
       <-> exists k : Z,
             0 <= k
             /\ slot = {| start := startDate_ + k * step;
                          end_ := startDate_ + k * step + d |}
             /\ end_ slot <= endDate_
             /\ isFree slot events = true
             /\ (businessHoursOnly = true ->
                 9 <= getHours LocalTZA (start slot) < 17).
Proof.
  intros Hwhole. split; [apply findFreeSlots_filter_grid; exact Hwhole|].
  intros slot. apply findFreeSlots_In. exact Hwhole.
Qed.

Lemma StronglySorted_snoc {A : Type} (R : A -> A -> Prop) (l : list A) (a : A) :
  StronglySorted R l -> Forall (fun x => R x a) l -> StronglySorted R (l ++ [a]).
Proof.
  induction 1 as [|x l Hl IH Hx]; intros Hall; simpl.
  - constructor; constructor.
  - inversion Hall as [|y l' Hxa Hla]; subst.
    constructor; [apply IH; exact Hla|].
    apply Forall_app. split; [exact Hx|]. constructor; [exact Hxa|constructor].
Qed.

(** The slots pushed so far start before the current time, in
    increasing order. *)
Lemma loop_sorted (LocalTZA : Z -> Z) (endDate_ : Z) (duration : spec_float)
    (events : list Event) (businessHoursOnly : bool) :
  forall currentTime freeSlots,
    StronglySorted startsBefore freeSlots ->
    Forall (fun slot => start slot < currentTime) freeSlots ->
    StronglySorted startsBefore
      (findFreeSlots_loop LocalTZA endDate_ duration events businessHoursOnly
         currentTime freeSlots).
Proof.
  intros currentTime freeSlots.
  funelim (findFreeSlots_loop LocalTZA endDate_ duration events
             businessHoursOnly currentTime freeSlots);
    intros Hsorted Hbefore; [|assumption].
  assert (Hs : 0 < step) by reflexivity.
  assert (Hlater : Forall (fun slot => start slot < currentTime + step) freeSlots).
  { revert Hbefore. apply Forall_impl. intros slot Hlt. lia. }
  destruct (businessHoursOnly
     && ((getHours LocalTZA currentTime <? 9)
         || (getHours LocalTZA currentTime >=? 17))).
  - apply H; assumption.
  - destruct (isFree _ events); [|apply H0; assumption].
    apply H0.
    + apply StronglySorted_snoc; assumption.
    + apply Forall_app. split; [exact Hlater|].
      constructor; [simpl; lia|constructor].
Qed.

(** X2: the slots returned by [findFreeSlots] are in strictly increasing
    order of start, so no slot is returned twice. *)
Theorem X2_findFreeSlots_increasing (LocalTZA : Z -> Z)
    (startDate_ endDate_ : Z) (duration : spec_float) (events : list Event)
    (businessHoursOnly : bool) :
  StronglySorted startsBefore
    (findFreeSlots LocalTZA startDate_ endDate_ duration events businessHoursOnly)
  /\ NoDup (findFreeSlots LocalTZA startDate_ endDate_ duration events businessHoursOnly).
Proof.
  assert (Hsorted : StronglySorted startsBefore
    (findFreeSlots LocalTZA startDate_ endDate_ duration events businessHoursOnly)).
  { unfold findFreeSlots. apply loop_sorted; constructor. }
  split; [exact Hsorted|].
  induction Hsorted as [|x l Hl IH Hx]; constructor; [|exact IH].
  intros Hin. rewrite Forall_forall in Hx. specialize (Hx x Hin).
  unfold startsBefore in Hx. lia.
Qed.

(** X3: for a duration of whole milliseconds, over a window between two
    valid dates, [findFreeSlots] returns at most floor((end - start -
    duration) / 30min) + 1 slots, and none at all, without an error, when
    the window is shorter than the duration (an inverted window
    included). *)
Theorem X3_findFreeSlots_short_window (LocalTZA : Z -> Z)
    (startDate_ endDate_ d : Z) (events : list Event) (businessHoursOnly : bool) :
  wholeMs startDate_ endDate_ d ->
  (List.length (findFreeSlots LocalTZA startDate_ endDate_ (Double.ofZ d) events
                  businessHoursOnly)
     <= Z.to_nat ((endDate_ - startDate_ - d) / (30 * msPerMinute) + 1))%nat
  /\ (endDate_ - startDate_ < d ->
      findFreeSlots LocalTZA startDate_ endDate_ (Double.ofZ d) events businessHoursOnly
      = []).
Proof.
  intros Hwhole. rewrite findFreeSlots_filter_grid by exact Hwhole. split.
  - etransitivity; [apply filter_length_le|].
    unfold gridSlots. now rewrite length_map, length_seq.
  - intros Hshort.
    assert (Hn : candidateCount startDate_ endDate_ d = O).
    { unfold candidateCount.
      assert ((endDate_ - startDate_ - d) / step < 0)
        by (apply Z.div_lt_upper_bound; unfold step; lia).
      lia. }
    now rewrite Hn.
Qed.

(** X4: a slot is free exactly when every event ends by the start of the
    slot or starts at or after its end, so back-to-back events are no
    conflict; and a slot is free against the events of two lists together
    exactly when it is free against each. *)
Theorem X4_isFree_iff_disjoint (slot : TimeSlot) (events events' : list Event) :
  (isFree slot events = true
   <-> forall event, In event events ->
         endDate event <= start slot \/ end_ slot <= startDate event)
  /\ findConflicts slot (events ++ events')
     = findConflicts slot events ++ findConflicts slot events'
  /\ isFree slot (events ++ events') = isFree slot events && isFree slot events'.
Proof.
  split; [|split].
  - rewrite isFree_true_iff. split; intros H event Hin; specialize (H event Hin).
    + rewrite hasOverlap_spec in H. simpl in H.
      apply andb_false_iff in H. destruct H as [H|H]; apply Z.ltb_ge in H; auto.
    + rewrite hasOverlap_spec. simpl. apply andb_false_iff.
      destruct H as [H|H]; [left|right]; now apply Z.ltb_ge.
  - unfold findConflicts. apply filter_app.
  - unfold isFree, findConflicts. rewrite filter_app, length_app.
    destruct (List.length (filter _ events)); reflexivity.
Qed.

(** *** Totals *)

Lemma fold_left_total (events : list Event) (acc : Z) :
  fold_left (fun total event => total + (endDate event - startDate event)) events acc
  = acc + calculateTotalDuration events.
Proof.
  unfold calculateTotalDuration. revert acc.
  induction events as [|e l IH]; intros acc; simpl; [lia|].
  rewrite IH, (IH (endDate e - startDate e)). lia.
Qed.

Lemma calculateTotalDuration_cons (event : Event) (events : list Event) :
  calculateTotalDuration (event :: events)
  = (endDate event - startDate event) + calculateTotalDuration events.
Proof.
  unfold calculateTotalDuration at 1. simpl. now rewrite fold_left_total.
Qed.

Lemma calculateTotalDuration_app (events1 events2 : list Event) :
  calculateTotalDuration (events1 ++ events2)
  = calculateTotalDuration events1 + calculateTotalDuration events2.
Proof.
  induction events1 as [|e l IH]; simpl; [reflexivity|].
  rewrite !calculateTotalDuration_cons, IH. lia.
Qed.

Lemma calculateTotalDuration_perm (events1 events2 : list Event) :
  Permutation events1 events2 ->
  calculateTotalDuration events1 = calculateTotalDuration events2.
Proof.
  induction 1; rewrite ?calculateTotalDuration_cons; lia.
Qed.

Lemma calculateTotalDuration_concat (groups : list (list Event)) :
  calculateTotalDuration (List.concat groups)
  = fold_right Z.add 0 (map calculateTotalDuration groups).
Proof.
  induction groups as [|g gs IH]; simpl; [reflexivity|].
  now rewrite calculateTotalDuration_app, IH.
Qed.

(** X5: [calculateTotalDuration] is the sum of end - start over the events:
    it is additive over concatenation, does not depend on the order of the
    events, and counts the time of overlapping events once per event. *)
Theorem X5_calculateTotalDuration_additive (events1 events2 : list Event) :
  calculateTotalDuration (events1 ++ events2)
  = calculateTotalDuration events1 + calculateTotalDuration events2
  /\ calculateTotalDuration events1
     = fold_right Z.add 0 (map (fun event => endDate event - startDate event) events1)
  /\ (Permutation events1 events2 ->
      calculateTotalDuration events1 = calculateTotalDuration events2).
Proof.
  split; [apply calculateTotalDuration_app|]. split.
  - induction events1 as [|e l IH]; [reflexivity|].
    rewrite calculateTotalDuration_cons, IH. reflexivity.
  - apply calculateTotalDuration_perm.
Qed.

Lemma groupEventsByDay_grouping (events : list Event) :
  grouping_of (groupEventsByDay events) events.
Proof.
  change events with ([] ++ events) at 2.
  apply GroupFacts.grouping_fold. repeat split; constructor.
Qed.

(** X6: the daily breakdown adds up: over the groups of [groupEventsByDay]
    the total durations sum to the total duration of all events, the group
    sizes sum to the number of events, and no group is empty. *)
Theorem X6_daily_breakdown_adds_up (events : list Event) :
  let grouped := groupEventsByDay events in
  fold_right Z.add 0 (map calculateTotalDuration (JSMap.values grouped))
  = calculateTotalDuration events
  /\ fold_right Nat.add O (map (@List.length Event) (JSMap.values grouped))
     = List.length events
  /\ Forall (fun dayEvents => dayEvents <> []) (JSMap.values grouped).
Proof.
  intros grouped.
  destruct (groupEventsByDay_grouping events) as [Hnd [Hget Hperm]].
  fold grouped in Hnd, Hget, Hperm.
  split; [|split].
  - rewrite <- calculateTotalDuration_concat. now apply calculateTotalDuration_perm.
  - rewrite <- (Permutation_length Hperm).
    generalize (JSMap.values grouped). intros groups.
    induction groups as [|g gs IH]; simpl; [reflexivity|].
    now rewrite length_app, IH.
  - apply Forall_forall. intros dayEvents Hin. unfold JSMap.values in Hin.
    apply in_map_iff in Hin. destruct Hin as [[k g] [Hg Hin]]. simpl in Hg. subst g.
    apply (JSMapFacts.In_get _ _ _ Hnd) in Hin. rewrite Hget in Hin.
    unfold nonempty in Hin. destruct (filter _ events); [discriminate|].
    injection Hin as <-. discriminate.
Qed.

(** *** The selector on the output of the sweep *)

Lemma findOptimalSlot_member (LocalTZA : Z -> Z) (candidates : list TimeSlot)
    (events : list Event) (preferences : option (list Z)) (slot : TimeSlot) :
  findOptimalSlot LocalTZA candidates events preferences = Some slot ->
  In slot candidates
  /\ isFree slot events = true
  /\ (forall p other,
        preferences = Some p ->
        In other candidates -> isFree other events = true ->
        In (getHours LocalTZA (start other)) p ->
        In (getHours LocalTZA (start slot)) p).
Proof.
  rewrite findOptimalSlot_eq. intros Hres.
  set (free := filter (fun s => isFree s events) candidates) in *.
  assert (Hin : In slot free
    /\ forall p other, preferences = Some p -> In other free ->
         In (getHours LocalTZA (start other)) p ->
         In (getHours LocalTZA (start slot)) p).
  { destruct preferences as [[|h p]|].
    - split; [destruct free; [discriminate|injection Hres as <-; now left]|].
      intros p other Hp _ Hh. injection Hp as <-. destruct Hh.
    - destruct (best _) as [sc|] eqn:Hb; [|discriminate].
      simpl in Hres. injection Hres as <-.
      destruct (best_spec _ _ Hb) as [i [Hi [Hmax _]]].
      rewrite nth_error_map in Hi.
      destruct (nth_error free i) as [s|] eqn:Hs; [|discriminate].
      injection Hi as <-. simpl in *.
      split; [eapply nth_error_In; eassumption|].
      intros q other Hq Hother Hhour. injection Hq as <-.
      destruct (score_values LocalTZA (h :: p) s) as [Hs1 _].
      destruct (score_values LocalTZA (h :: p) other) as [Ho1 _].
      apply Hs1. apply Ho1 in Hhour.
      specialize (Hmax (other, score LocalTZA (h :: p) other)
                    (in_map _ _ _ Hother)).
      simpl in Hmax.
      assert (score LocalTZA (h :: p) s <= 1)
        by (unfold score; destruct (JSArray.includes _ _); lia).
      lia.
    - split; [destruct free; [discriminate|injection Hres as <-; now left]|].
      intros p other Hp. discriminate. }
  destruct Hin as [Hin Hpref].
  apply filter_In in Hin. destruct Hin as [Hc Hf].
  split; [exact Hc|]. split; [exact Hf|].
  intros p other Hp Hother Hfree. apply (Hpref p other Hp).
  apply filter_In. now split.
Qed.

(** X7: a slot returned by [findOptimalSlot] is one of the candidates and
    is free against the events; and when some free candidate starts at a
    preferred local hour, so does the slot returned. *)
Theorem X7_findOptimalSlot_result (LocalTZA : Z -> Z) (candidates : list TimeSlot)
    (events : list Event) (preferences : option (list Z)) (slot : TimeSlot) :
  findOptimalSlot LocalTZA candidates events preferences = Some slot ->
  In slot candidates
  /\ isFree slot events = true
  /\ (forall p other,
        preferences = Some p ->
        In other candidates -> isFree other events = true ->
        In (getHours LocalTZA (start other)) p ->
        In (getHours LocalTZA (start slot)) p).
Proof. apply findOptimalSlot_member. Qed.

(** X8: when [findOptimalSlot] is given the output of [findFreeSlots] for
    the same events, as the suggest-optimal-time tool does, its defensive
    filter keeps every candidate; it returns none exactly when the sweep
    found nothing; without preferences it returns the first slot of the
    sweep; and whatever it returns starts in the window and ends at the
    Date built from start + duration, no later than the end of the window
    when that is a valid date, and exactly a duration of whole
    milliseconds after its start. *)
Theorem X8_suggest_optimal_time_from_sweep (LocalTZA : Z -> Z)
    (startDate_ endDate_ : Z) (duration : spec_float) (events : list Event)
    (businessHoursOnly : bool) (preferences : option (list Z)) :
  let candidates :=
    findFreeSlots LocalTZA startDate_ endDate_ duration events businessHoursOnly in
  let optimal := findOptimalSlot LocalTZA candidates events preferences in
  filter (fun slot => isFree slot events) candidates = candidates
  /\ (optimal = None <-> candidates = [])
  /\ (preferences = None \/ preferences = Some [] -> optimal = hd_error candidates)
  /\ (forall slot, optimal = Some slot ->
        startDate_ <= start slot
        /\ end_ slot = newDate (Double.add (getTime (start slot)) duration)
        /\ (isTimeValue (end_ slot) = true -> end_ slot <= endDate_)
        /\ (forall d, duration = Double.ofZ d -> 0 <= d -> maxTime + d < 2 ^ 53 ->
              start slot + d <= endDate_ /\ end_ slot = start slot + d)).
Proof.
  intros candidates optimal.
  assert (Hfree : filter (fun slot => isFree slot events) candidates = candidates).
  { apply filter_all. intros slot Hin. unfold candidates in Hin.
    now destruct (findFreeSlots_sound _ _ _ _ _ _ _ Hin) as [Hf _]. }
  assert (Hopt : optimal =
    match preferences with
    | Some (h :: p) =>
        option_map fst
          (best (map (fun slot => (slot, score LocalTZA (h :: p) slot)) candidates))
    | _ => hd_error candidates
    end).
  { unfold optimal. rewrite findOptimalSlot_eq. now rewrite Hfree. }
  split; [exact Hfree|]. split; [|split].
  - rewrite Hopt. destruct preferences as [[|h p]|];
      try (destruct candidates; simpl; split; congruence).
    destruct (best _) as [sc|] eqn:Hb; simpl.
    + split; [discriminate|]. intros Hnil. rewrite Hnil in Hb. discriminate.
    + apply best_none, map_eq_nil in Hb. split; auto.
  - rewrite Hopt. intros [-> | ->]; reflexivity.
  - intros slot Hslot.
    assert (Hin : In slot candidates).
    { unfold optimal in Hslot.
      now apply (findOptimalSlot_member LocalTZA _ _ _ _ Hslot). }
    unfold candidates in Hin.
    destruct (findFreeSlots_sound _ _ _ _ _ _ _ Hin) as (_ & Hstart & Hfit & Hc & _).
    split; [exact Hstart|]. split; [rewrite Hc at 1; reflexivity|]. split.
    + intros Hvalid. rewrite Hc in Hvalid |- *. simpl in Hvalid |- *.
      apply newDate_le; assumption.
    + intros d -> Hd Hsafe.
      destruct (candidate_fits_whole_ms _ _ _ Hd Hsafe Hfit) as [Hle Hcd].
      split; [exact Hle|]. rewrite Hc, Hcd. reflexivity.
Qed.

(** *** Density over a forward period *)

Lemma density_forward_period (events : list Event) (startDate_ endDate_ : Z) :
  startDate_ < endDate_ ->
  let count := Z.of_nat (List.length events) in
  let days := - ((startDate_ - endDate_) / msPerDay) in
  1 <= days
  /\ exists q,
       calculateMeetingDensity events startDate_ endDate_
       = (if count =? 0 then JSNumber.Finite 0 else JSNumber.Finite q)
       /\ (q == inject_Z count / inject_Z days)%Q
       /\ (0 <= q <= inject_Z count)%Q.
Proof.
  intros Hlt count days.
  assert (Hm : 0 < msPerDay) by reflexivity.
  pose proof (Z.mul_div_le (startDate_ - endDate_) msPerDay Hm) as Hlo.
  pose proof (Z.mul_succ_div_gt (startDate_ - endDate_) msPerDay Hm) as Hhi.
  assert (Hdays : 1 <= days) by (unfold days; nia).
  split; [exact Hdays|].
  exists (inject_Z count / inject_Z days)%Q.
  assert (Hcount : 0 <= count) by (unfold count; lia).
  split; [|split; [reflexivity|]].
  - unfold calculateMeetingDensity. rewrite days_between_cases.
    replace (endDate_ - startDate_ <? 0) with false by (symmetry; apply Z.ltb_ge; lia).
    cbn [andb]. fold days. fold count.
    unfold JSNumber.div.
    unfold JSNumber.ofZ at 1 2.
    fold (JSNumber.ofZ count). fold (JSNumber.ofZ days).
    rewrite !isZero_ofZ, !isNegative_ofZ.
    destruct (Z.eqb_spec days 0); [lia|].
    destruct (Z.eqb_spec count 0) as [Hc|Hc]; [|reflexivity].
    destruct (Z.ltb_spec count 0), (Z.ltb_spec days 0); try lia. reflexivity.
  - destruct days as [|d|d] eqn:Hd; try lia.
    unfold Qle, Qdiv, Qmult, Qinv, inject_Z. simpl. split; nia.
Qed.

(** X9: over a period that runs forward (start before end) the number of
    days is at least 1 and [calculateMeetingDensity] is a finite number: +0
    for no events, otherwise the quotient of the number of events by the
    number of days, which lies between 0 and the number of events. *)
Theorem X9_calculateMeetingDensity_forward_period (events : list Event)
    (startDate_ endDate_ : Z) :
  startDate_ < endDate_ ->
  let count := Z.of_nat (List.length events) in
  let days := - ((startDate_ - endDate_) / msPerDay) in
  1 <= days
  /\ exists q,
       calculateMeetingDensity events startDate_ endDate_
       = (if count =? 0 then JSNumber.Finite 0 else JSNumber.Finite q)
       /\ (q == inject_Z count / inject_Z days)%Q
       /\ (0 <= q <= inject_Z count)%Q.
Proof. apply density_forward_period. Qed.

End SweepFacts.

(** ** Date ranges *)

Module DateParserFacts.
Import JSDate JSString Scheduling EventOps DateParser SweepFacts.

Section Parse.
Variable parseDate : string -> option Z -> option Z.

Lemma parseDateRange_start_before_end (startInput : string) (endInput : option string)
    (defaultDuration : option Z) (start_ end__ : Z) :
  parseDateRange parseDate startInput endInput defaultDuration = Normal (start_, end__) ->
  start_ < end__
  /\ parseDate startInput None = Some start_
  /\ match endInput with
     | Some (String a text) => parseDate (String a text) (Some start_) = Some end__
     | _ => end__ = start_ + match defaultDuration with
                             | Some d => d
                             | None => msPerHour
                             end
     end.
Proof.
  unfold parseDateRange, parseDateTime.
  destruct (parseDate startInput None) as [s|]; [|discriminate].
  destruct endInput as [[|a text]|]; simpl.
  - destruct (_ <=? s) eqn:Hle; [discriminate|]. intros H. injection H as <- <-.
    apply Z.leb_gt in Hle.
    split; [lia|]. split; [reflexivity|]. destruct defaultDuration; reflexivity.
  - destruct (parseDate (String a text) (Some s)) as [e|] eqn:He; [|discriminate].
    destruct (e <=? s) eqn:Hle; [discriminate|]. intros H. injection H as <- <-.
    apply Z.leb_gt in Hle.
    split; [lia|]. split; [reflexivity|exact He].
  - destruct (_ <=? s) eqn:Hle; [discriminate|]. intros H. injection H as <- <-.
    apply Z.leb_gt in Hle.
    split; [lia|]. split; [reflexivity|]. destruct defaultDuration; reflexivity.
Qed.

(** X10: a range returned by [parseDateRange] always has its start
    strictly before its end; the start is what the parser makes of the
    start text, and the end is what it makes of a non-empty end text, read
    relative to the start, or else the start plus the default duration
    (one hour when none is given). *)
Theorem X10_parseDateRange_ordered (startInput : string) (endInput : option string)
    (defaultDuration : option Z) (start_ end__ : Z) :
  parseDateRange parseDate startInput endInput defaultDuration = Normal (start_, end__) ->
  start_ < end__
  /\ parseDate startInput None = Some start_
  /\ match endInput with
     | Some (String a text) => parseDate (String a text) (Some start_) = Some end__
     | _ => end__ = start_ + match defaultDuration with
                             | Some d => d
                             | None => msPerHour
                             end
     end.
Proof. apply parseDateRange_start_before_end. Qed.

(** X11: without an end text (absent or empty) [parseDateRange] returns the
    start and the start plus the default duration when that duration is
    positive, and throws "End date must be after start date" when it is
    zero or negative. *)
Theorem X11_parseDateRange_default_end (startInput : string) (endInput : option string)
    (duration start_ : Z) :
  endInput = None \/ endInput = Some EmptyString ->
  parseDate startInput None = Some start_ ->
  parseDateRange parseDate startInput endInput (Some duration)
  = if 0 <? duration then Normal (start_, start_ + duration)
    else Throw "End date must be after start date".
Proof.
  intros Hend Hstart. unfold parseDateRange, parseDateTime. rewrite Hstart.
  replace (match endInput with
           | Some text => if truthy text then _ else Normal (start_ + duration)
           | None => Normal (start_ + duration)
           end) with (@Normal Z (start_ + duration))
    by (destruct Hend as [-> | ->]; reflexivity).
  destruct (Z.leb_spec (start_ + duration) start_), (Z.ltb_spec 0 duration);
    try reflexivity; lia.
Qed.

(** X12: over any range returned by [parseDateRange], as the
    analyze-schedule tool computes it, [calculateMeetingDensity] is a
    finite number between 0 and the number of events: the division by zero
    days cannot occur. *)
Theorem X12_analyze_schedule_density_finite (startInput : string)
    (endInput : option string) (defaultDuration : option Z) (start_ end__ : Z)
    (events : list Event) :
  parseDateRange parseDate startInput endInput defaultDuration = Normal (start_, end__) ->
  exists q,
    JSNumber.toQ (calculateMeetingDensity events start_ end__) = Some q
    /\ (0 <= q <= inject_Z (Z.of_nat (List.length events)))%Q.
Proof.
  intros Hrange. apply parseDateRange_start_before_end in Hrange.
  destruct Hrange as [Hlt _].
  destruct (density_forward_period events start_ end__ Hlt) as [_ [q [Hd [_ Hq]]]].
  rewrite Hd. destruct (_ =? 0) eqn:Hc.
  - exists 0%Q. split; [reflexivity|]. split; [apply Qle_refl|].
    unfold Qle, inject_Z. simpl. lia.
  - exists q. split; [reflexivity|exact Hq].
Qed.
End Parse.

End DateParserFacts.

(** ** The AppleScript bridge *)

Module BridgeFacts.
Import JSDate JSString Scheduling Bridge.
Local Open Scope string_scope.

Lemma string_app_assoc (a b c : string) : (a ++ b) ++ c = a ++ (b ++ c).
Proof. induction a; simpl; congruence. Qed.

(** The two passes amount to one pass over the characters. *)
Lemma escapeAppleScriptString_cons (a : ascii) (s : string) :
  escapeAppleScriptString (String a s)
  = (if Ascii.eqb a backslash then String backslash (String backslash EmptyString)
     else if Ascii.eqb a dquote then String backslash (String dquote EmptyString)
     else String a EmptyString)
    ++ escapeAppleScriptString s.
Proof.
  unfold escapeAppleScriptString. simpl.
  destruct (Ascii.eqb a backslash) eqn:Hb.
  - reflexivity.
  - simpl. destruct (Ascii.eqb a dquote); reflexivity.
Qed.

Lemma readLiteral_escape (s rest : string) :
  readLiteral (escapeAppleScriptString s ++ String dquote rest) = Some (s, rest).
Proof.
  induction s as [|a s IH].
  - reflexivity.
  - rewrite escapeAppleScriptString_cons.
    destruct (Ascii.eqb a backslash) eqn:Hb.
    + apply Ascii.eqb_eq in Hb. subst a. simpl. now rewrite IH.
    + destruct (Ascii.eqb a dquote) eqn:Hq.
      * apply Ascii.eqb_eq in Hq. subst a. simpl. now rewrite IH.
      * simpl. rewrite Hq, Hb. now rewrite IH.
Qed.

(** X13: a string escaped by [escapeAppleScriptString] and put between
    double quotes is read back as that very string, the literal ending at
    the closing quote: no quote or backslash of the input can end the
    literal early. In particular the escaping is injective. *)
Theorem X13_escape_roundtrip (s rest : string) :
  readLiteral (escapeAppleScriptString s ++ String dquote rest) = Some (s, rest)
  /\ (forall s', escapeAppleScriptString s = escapeAppleScriptString s' -> s = s').
Proof.
  split; [apply readLiteral_escape|].
  intros s' Heq.
  pose proof (readLiteral_escape s EmptyString) as H1.
  pose proof (readLiteral_escape s' EmptyString) as H2.
  rewrite Heq in H1. congruence.
Qed.

Example escapeAppleScriptString_sample :
  escapeAppleScriptString
    (String "a" (String dquote (String backslash (String "b" EmptyString))))
  = String "a" (String backslash (String dquote
      (String backslash (String backslash (String "b" EmptyString))))).
Proof. reflexivity. Qed.

(** *** The calendar date of a time value is in range *)

Lemma day_of_year_range (doe : Z) :
  0 <= doe < 146097 ->
  0 <= doe - (365 * ((doe - doe / 1460 + doe / 36524 - doe / 146096) / 365)
              + ((doe - doe / 1460 + doe / 36524 - doe / 146096) / 365) / 4
              - ((doe - doe / 1460 + doe / 36524 - doe / 146096) / 365) / 100) <= 365.
Proof. intros H. Z.div_mod_to_equations. lia. Qed.

Lemma month_of_day_of_year (doy : Z) :
  0 <= doy <= 365 ->
  0 <= (5 * doy + 2) / 153 <= 11
  /\ 1 <= doy - (153 * ((5 * doy + 2) / 153) + 2) / 5 + 1 <= 31.
Proof. intros H. Z.div_mod_to_equations. lia. Qed.

Lemma month_day_range (t : Z) :
  1 <= MonthFromTime t <= 12 /\ 1 <= DateFromTime t <= 31.
Proof.
  unfold MonthFromTime, DateFromTime, civil_from_days. cbv zeta. cbn [fst snd].
  set (z := Day t + 719468).
  assert (Hdoe : 0 <= z - z / 146097 * 146097 < 146097)
    by (Z.div_mod_to_equations; lia).
  pose proof (day_of_year_range _ Hdoe) as Hdoy.
  pose proof (month_of_day_of_year _ Hdoy) as [Hmp Hd].
  split; [|exact Hd].
  destruct (_ <? 10)%Z eqn:E; [apply Z.ltb_lt in E|apply Z.ltb_ge in E]; lia.
Qed.

Example formatDateForAppleScript_sample :
  formatDateForAppleScript (fun _ => 0%Z) 1709210096789
  = "Thursday, February 29, 2024 at 12:34:56 PM".
Proof. vm_compute. reflexivity. Qed.

Example formatDateForAppleScript_midnight :
  formatDateForAppleScript (fun _ => (-5 * msPerHour)%Z) 1709183096789
  = "Thursday, February 29, 2024 at 12:04:56 AM".
Proof. vm_compute. reflexivity. Qed.

Lemma two_digits (m : Z) :
  (0 <= m < 60)%Z -> padStart 2 "0" (numberToString m) = pad 2 m.
Proof.
  intros H.
  assert (Hall : forallb (fun k => String.eqb (padStart 2 "0" (numberToString k)) (pad 2 k))
                   (map Z.of_nat (seq 0 60)) = true) by (vm_compute; reflexivity).
  rewrite forallb_forall in Hall. apply String.eqb_eq, Hall.
  apply in_map_iff. exists (Z.to_nat m). split; [lia|]. apply in_seq. lia.
Qed.

Lemma displayHours_spec (hours : Z) :
  (0 <= hours < 24)%Z ->
  (1 <= displayHours hours <= 12)%Z
  /\ hours = (displayHours hours mod 12 + (if (hours >=? 12)%Z then 12 else 0))%Z.
Proof.
  intros H. unfold displayHours. rewrite Z.rem_mod_nonneg by lia.
  destruct (Z.eqb_spec (hours mod 12) 0) as [E|E];
    destruct (Z.geb_spec hours 12); Z.div_mod_to_equations; lia.
Qed.

(** X14: [formatDateForAppleScript] always finds a day name and a month
    name (its two table lookups are in range, so "undefined" is never
    printed), prints minutes and seconds with two digits, and shows the
    hour on a 12-hour clock: the hour shown is between 1 and 12 and, with
    the AM/PM mark, determines the hour of the day. *)
Theorem X14_formatDateForAppleScript_shape (LocalTZA : Z -> Z) (date : Z) :
  let hours := getHours LocalTZA date in
  exists dayName monthName,
    nth_error days (Z.to_nat (getDay LocalTZA date)) = Some dayName
    /\ nth_error months (Z.to_nat (getMonth LocalTZA date)) = Some monthName
    /\ formatDateForAppleScript LocalTZA date
       = dayName ++ ", " ++ monthName ++ " " ++ numberToString (getDate LocalTZA date)
         ++ ", " ++ numberToString (getFullYear LocalTZA date)
         ++ " at " ++ numberToString (displayHours hours)
         ++ ":" ++ pad 2 (getMinutes LocalTZA date)
         ++ ":" ++ pad 2 (getSeconds LocalTZA date)
         ++ " " ++ ampm hours
    /\ (1 <= displayHours hours <= 12)%Z
    /\ hours = (displayHours hours mod 12 + (if (hours >=? 12)%Z then 12 else 0))%Z
    /\ (ampm hours = "PM" <-> (12 <= hours)%Z).
Proof.
  intros hours.
  assert (Hday : (0 <= getDay LocalTZA date < 7)%Z)
    by (unfold getDay, WeekDay; apply Z.mod_pos_bound; lia).
  assert (Hmonth : (0 <= getMonth LocalTZA date < 12)%Z)
    by (unfold getMonth; pose proof (month_day_range (LocalTime LocalTZA date)); lia).
  assert (Hhours : (0 <= hours < 24)%Z)
    by (unfold hours, getHours, HourFromTime; apply Z.mod_pos_bound; lia).
  assert (Hmin : (0 <= getMinutes LocalTZA date < 60)%Z)
    by (unfold getMinutes, MinFromTime; apply Z.mod_pos_bound; lia).
  assert (Hsec : (0 <= getSeconds LocalTZA date < 60)%Z)
    by (unfold getSeconds, SecFromTime; apply Z.mod_pos_bound; lia).
  destruct (nth_error days (Z.to_nat (getDay LocalTZA date))) as [dayName|] eqn:Ed.
  2:{ apply nth_error_None in Ed. simpl in Ed. lia. }
  destruct (nth_error months (Z.to_nat (getMonth LocalTZA date))) as [monthName|] eqn:Em.
  2:{ apply nth_error_None in Em. simpl in Em. lia. }
  exists dayName, monthName.
  split; [reflexivity|]. split; [reflexivity|]. split.
  - unfold formatDateForAppleScript, element. fold hours.
    replace (getDay LocalTZA date <? 0)%Z with false by (symmetry; apply Z.ltb_ge; lia).
    replace (getMonth LocalTZA date <? 0)%Z with false by (symmetry; apply Z.ltb_ge; lia).
    rewrite Ed, Em. now rewrite !two_digits by assumption.
  - destruct (displayHours_spec hours Hhours) as [H1 H2].
    split; [exact H1|]. split; [exact H2|].
    unfold ampm. destruct (Z.geb_spec hours 12); split; intros; try lia; try reflexivity.
    discriminate.
Qed.

End BridgeFacts.

(** ** Formatting a duration *)

Module FormattersFacts.
Import Bridge Formatters.
Local Open Scope string_scope.

Example formatDuration_samples :
  formatDuration 5400000 = "1 hour 30 minutes"
  /\ formatDuration 7200000 = "2 hours"
  /\ formatDuration 60000 = "1 minute"
  /\ formatDuration 3660000 = "1 hour 1 minute".
Proof. vm_compute. repeat split; reflexivity. Qed.

Lemma duration_parts (milliseconds : Z) :
  (0 <= milliseconds)%Z ->
  (durationHours milliseconds = milliseconds / 3600000
   /\ durationMinutes milliseconds = (milliseconds / 60000) mod 60)%Z.
Proof.
  intros H. unfold durationHours, durationMinutes.
  rewrite Z.rem_mod_nonneg by lia.
  split; [reflexivity|].
  change (60 * 60 * 1000)%Z with 3600000%Z. change (60 * 1000)%Z with 60000%Z.
  Z.div_mod_to_equations. lia.
Qed.

(** X15: for a duration that is not negative [formatDuration] prints whole
    hours and minutes, truncating: the hours and minutes printed add up to
    the whole minutes of the duration, the minutes stay below 60, and the
    text is that of the duration cut down to whole minutes. *)
Theorem X15_formatDuration_whole_minutes (milliseconds : Z) :
  (0 <= milliseconds)%Z ->
  (durationHours milliseconds * 60 + durationMinutes milliseconds
   = milliseconds / 60000)%Z
  /\ (0 <= durationMinutes milliseconds < 60)%Z
  /\ formatDuration milliseconds = formatDuration (milliseconds / 60000 * 60000).
Proof.
  intros H.
  destruct (duration_parts milliseconds H) as [Hh Hm].
  assert (H' : (0 <= milliseconds / 60000 * 60000)%Z)
    by (Z.div_mod_to_equations; lia).
  destruct (duration_parts _ H') as [Hh' Hm'].
  split; [rewrite Hh, Hm; Z.div_mod_to_equations; lia|].
  split; [rewrite Hm; apply Z.mod_pos_bound; lia|].
  unfold formatDuration.
  assert (E1 : durationHours (milliseconds / 60000 * 60000) = durationHours milliseconds)
    by (rewrite Hh, Hh'; Z.div_mod_to_equations; lia).
  assert (E2 : durationMinutes (milliseconds / 60000 * 60000) = durationMinutes milliseconds)
    by (rewrite Hm, Hm'; f_equal; Z.div_mod_to_equations; lia).
  now rewrite E1, E2.
Qed.

(** X16: a duration under one minute prints as "0 minutes"; a negative
    one of less than a minute prints as "-1 hours -1 minutes", the two
    roundings going opposite ways. *)
Theorem X16_formatDuration_edges (milliseconds : Z) :
  ((0 <= milliseconds < 60000)%Z -> formatDuration milliseconds = "0 minutes")
  /\ ((-60000 < milliseconds < 0)%Z -> formatDuration milliseconds = "-1 hours -1 minutes").
Proof.
  split; intros H; unfold formatDuration.
  - destruct (duration_parts milliseconds) as [Hh Hm]; [lia|].
    replace (durationHours milliseconds) with 0%Z
      by (rewrite Hh; Z.div_mod_to_equations; lia).
    replace (durationMinutes milliseconds) with 0%Z
      by (rewrite Hm; Z.div_mod_to_equations; lia).
    reflexivity.
  - replace (durationHours milliseconds) with (-1)%Z
      by (unfold durationHours; Z.div_mod_to_equations; lia).
    replace (durationMinutes milliseconds) with (-1)%Z.
    + reflexivity.
    + unfold durationMinutes.
      assert (Hr : Z.rem milliseconds (60 * 60 * 1000) = milliseconds)
        by (apply Z.rem_small_iff; lia).
      rewrite Hr. Z.div_mod_to_equations. lia.
Qed.
End FormattersFacts.

(** ** Keyword search *)

Module EventSearchFacts.
Import Scheduling EventOps EventSearch.
Local Open Scope string_scope.

Lemma prefix_toLowerCase (t s : string) :
  String.prefix t s = true -> String.prefix (toLowerCase t) (toLowerCase s) = true.
Proof.
  revert s. induction t as [|a t IH]; intros s; simpl; [now destruct s|].
  destruct s as [|b s]; simpl; [discriminate|].
  destruct (ascii_dec a b) as [->|Hne]; [|discriminate].
  intros H. destruct (ascii_dec _ _) as [_|Hne]; [now apply IH|now elim Hne].
Qed.

Lemma includes_toLowerCase (s t : string) :
  includes s t = true -> includes (toLowerCase s) (toLowerCase t) = true.
Proof.
  induction s as [|a s IH]; simpl; intros H; apply orb_true_iff in H;
    apply orb_true_iff.
  - destruct H as [H|H]; [left|discriminate].
    now apply (prefix_toLowerCase t EmptyString).
  - destruct H as [H|H]; [left|right; now apply IH].
    now apply (prefix_toLowerCase t (String a s)).
Qed.

Lemma includes_empty (s : string) : includes s EmptyString = true.
Proof. destruct s; reflexivity. Qed.

Example includes_samples :
  includes "Team meeting" "meet" = true
  /\ includes "Team meeting" "Meet" = false
  /\ includes "" "" = true
  /\ includes "ab" "abc" = false
  /\ toLowerCase "Team MEETING" = "team meeting".
Proof. repeat split; reflexivity. Qed.

Lemma matchesTerm_empty (event : Event) : matchesTerm EmptyString event = true.
Proof. unfold matchesTerm. now rewrite includes_empty. Qed.

Section Search.
Variable RRule : Type.
Variable rrulestr : string -> Completion RRule.
Variable between : RRule -> Z -> Z -> bool -> Completion (list Z).
Variables (startDate_ endDate_ : Z) (rows : list Row).

(** X17: with the empty keyword [searchEvents] returns every event of
    [listAllEvents]. *)
Theorem X17_searchEvents_empty_keyword :
  searchEvents RRule rrulestr between startDate_ endDate_ EmptyString rows
  = listAllEvents RRule rrulestr between startDate_ endDate_ rows.
Proof.
  unfold searchEvents.
  destruct (listAllEvents _ _ _ _ _ _) as [allEvents|e]; [|reflexivity].
  f_equal. simpl. induction allEvents as [|ev l IH]; simpl; [reflexivity|].
  now rewrite matchesTerm_empty, IH.
Qed.

(** X18: the search ignores case: an event of [listAllEvents] whose
    summary, location or description contains the keyword, written in any
    casing, is among the events [searchEvents] returns; and everything
    returned is an event of [listAllEvents]. *)
Theorem X18_searchEvents_case_insensitive (keyword variant : string)
    (allEvents : list Event) (event : Event) :
  listAllEvents RRule rrulestr between startDate_ endDate_ rows = Normal allEvents ->
  In event allEvents ->
  toLowerCase variant = toLowerCase keyword ->
  includes (summary event) variant = true
  \/ (exists l, location event = Some l /\ includes l variant = true)
  \/ (exists d, description event = Some d /\ includes d variant = true) ->
  exists found,
    searchEvents RRule rrulestr between startDate_ endDate_ keyword rows = Normal found
    /\ In event found
    /\ (forall ev, In ev found -> In ev allEvents).
Proof.
  intros Hall Hin Hcase Hhit. unfold searchEvents. rewrite Hall.
  eexists. split; [reflexivity|]. split.
  - apply filter_In. split; [exact Hin|]. unfold matchesTerm. rewrite <- Hcase.
    destruct Hhit as [H|[[l [-> H]]|[d [-> H]]]];
      apply includes_toLowerCase in H; rewrite H;
      rewrite ?orb_true_r; reflexivity.
  - intros ev Hev. now apply filter_In in Hev.
Qed.
End Search.
End EventSearchFacts.

(** ** Listing events *)

Module ListingFacts.
Import JSDate JSString Scheduling EventOps EventOpsFacts KeyFacts BridgeFacts.
Local Open Scope Z_scope.

Lemma for_of_appending {A : Type} (body : A -> M unit) (out : A -> list Event) :
  (forall x st, fst (body x st) = Normal tt
                /\ events (snd (body x st)) = events st ++ out x) ->
  forall items st,
    fst (for_of items body st) = Normal tt
    /\ events (snd (for_of items body st)) = events st ++ flat_map out items.
Proof.
  intros Hbody. induction items as [|x items IH]; intros st; simpl.
  - split; [reflexivity|now rewrite app_nil_r].
  - unfold bind. destruct (Hbody x st) as [Hn Ha].
    destruct (body x st) as [[[]|e] st']; simpl in *; [|discriminate].
    destruct (IH st') as [IH1 IH2].
    split; [exact IH1|]. now rewrite IH2, Ha, <- app_assoc.
Qed.

Section Listing.
Variable RRule : Type.
Variable rrulestr : string -> Completion RRule.
Variable between : RRule -> Z -> Z -> bool -> Completion (list Z).
Variables (queryStartDate queryEndDate : Z).

(** What one line contributes under the calendar name [cal]. *)
Let out (cal : string) (row : Row) : list Event :=
  events (snd (processRow RRule rrulestr between cal queryStartDate queryEndDate row
                 {| events := []; stderr := [] |})).

Lemma processRow_out (cal : string) (row : Row) (st : State) :
  fst (processRow RRule rrulestr between cal queryStartDate queryEndDate row st)
  = Normal tt
  /\ events (snd (processRow RRule rrulestr between cal queryStartDate queryEndDate row st))
     = events st ++ out cal row.
Proof.
  split; [apply processRow_normal|apply processRow_appends].
Qed.

Lemma listEvents_out (cal : string) (rows : list Row) :
  listEvents RRule rrulestr between cal queryStartDate queryEndDate rows
  = Normal (flat_map (out cal) rows).
Proof.
  unfold listEvents, returning.
  destruct (for_of_appending _ (out cal) (processRow_out cal) rows
              {| events := []; stderr := [] |}) as [H1 H2].
  destruct (for_of rows _ _) as [[[]|e] st]; simpl in *;
    [now rewrite H2 | discriminate].
Qed.

Lemma listAllEvents_out (rows : list Row) :
  listAllEvents RRule rrulestr between queryStartDate queryEndDate rows
  = Normal (flat_map (fun row => out (or_empty (row_calendar row)) row) rows).
Proof.
  unfold listAllEvents, returning.
  destruct (for_of_appending
              (fun row => processRow RRule rrulestr between (or_empty (row_calendar row))
                            queryStartDate queryEndDate row)
              (fun row => out (or_empty (row_calendar row)) row)
              (fun row st => processRow_out (or_empty (row_calendar row)) row st)
              rows {| events := []; stderr := [] |}) as [H1 H2].
  destruct (for_of rows _ _) as [[[]|e] st]; simpl in *;
    [now rewrite H2 | discriminate].
Qed.

(** Every event a line contributes is the line's own record moved to some
    start, and kept at its own start, inside the window, when the line has
    no rule. *)
Lemma out_shape (cal : string) (row : Row) (event : Event) :
  In event (out cal row) ->
  exists start_,
    event = makeEvent cal row start_ (start_ + (row_endDate row - row_startDate row))
    /\ (hasRecurrence (row_recurrence row) = false ->
        start_ = row_startDate row /\ queryStartDate <= start_ <= queryEndDate).
Proof.
  unfold out. set (st0 := {| events := []; stderr := [] |}).
  assert (Hbase : makeEvent cal row (row_startDate row) (row_endDate row)
                  = makeEvent cal row (row_startDate row)
                      (row_startDate row + (row_endDate row - row_startDate row)))
    by (f_equal; lia).
  destruct (hasRecurrence (row_recurrence row)) eqn:Hrec.
  - destruct (rrulestr (ruleText (row_startDate row) (or_empty (row_recurrence row))))
      as [rule|e] eqn:Hparse.
    + destruct (between rule queryStartDate queryEndDate true) as [starts|e] eqn:Hb.
      * rewrite (processRow_expanded _ _ _ _ _ _ row st0 rule starts) by assumption.
        simpl. intros Hin. apply in_map_iff in Hin. destruct Hin as [t [<- _]].
        exists t. split; [reflexivity|discriminate].
      * destruct (processRow_fallback RRule rrulestr between cal queryStartDate
                    queryEndDate row st0 Hrec) as [e' ->].
        { unfold ruleFails. now rewrite Hparse, Hb. }
        simpl. intros [<-|[]]. exists (row_startDate row). split; [exact Hbase|discriminate].
    + destruct (processRow_fallback RRule rrulestr between cal queryStartDate
                  queryEndDate row st0 Hrec) as [e' ->].
      { unfold ruleFails. now rewrite Hparse. }
      simpl. intros [<-|[]]. exists (row_startDate row). split; [exact Hbase|discriminate].
  - rewrite processRow_plain by assumption. simpl.
    destruct (_ && _) eqn:Hw; simpl; [|intros []].
    apply andb_true_iff in Hw. destruct Hw as [Hlo Hhi].
    apply Z.geb_le in Hlo. apply Z.leb_le in Hhi.
    intros [<-|[]]. exists (row_startDate row). split; [exact Hbase|]. intros _. lia.
Qed.

(** X19: [listEvents] never throws, whatever the recurrence library does,
    and every event it returns comes from one of the lines: it carries the
    calendar name asked for, the uid and summary of the line, its location
    and description when they are not empty, and lasts as long as the
    line's own event; an event from a line without a rule keeps the line's
    start, which lies in the query window. *)
Theorem X19_listEvents_provenance (calendar_ : string) (rows : list Row) :
  exists found,
    listEvents RRule rrulestr between calendar_ queryStartDate queryEndDate rows
    = Normal found
    /\ forall event, In event found ->
         exists row,
           In row rows
           /\ calendar event = Some calendar_
           /\ uid event = or_empty (row_uid row)
           /\ summary event = or_empty (row_summary row)
           /\ location event = optional_field (row_location row)
           /\ description event = optional_field (row_description row)
           /\ endDate event - startDate event = row_endDate row - row_startDate row
           /\ (hasRecurrence (row_recurrence row) = false ->
               startDate event = row_startDate row
               /\ queryStartDate <= startDate event <= queryEndDate).
Proof.
  rewrite listEvents_out. eexists. split; [reflexivity|].
  intros event Hin. apply in_flat_map in Hin. destruct Hin as [row [Hrow Hev]].
  apply out_shape in Hev. destruct Hev as [s [-> Hplain]].
  exists row. simpl. split; [assumption|].
  do 5 (split; [reflexivity|]). split; [lia|].
  intros Hrec. destruct (Hplain Hrec) as [Hs Hw]. split; [exact Hs|exact Hw].
Qed.

(** X20: [listAllEvents] never throws, and every event it returns comes
    from one of the lines, carries the calendar name, uid and summary of
    that line and lasts as long as the line's own event. *)
Theorem X20_listAllEvents_provenance (rows : list Row) :
  exists found,
    listAllEvents RRule rrulestr between queryStartDate queryEndDate rows = Normal found
    /\ forall event, In event found ->
         exists row,
           In row rows
           /\ calendar event = Some (or_empty (row_calendar row))
           /\ uid event = or_empty (row_uid row)
           /\ summary event = or_empty (row_summary row)
           /\ endDate event - startDate event = row_endDate row - row_startDate row.
Proof.
  rewrite listAllEvents_out. eexists. split; [reflexivity|].
  intros event Hin. apply in_flat_map in Hin. destruct Hin as [row [Hrow Hev]].
  apply out_shape in Hev. destruct Hev as [s [-> _]].
  exists row. simpl. split; [assumption|].
  do 3 (split; [reflexivity|]). lia.
Qed.

(** X21: when no line has a recurrence rule, [listEvents] returns, in the
    order of the lines, exactly the events of the lines whose start lies in
    the query window, both bounds included. *)
Theorem X21_listEvents_plain_rows (calendar_ : string) (rows : list Row) :
  (forall row, In row rows -> hasRecurrence (row_recurrence row) = false) ->
  listEvents RRule rrulestr between calendar_ queryStartDate queryEndDate rows
  = Normal
      (map (fun row => makeEvent calendar_ row (row_startDate row) (row_endDate row))
         (filter (fun row => (queryStartDate <=? row_startDate row)
                             && (row_startDate row <=? queryEndDate)) rows)).
Proof.
  intros Hplain. rewrite listEvents_out. f_equal.
  induction rows as [|row rows IH]; simpl; [reflexivity|].
  rewrite IH by (intros r Hr; apply Hplain; now right).
  unfold out at 1. rewrite processRow_plain by (apply Hplain; now left).
  rewrite Z.geb_leb. simpl.
  destruct (_ && _); reflexivity.
Qed.
End Listing.

(** *** The text handed to the recurrence library *)

Lemma remove_chars_app (p : ascii -> bool) (s r : string) :
  remove_chars p (s ++ r) = (remove_chars p s ++ remove_chars p r)%string.
Proof.
  induction s as [|a s IH]; simpl; [reflexivity|].
  destruct (p a); simpl; now rewrite IH.
Qed.

Lemma remove_chars_pad (p : ascii -> bool) (n : nat) (v : Z) :
  forallb (fun a => negb (p a)) digits = true ->
  remove_chars p (pad n v) = pad n v.
Proof.
  intros H. revert v. induction n as [|n IH]; intros v; simpl; [reflexivity|].
  rewrite remove_chars_app, IH. simpl.
  rewrite forallb_forall in H.
  pose proof (H _ (digit_in (v mod 10))) as Hd. apply negb_true_iff in Hd.
  now rewrite Hd.
Qed.

(** X22: for a start in the years 0 to 9999 the text handed to the
    recurrence library is DTSTART: followed by the UTC date and time of the
    start as YYYYMMDD, T, HHMMSS and Z, the milliseconds dropped, then a
    line feed and RRULE: followed by the rule as it came. *)
Theorem X22_ruleText_stamp (startDate_ : Z) (recurrence : string) :
  0 <= YearFromTime startDate_ <= 9999 ->
  ruleText startDate_ recurrence
  = ("DTSTART:"
       ++ pad 4 (YearFromTime startDate_) ++ pad 2 (MonthFromTime startDate_)
       ++ pad 2 (DateFromTime startDate_) ++ "T"
       ++ pad 2 (HourFromTime startDate_) ++ pad 2 (MinFromTime startDate_)
       ++ pad 2 (SecFromTime startDate_) ++ "Z" ++ newline
       ++ "RRULE:" ++ recurrence)%string.
Proof.
  intros Hy. unfold ruleText, toISOString, isoDate, isoTime, isoYear.
  replace ((0 <=? YearFromTime startDate_) && (YearFromTime startDate_ <=? 9999))
    with true by (symmetry; apply andb_true_iff; split; apply Z.leb_le; lia).
  set (p := fun a => (Ascii.eqb a "-" || Ascii.eqb a ":")%bool).
  rewrite !remove_chars_app.
  rewrite !(remove_chars_pad p) by reflexivity.
  change (remove_chars p "-") with EmptyString.
  change (remove_chars p ":") with EmptyString.
  change (remove_chars p "T") with "T"%string.
  change (remove_chars p ".") with "."%string.
  change (remove_chars p "Z") with "Z"%string.
  cbn [append]. rewrite !string_app_assoc. cbn [append].
  set (stamp := (pad 4 (YearFromTime startDate_) ++ pad 2 (MonthFromTime startDate_)
                   ++ pad 2 (DateFromTime startDate_) ++ "T"
                   ++ pad 2 (HourFromTime startDate_) ++ pad 2 (MinFromTime startDate_)
                   ++ pad 2 (SecFromTime startDate_))%string).
  replace (pad 4 (YearFromTime startDate_) ++ pad 2 (MonthFromTime startDate_)
             ++ pad 2 (DateFromTime startDate_)
             ++ String "T" (pad 2 (HourFromTime startDate_)
             ++ pad 2 (MinFromTime startDate_) ++ pad 2 (SecFromTime startDate_)
             ++ String "." (pad 3 (msFromTime startDate_) ++ "Z")))%string
    with (stamp ++ String "." (pad 3 (msFromTime startDate_) ++ "Z"))%string
    by (unfold stamp; cbn [append]; now rewrite !string_app_assoc).
  rewrite before_first_app.
  - unfold stamp. cbn [append]. now rewrite !string_app_assoc.
  - unfold stamp. rewrite !occurs_app, !occurs_pad by reflexivity. reflexivity.
Qed.
End ListingFacts.

(** ** Reading the output of the scripts *)

Module ScriptOutputFacts.
Import JSString EventOps ScriptOutput KeyFacts GroupFacts BridgeFacts.
Local Open Scope string_scope.

Example splitOn_samples :
  splitOn "|" "a|b||c" = ["a"; "b"; ""; "c"]
  /\ splitOn "|" "" = [""]
  /\ splitOn "|" "a|" = ["a"; ""]
  /\ splitOn2 "," " " "Work, Home,Office, " = ["Work"; "Home,Office"; ""]
  /\ trim "  a b  " = "a b".
Proof. repeat split; reflexivity. Qed.

Lemma splitOn_nonempty (c : ascii) (s : string) : splitOn c s <> [].
Proof.
  destruct s as [|a s]; simpl; [discriminate|].
  destruct (Ascii.eqb a c); [discriminate|].
  destruct (splitOn c s); discriminate.
Qed.

Lemma splitOn_piece (c : ascii) (piece rest : string) :
  occurs c piece = false ->
  splitOn c (piece ++ String c rest) = piece :: splitOn c rest.
Proof.
  induction piece as [|a piece IH]; simpl; intros H.
  - now rewrite Ascii.eqb_refl.
  - apply orb_false_iff in H. destruct H as [Ha Hp].
    rewrite Ha, (IH Hp). reflexivity.
Qed.

Lemma splitOn_last (c : ascii) (piece : string) :
  occurs c piece = false -> splitOn c piece = [piece].
Proof.
  induction piece as [|a piece IH]; simpl; intros H; [reflexivity|].
  apply orb_false_iff in H. destruct H as [Ha Hp].
  rewrite Ha, (IH Hp). reflexivity.
Qed.

Lemma splitOn_join (c : ascii) (pieces : list string) :
  pieces <> [] ->
  Forall (fun piece => occurs c piece = false) pieces ->
  splitOn c (join (String c EmptyString) pieces) = pieces.
Proof.
  induction pieces as [|piece pieces IH]; intros Hne Hall; [congruence|].
  inversion Hall as [|? ? Hp Hrest]; subst.
  destruct pieces as [|next pieces].
  - simpl. now apply splitOn_last.
  - change (join (String c "") (piece :: next :: pieces))
      with (piece ++ String c (join (String c "") (next :: pieces))).
    rewrite splitOn_piece by assumption. f_equal.
    apply IH; [discriminate|assumption].
Qed.

Lemma splitOn_head (c : ascii) (s : string) :
  hd_error (splitOn c s) = Some (before_first c s).
Proof.
  induction s as [|a s IH]; simpl; [reflexivity|].
  destruct (Ascii.eqb a c); [reflexivity|].
  destruct (splitOn c s) as [|h t]; simpl in *; [discriminate|].
  now injection IH as ->.
Qed.

Lemma before_first_sep (c : ascii) (s r : string) :
  before_first c (s ++ String c r) = before_first c s.
Proof.
  induction s as [|a s IH]; simpl.
  - now rewrite Ascii.eqb_refl.
  - destruct (Ascii.eqb a c); [reflexivity|now rewrite IH].
Qed.

(** X23: the line the script writes for an event splits back, at the "|",
    into the seven fields written (eight with the calendar name that
    [listAllEvents] puts first), provided no field contains a "|"; and
    when only the uid is known to be free of it, the summary read is the
    summary written cut at its first "|", so a "|" in a summary shifts the
    fields after it. *)
Theorem X23_scriptLine_fields (uid_ summary_ startISO endISO : string)
    (location_ description_ : option string) (recurrence : string) :
  let line := scriptLine uid_ summary_ startISO endISO location_ description_ recurrence in
  (Forall (fun piece => occurs "|" piece = false)
     [uid_; summary_; startISO; endISO; or_empty location_; or_empty description_;
      recurrence] ->
   splitOn "|" line
   = [uid_; summary_; startISO; endISO; or_empty location_; or_empty description_;
      recurrence])
  /\ (occurs "|" uid_ = false ->
      field line 0 = Some uid_
      /\ field line 1 = Some (before_first "|" summary_))
  /\ (forall calName,
        Forall (fun piece => occurs "|" piece = false)
          [calName; uid_; summary_; startISO; endISO; or_empty location_;
           or_empty description_; recurrence] ->
        splitOn "|"
          (scriptLineAll calName uid_ summary_ startISO endISO location_ description_
             recurrence)
        = [calName; uid_; summary_; startISO; endISO; or_empty location_;
           or_empty description_; recurrence]).
Proof.
  intros line. split; [|split].
  3:{ intros calName Hall.
      change (scriptLineAll calName uid_ summary_ startISO endISO location_ description_
                recurrence)
        with (join "|" [calName; uid_; summary_; startISO; endISO; or_empty location_;
                        or_empty description_; recurrence]).
      apply splitOn_join; [discriminate|exact Hall]. }
  - intros Hall.
    change line with (join "|" [uid_; summary_; startISO; endISO; or_empty location_;
                                or_empty description_; recurrence]).
    apply splitOn_join; [discriminate|exact Hall].
  - intros Huid. unfold field, line, scriptLine.
    change (uid_ ++ "|" ++ summary_ ++ "|" ++ startISO ++ "|" ++ endISO ++ "|"
              ++ or_empty location_ ++ "|" ++ or_empty description_ ++ "|" ++ recurrence)
      with (uid_ ++ String "|" (summary_ ++ "|" ++ startISO ++ "|" ++ endISO ++ "|"
              ++ or_empty location_ ++ "|" ++ or_empty description_ ++ "|" ++ recurrence)).
    rewrite splitOn_piece by assumption. split; [reflexivity|].
    cbn [nth_error].
    destruct (splitOn "|" _) as [|h t] eqn:Hs; [now apply splitOn_nonempty in Hs|].
    pose proof (splitOn_head "|" (summary_ ++ "|" ++ startISO ++ "|" ++ endISO ++ "|"
              ++ or_empty location_ ++ "|" ++ or_empty description_ ++ "|" ++ recurrence))
      as Hh.
    rewrite Hs in Hh. simpl in Hh. rewrite Hh. f_equal.
    apply (before_first_sep "|" summary_).
Qed.

(** X24: the output of the script splits into its lines: for lines without
    a line feed, joined by line feeds, with or without a final one, the
    lines read are the lines written, the empty ones dropped. *)
Theorem X24_outputLines_join (lines : list string) :
  Forall (fun line => occurs (ascii_of_nat 10) line = false) lines ->
  outputLines (join newline lines) = filter truthy lines
  /\ outputLines (join newline lines ++ newline) = filter truthy lines.
Proof.
  intros Hall. unfold outputLines, newline.
  destruct lines as [|line lines]; [split; reflexivity|].
  split.
  - rewrite splitOn_join; [reflexivity|discriminate|assumption].
  - replace (join (String (ascii_of_nat 10) "") (line :: lines)
               ++ String (ascii_of_nat 10) "")
      with (join (String (ascii_of_nat 10) "") ((line :: lines) ++ [""])).
    + rewrite splitOn_join.
      * rewrite filter_app. simpl. apply app_nil_r.
      * destruct lines; discriminate.
      * apply Forall_app. split; [assumption|]. constructor; [reflexivity|constructor].
    + clear Hall. revert line. induction lines as [|next lines IH]; intros line.
      * reflexivity.
      * change (join (String (ascii_of_nat 10) "") ((line :: next :: lines) ++ [""]))
          with (line ++ String (ascii_of_nat 10) ""
                  ++ join (String (ascii_of_nat 10) "") ((next :: lines) ++ [""])).
        rewrite IH.
        change (join (String (ascii_of_nat 10) "") (line :: next :: lines))
          with (line ++ String (ascii_of_nat 10) ""
                  ++ join (String (ascii_of_nat 10) "") (next :: lines)).
        now rewrite !string_app_assoc.
Qed.

Lemma splitOn2_piece (c1 c2 : ascii) (piece rest : string) :
  c1 <> c2 ->
  occurs2 c1 c2 piece = false ->
  splitOn2 c1 c2 (piece ++ String c1 (String c2 rest)) = piece :: splitOn2 c1 c2 rest.
Proof.
  intros Hne. induction piece as [|a piece IH]; intros H.
  - simpl. now rewrite !Ascii.eqb_refl.
  - destruct piece as [|b piece].
    + simpl. apply Ascii.eqb_neq in Hne.
      rewrite Hne, andb_false_r, !Ascii.eqb_refl. reflexivity.
    + simpl in H. apply orb_false_iff in H. destruct H as [Hab Hp].
      change (splitOn2 c1 c2 (String a (String b piece) ++ String c1 (String c2 rest)))
        with (if Ascii.eqb a c1 && Ascii.eqb b c2
              then EmptyString :: splitOn2 c1 c2 (piece ++ String c1 (String c2 rest))
              else consHead a
                     (splitOn2 c1 c2 (String b piece ++ String c1 (String c2 rest)))).
      rewrite Hab, (IH Hp). reflexivity.
Qed.

Lemma splitOn2_last (c1 c2 : ascii) (piece : string) :
  occurs2 c1 c2 piece = false -> splitOn2 c1 c2 piece = [piece].
Proof.
  induction piece as [|a piece IH]; intros H; [reflexivity|].
  destruct piece as [|b piece]; [reflexivity|].
  simpl in H. apply orb_false_iff in H. destruct H as [Hab Hp].
  change (splitOn2 c1 c2 (String a (String b piece)))
    with (if Ascii.eqb a c1 && Ascii.eqb b c2
          then EmptyString :: splitOn2 c1 c2 piece
          else consHead a (splitOn2 c1 c2 (String b piece))).
  rewrite Hab, (IH Hp). reflexivity.
Qed.

Lemma splitOn2_join (c1 c2 : ascii) (pieces : list string) :
  c1 <> c2 ->
  pieces <> [] ->
  Forall (fun piece => occurs2 c1 c2 piece = false) pieces ->
  splitOn2 c1 c2 (join (String c1 (String c2 EmptyString)) pieces) = pieces.
Proof.
  intros Hne. induction pieces as [|piece pieces IH]; intros Hnil Hall; [congruence|].
  inversion Hall as [|? ? Hp Hrest]; subst.
  destruct pieces as [|next pieces].
  - simpl. now apply splitOn2_last.
  - change (join (String c1 (String c2 "")) (piece :: next :: pieces))
      with (piece ++ String c1 (String c2 (join (String c1 (String c2 "")) (next :: pieces)))).
    rewrite splitOn2_piece by assumption. f_equal.
    apply IH; [discriminate|assumption].
Qed.

(** X25: from a non-empty output that lists names separated by ", ",
    none of them containing ", " or starting or ending with white space,
    [listCalendars] returns one calendar per name, in order, with the name
    for uid, and [calendarExists] holds exactly of the names listed. *)
Theorem X25_listCalendars_roundtrip (names : list string) :
  truthy (join ", " names) = true ->
  Forall (fun n => occurs2 "," " " n = false /\ trim n = n) names ->
  listCalendars (join ", " names) = map (fun n => mkCalendar n n) names
  /\ (forall n, calendarExists (join ", " names) n = true <-> In n names).
Proof.
  intros Hout Hall.
  assert (Hnil : names <> []) by (intros ->; discriminate).
  assert (Hlist : listCalendars (join ", " names) = map (fun n => mkCalendar n n) names).
  { unfold listCalendars. rewrite Hout. simpl negb. cbv iota.
    rewrite (splitOn2_join "," " ") ; [|discriminate|assumption|].
    - f_equal. clear Hout Hnil. induction Hall as [|n l [_ Hn] _ IH]; simpl;
        [reflexivity|now rewrite Hn, IH].
    - eapply Forall_impl; [|exact Hall]. now intros n [Hn _]. }
  split; [exact Hlist|].
  intros n. unfold calendarExists. rewrite Hlist, existsb_exists. split.
  - intros [cal [Hin Heq]]. apply in_map_iff in Hin. destruct Hin as [m [<- Hm]].
    simpl in Heq. apply String.eqb_eq in Heq. now subst.
  - intros Hin. exists (mkCalendar n n).
    split; [exact (in_map (fun m => mkCalendar m m) names n Hin)|].
    apply String.eqb_refl.
Qed.

(** X26: an empty output gives no calendar at all; and a single calendar
    whose name contains ", " is read as two calendars, so that
    [calendarExists] denies the calendar under its real name. *)
Theorem X26_listCalendars_edges :
  listCalendars "" = []
  /\ (forall a b,
        occurs2 "," " " a = false -> trim a = a ->
        occurs2 "," " " b = false -> trim b = b ->
        map name (listCalendars (a ++ ", " ++ b)) = [a; b]
        /\ calendarExists (a ++ ", " ++ b) (a ++ ", " ++ b) = false).
Proof.
  split; [reflexivity|].
  intros a b Ha Hta Hb Htb.
  assert (Hnames : listCalendars (a ++ ", " ++ b) = [mkCalendar a a; mkCalendar b b]).
  { unfold listCalendars.
    destruct (truthy (a ++ ", " ++ b)) eqn:Ht; [|destruct a; discriminate].
    simpl negb. cbv iota.
    change (a ++ ", " ++ b) with (a ++ String "," (String " " b)).
    rewrite splitOn2_piece by (assumption || discriminate).
    rewrite splitOn2_last by assumption. simpl. now rewrite Hta, Htb. }
  split; [now rewrite Hnames|].
  unfold calendarExists. rewrite Hnames. cbn [existsb name].
  assert (Hla : String.eqb a (a ++ ", " ++ b) = false).
  { apply String.eqb_neq. intros Heq. apply (f_equal String.length) in Heq.
    rewrite !length_append in Heq. simpl in Heq. lia. }
  assert (Hlb : String.eqb b (a ++ ", " ++ b) = false).
  { apply String.eqb_neq. intros Heq. apply (f_equal String.length) in Heq.
    rewrite !length_append in Heq. simpl in Heq. lia. }
  rewrite Hla, Hlb. reflexivity.
Qed.
End ScriptOutputFacts.

(** ** The further properties on the sample data *)

Module MoreInstances.
Import JSDate JSString Scheduling EventOps Examples MoreExamples.
Import SweepSpec DateParser Bridge Formatters EventSearch ScriptOutput.
Import SweepFacts DateParserFacts BridgeFacts FormattersFacts EventSearchFacts.
Import ListingFacts ScriptOutputFacts.
Local Open Scope string_scope.

Lemma X1_findFreeSlots_characterised_witness :
  In (slotAt 9 0 msPerHour)
    (findFreeSlots utc (at_ 0 0) (at_ 24 0) (Double.ofZ msPerHour) [meeting] true).
Proof.
  assert (Hwhole : wholeMs (at_ 0 0) (at_ 24 0) msPerHour)
    by (repeat split; vm_compute; (reflexivity || discriminate)).
  refine (proj2 (proj2 (X1_findFreeSlots_characterised utc (at_ 0 0) (at_ 24 0) msPerHour
                          [meeting] true Hwhole) (slotAt 9 0 msPerHour)) _).
  exists 18%Z. split; [lia|]. split; [vm_compute; reflexivity|].
  split; [vm_compute; discriminate|]. split; [vm_compute; reflexivity|].
  intros _. vm_compute. split; [discriminate|reflexivity].
Defined.

Lemma X3_findFreeSlots_short_window_witness :
  findFreeSlots utc (at_ 10 0) (at_ 10 30) (Double.ofZ msPerHour) [meeting] false = [].
Proof.
  assert (Hwhole : wholeMs (at_ 10 0) (at_ 10 30) msPerHour)
    by (repeat split; vm_compute; (reflexivity || discriminate)).
  apply (X3_findFreeSlots_short_window utc (at_ 10 0) (at_ 10 30) msPerHour
           [meeting] false Hwhole).
  vm_compute. reflexivity.
Defined.

(** For a fractional duration the rounded loop test can admit a slot
    although the window is shorter than the duration: 30.00000000001
    minutes over a window of 30 minutes. *)
Example short_window_rounding :
  findFreeSlots utc (at_ 10 0) (at_ 10 30)
    (Server.durationMs minutes_30_00000000001) [] false
  = [slotAt 10 0 (30 * msPerMinute)].
Proof. vm_compute. reflexivity. Qed.

Lemma X4_isFree_iff_disjoint_witness :
  isFree (slotAt 9 0 msPerHour) [meeting] = true
  /\ isFree (slotAt 11 0 msPerHour) [meeting] = true.
Proof.
  split.
  - apply (proj1 (X4_isFree_iff_disjoint (slotAt 9 0 msPerHour) [meeting] [])).
    intros event [<-|[]]. right. vm_compute. discriminate.
  - apply (proj1 (X4_isFree_iff_disjoint (slotAt 11 0 msPerHour) [meeting] [])).
    intros event [<-|[]]. left. vm_compute. discriminate.
Defined.

Lemma X5_calculateTotalDuration_additive_witness :
  calculateTotalDuration [meeting; overnight] = calculateTotalDuration [overnight; meeting].
Proof.
  apply (X5_calculateTotalDuration_additive [meeting; overnight] [overnight; meeting]).
  apply perm_swap.
Defined.

(** An event booked twice counts twice. *)
Example calculateTotalDuration_double_booked :
  calculateTotalDuration [meeting; meeting] = (2 * msPerHour)%Z.
Proof. reflexivity. Qed.

Lemma X7_findOptimalSlot_result_witness :
  In (slotAt 14 0 msPerHour) [slotAt 9 0 msPerHour; slotAt 14 0 msPerHour]
  /\ isFree (slotAt 14 0 msPerHour) [meeting] = true.
Proof.
  destruct (X7_findOptimalSlot_result utc
              [slotAt 9 0 msPerHour; slotAt 14 0 msPerHour] [meeting] (Some [14%Z])
              (slotAt 14 0 msPerHour) eq_refl) as [Hin [Hfree _]].
  split; [exact Hin|exact Hfree].
Defined.

Lemma X8_suggest_optimal_time_from_sweep_witness :
  findOptimalSlot utc
    (findFreeSlots utc (at_ 9 0) (at_ 13 0) (Double.ofZ msPerHour) [meeting] false)
    [meeting] None
  = Some (slotAt 9 0 msPerHour)
  /\ end_ (slotAt 9 0 msPerHour) <= at_ 13 0.
Proof.
  destruct (X8_suggest_optimal_time_from_sweep utc (at_ 9 0) (at_ 13 0)
              (Double.ofZ msPerHour) [meeting] false None) as (_ & _ & Hfirst & Hfit).
  assert (Hres : findOptimalSlot utc
            (findFreeSlots utc (at_ 9 0) (at_ 13 0) (Double.ofZ msPerHour) [meeting] false)
            [meeting] None
          = Some (slotAt 9 0 msPerHour)).
  { rewrite (Hfirst (or_introl eq_refl)). vm_compute. reflexivity. }
  split; [exact Hres|].
  destruct (Hfit _ Hres) as (_ & _ & Hend & _). apply Hend. reflexivity.
Defined.

Lemma X9_calculateMeetingDensity_forward_period_witness :
  exists q,
    calculateMeetingDensity [meeting; lunch; overnight] (at_ 0 0) (at_ 47 0)
    = JSNumber.Finite q
    /\ (q == inject_Z 3 / inject_Z 2)%Q.
Proof.
  assert (Hlt : (at_ 0 0 < at_ 47 0)%Z) by (vm_compute; reflexivity).
  destruct (X9_calculateMeetingDensity_forward_period [meeting; lunch; overnight]
              (at_ 0 0) (at_ 47 0) Hlt) as [_ [q [Hd [Hq _]]]].
  exists q. split; [exact Hd|exact Hq].
Defined.

Lemma X10_parseDateRange_ordered_witness :
  (at_ 9 0 < at_ 17 0)%Z.
Proof.
  apply (X10_parseDateRange_ordered sampleParseDate "today 9am" (Some "today 5pm") None
           (at_ 9 0) (at_ 17 0)).
  vm_compute. reflexivity.
Defined.

Lemma X11_parseDateRange_default_end_witness :
  parseDateRange sampleParseDate "today 9am" (Some "") (Some (30 * msPerMinute)%Z)
  = Normal (at_ 9 0, at_ 9 30)
  /\ parseDateRange sampleParseDate "today 9am" None (Some 0%Z)
     = Throw "End date must be after start date".
Proof.
  split.
  - apply (X11_parseDateRange_default_end sampleParseDate "today 9am" (Some "")
             (30 * msPerMinute)%Z (at_ 9 0) (or_intror eq_refl) eq_refl).
  - apply (X11_parseDateRange_default_end sampleParseDate "today 9am" None
             0%Z (at_ 9 0) (or_introl eq_refl) eq_refl).
Defined.

Lemma X12_analyze_schedule_density_finite_witness :
  exists q,
    JSNumber.toQ (calculateMeetingDensity [meeting; lunch] (at_ 9 0) (at_ 17 0)) = Some q
    /\ (0 <= q <= inject_Z 2)%Q.
Proof.
  apply (X12_analyze_schedule_density_finite sampleParseDate "today 9am"
           (Some "today 5pm") None (at_ 9 0) (at_ 17 0) [meeting; lunch]).
  vm_compute. reflexivity.
Defined.

Lemma X13_escape_roundtrip_witness :
  readLiteral
    (escapeAppleScriptString (String dquote "Q1" ++ String dquote (String backslash " plan"))
     ++ String dquote " & more")
  = Some (String dquote "Q1" ++ String dquote (String backslash " plan"), " & more")
  /\ String backslash "n" = String backslash "n".
Proof.
  destruct (X13_escape_roundtrip
              (String dquote "Q1" ++ String dquote (String backslash " plan")) " & more")
    as [Hread _].
  split; [exact Hread|].
  destruct (X13_escape_roundtrip (String backslash "n") EmptyString) as [_ Hinj].
  apply Hinj. reflexivity.
Defined.

Lemma X15_formatDuration_whole_minutes_witness :
  formatDuration 5459999 = formatDuration 5400000.
Proof.
  assert (H : (0 <= 5459999)%Z) by lia.
  destruct (X15_formatDuration_whole_minutes 5459999 H) as (_ & _ & Hcut).
  exact Hcut.
Defined.

Lemma X16_formatDuration_edges_witness :
  formatDuration 59999 = "0 minutes" /\ formatDuration (-1) = "-1 hours -1 minutes".
Proof.
  split.
  - apply (proj1 (X16_formatDuration_edges 59999)). lia.
  - apply (proj2 (X16_formatDuration_edges (-1))). lia.
Defined.

Lemma X18_searchEvents_case_insensitive_witness :
  exists found,
    searchEvents (list Z) rejecting_rrulestr series_between (at_ 0 0) (at_ 24 0)
      "meeting" [teamRow; plainRow]
    = Normal found
    /\ In teamMeeting found.
Proof.
  destruct (X18_searchEvents_case_insensitive (list Z) rejecting_rrulestr series_between
              (at_ 0 0) (at_ 24 0) [teamRow; plainRow] "meeting" "MEETING"
              [teamMeeting;
               mkEvent "R3" "Dentist" (at_ 15 0) (at_ 16 0) None None (Some "Home")]
              teamMeeting eq_refl (or_introl eq_refl) eq_refl (or_introl eq_refl))
    as [found [Hfound [Hin _]]].
  exists found. split; [exact Hfound|exact Hin].
Defined.

Lemma X19_listEvents_provenance_witness :
  exists found,
    listEvents (list Z) (series_rrulestr weeklyStarts) series_between "Work"
      (at_ 0 0) (at_ (3 * 168) 0) [weeklyRow; brokenRow]
    = Normal found
    /\ Forall (fun event => calendar event = Some "Work") found.
Proof.
  destruct (X19_listEvents_provenance (list Z) (series_rrulestr weeklyStarts)
              series_between (at_ 0 0) (at_ (3 * 168) 0) "Work" [weeklyRow; brokenRow])
    as [found [Hfound Hall]].
  exists found. split; [exact Hfound|].
  apply Forall_forall. intros event Hin.
  destruct (Hall event Hin) as [row [_ [Hcal _]]]. exact Hcal.
Defined.

Lemma X20_listAllEvents_provenance_witness :
  exists found,
    listAllEvents (list Z) (series_rrulestr weeklyStarts) series_between
      (at_ 0 0) (at_ (3 * 168) 0) [weeklyRow; teamRow; plainRow]
    = Normal found
    /\ Forall (fun event => calendar event = Some "Work" \/ calendar event = Some "Home")
         found.
Proof.
  destruct (X20_listAllEvents_provenance (list Z) (series_rrulestr weeklyStarts)
              series_between (at_ 0 0) (at_ (3 * 168) 0) [weeklyRow; teamRow; plainRow])
    as [found [Hfound Hall]].
  exists found. split; [exact Hfound|].
  apply Forall_forall. intros event Hin.
  destruct (Hall event Hin) as [row [Hrow [Hcal _]]]. rewrite Hcal.
  destruct Hrow as [<-|[<-|[<-|[]]]]; [left|left|right]; reflexivity.
Defined.

Lemma X21_listEvents_plain_rows_witness :
  listEvents (list Z) rejecting_rrulestr series_between "Home"
    (at_ 0 0) (at_ 24 0) [plainRowEarly; plainRow]
  = Normal [mkEvent "R3" "Dentist" (at_ 15 0) (at_ 16 0) None None (Some "Home")].
Proof.
  rewrite (X21_listEvents_plain_rows (list Z) rejecting_rrulestr series_between
             (at_ 0 0) (at_ 24 0) "Home" [plainRowEarly; plainRow]).
  - vm_compute. reflexivity.
  - intros row [<-|[<-|[]]]; reflexivity.
Defined.

Lemma X22_ruleText_stamp_witness :
  ruleText (at_ 9 0) "FREQ=WEEKLY"
  = "DTSTART:20240229T090000Z" ++ newline ++ "RRULE:FREQ=WEEKLY".
Proof.
  rewrite (X22_ruleText_stamp (at_ 9 0) "FREQ=WEEKLY").
  - vm_compute. reflexivity.
  - vm_compute. split; discriminate.
Defined.

Lemma X23_scriptLine_fields_witness :
  splitOn "|"
    (scriptLine "E1" "Review" "2024-02-29T10:00:00" "2024-02-29T11:00:00"
       None (Some "Notes") "FREQ=DAILY")
  = ["E1"; "Review"; "2024-02-29T10:00:00"; "2024-02-29T11:00:00"; ""; "Notes";
     "FREQ=DAILY"]
  /\ field (scriptLine "E1" "Q1|Q2 review" "2024-02-29T10:00:00" "2024-02-29T11:00:00"
              None None "") 1
     = Some "Q1".
Proof.
  split.
  - apply (proj1 (X23_scriptLine_fields "E1" "Review" "2024-02-29T10:00:00"
                    "2024-02-29T11:00:00" None (Some "Notes") "FREQ=DAILY")).
    repeat constructor.
  - destruct (X23_scriptLine_fields "E1" "Q1|Q2 review" "2024-02-29T10:00:00"
                "2024-02-29T11:00:00" None None "") as (_ & Hcut & _).
    destruct (Hcut eq_refl) as [_ Hsummary]. exact Hsummary.
Defined.

Lemma X24_outputLines_join_witness :
  outputLines ("a|b" ++ newline ++ newline ++ "c|d" ++ newline) = ["a|b"; "c|d"].
Proof.
  destruct (X24_outputLines_join ["a|b"; ""; "c|d"]) as [_ Hfinal].
  - repeat constructor.
  - exact Hfinal.
Defined.

Lemma X25_listCalendars_roundtrip_witness :
  listCalendars "Work, Home" = [mkCalendar "Work" "Work"; mkCalendar "Home" "Home"]
  /\ calendarExists "Work, Home" "Home" = true.
Proof.
  assert (Hall : Forall (fun n => occurs2 "," " " n = false /\ trim n = n) ["Work"; "Home"])
    by (repeat constructor).
  destruct (X25_listCalendars_roundtrip ["Work"; "Home"] eq_refl Hall) as [Hlist Hex].
  split; [exact Hlist|]. apply Hex. right. left. reflexivity.
Defined.

Lemma X26_listCalendars_edges_witness :
  map name (listCalendars "Smith, John") = ["Smith"; "John"]
  /\ calendarExists "Smith, John" "Smith, John" = false.
Proof.
  destruct X26_listCalendars_edges as [_ Hsplit].
  apply (Hsplit "Smith" "John"); reflexivity.
Defined.

End MoreInstances.
